(** * Perf trampoline: arenas, dispatch, jitdump records

    A shallow embedding of [Python/perf_trampoline.c] and
    [Python/perf_jit_trampoline.c].  C integers are mathematical integers
    with the wrap-around of their width written out, pointers are
    addresses in [Z] with [NULL = 0], the process-wide singletons of the
    runtime are fields of one explicit state record, and every answer of
    the operating system (mmap, mprotect, calloc, open, ...) is an
    explicit argument of the function that asks for it. *)

From Equations Require Import Equations.
From Stdlib Require Import ZArith List Bool Lia String Ascii Sorted.
From Stdlib Require Import Permutation.
Import ListNotations.
Local Open Scope Z_scope.

(* ===================================================================== *)
(** * Part I: definitions                                                *)
(* ===================================================================== *)

(** ** Fixed-width integers *)

Definition to_uint8 (z : Z) : Z := z mod 2^8.
Definition to_uint32 (z : Z) : Z := z mod 2^32.
Definition to_uint64 (z : Z) : Z := z mod 2^64.
Definition to_size_t (z : Z) : Z := z mod 2^64.
Definition to_int32 (z : Z) : Z := (z + 2^31) mod 2^32 - 2^31.
Definition to_int64 (z : Z) : Z := (z + 2^63) mod 2^64 - 2^63.

Definition is_int32 (z : Z) : Prop := - 2^31 <= z < 2^31.
Definition is_uint32 (z : Z) : Prop := 0 <= z < 2^32.
Definition is_int64 (z : Z) : Prop := - 2^63 <= z < 2^63.

Definition NULL : Z := 0.

(** ** [round_up] (both files carry the same definition)

    [static size_t round_up(int64_t value, int64_t multiple)]: the
    arithmetic is done on [int64_t] ([%] truncates towards zero, hence
    [Z.rem]); the result is converted to the unsigned [size_t] on
    return. *)

Definition round_up (value multiple : Z) : Z :=
  if multiple =? 0 then
    to_size_t value
  else
    let remainder := Z.rem value multiple in
    if remainder =? 0 then
      to_size_t value
    else
      let difference := to_int64 (multiple - remainder) in
      let rounded_up_value := to_int64 (value + difference) in
      to_size_t rounded_up_value.

(** ** LEB128 encoders of the DWARF emitter

    [elfctx_append_sleb128] and [elfctx_append_uleb128] push bytes at
    [ctx->p]; the functions below give the bytes pushed.  The loops are
    not structurally recursive, their termination is argued on the
    magnitude of [v]. *)

Equations? sleb128_bytes (v : Z) : list Z by wf (Z.to_nat (Z.abs v)) lt :=
  sleb128_bytes v with Z_le_dec 0x80 (to_uint32 (v + 0x40)) => {
    | left _ :=
        to_uint8 (Z.lor (Z.land v 0x7f) 0x80)
          :: sleb128_bytes (Z.shiftr v 7);
    | right _ := [to_uint8 (Z.land v 0x7f)] }.
Proof.
  rewrite Z.shiftr_div_pow2 by lia.
  unfold to_uint32 in *.
  assert (v <> 0 /\ v <> -1) as [H0 H1].
  { split; intros ->; vm_compute in l; apply l; reflexivity. }
  clear l.
  assert (Z.abs (v / 2 ^ 7) < Z.abs v); [| lia].
  change (2 ^ 7) with 128.
  destruct (Z_lt_le_dec v 0).
  - assert (v <= v / 128) by (apply Z.div_le_lower_bound; lia).
    assert (v / 128 < 0) by (apply Z.div_lt_upper_bound; lia).
    assert (v / 128 <> v).
    { intro E. pose proof (Z.mul_div_le v 128 ltac:(lia)). 
      pose proof (Z.mod_pos_bound v 128 ltac:(lia)).
      pose proof (Z.div_mod v 128 ltac:(lia)). lia. }
    lia.
  - assert (0 <= v / 128) by (apply Z.div_pos; lia).
    assert (v / 128 < v) by (apply Z.div_lt; lia).
    lia.
Qed.

Equations? uleb128_bytes (v : Z) : list Z by wf (Z.to_nat v) lt :=
  uleb128_bytes v with Z_le_dec 0x80 v => {
    | left _ :=
        to_uint8 (Z.lor (Z.land v 0x7f) 0x80)
          :: uleb128_bytes (Z.shiftr v 7);
    | right _ := [to_uint8 v] }.
Proof.
  rewrite Z.shiftr_div_pow2 by lia.
  assert (0 <= v / 2 ^ 7) by (apply Z.div_pos; lia).
  assert (v / 2 ^ 7 < v) by (apply Z.div_lt; lia).
  lia.
Qed.

(** ** Standard LEB128 decoding

    The reader's side, after DWARF 5, appendix C (figures 48 and 49):
    accumulate the low seven bits of every byte until one has its high
    bit clear; a signed value is sign-extended from the last byte when
    the accumulated width is below that of the integer (32 bits here). *)

Fixpoint leb128_scan (shift result : Z) (bs : list Z)
  : option (Z * Z * Z * list Z) :=
  match bs with
  | [] => None
  | byte :: rest =>
      let result := Z.lor result (Z.shiftl (Z.land byte 0x7f) shift) in
      let shift := shift + 7 in
      if Z.land byte 0x80 =? 0 then Some (result, shift, byte, rest)
      else leb128_scan shift result rest
  end.

Definition uleb128_decode (bs : list Z) : option (Z * list Z) :=
  match leb128_scan 0 0 bs with
  | Some (result, _, _, rest) => Some (to_uint32 result, rest)
  | None => None
  end.

Definition sleb128_decode (bs : list Z) : option (Z * list Z) :=
  match leb128_scan 0 0 bs with
  | Some (result, shift, byte, rest) =>
      let result :=
        if (shift <? 32) && negb (Z.land byte 0x40 =? 0)
        then Z.lor result (- Z.shiftl 1 shift)
        else result in
      Some (to_int32 result, rest)
  | None => None
  end.

(** ** Bytes, strings and struct layout *)

(** [n] bytes of [v], least significant first (both supported targets are
    little-endian); a negative [v] comes out in two's complement. *)
Fixpoint le_bytes (n : nat) (v : Z) : list Z :=
  match n with
  | O => []
  | S n' => v mod 256 :: le_bytes n' (v / 256)
  end.

Definition bytes_of_string (s : string) : list Z :=
  map (fun c => Z.of_N (N_of_ascii c)) (list_ascii_of_string s).

(** What [%s] and [strlen] see of a buffer: the bytes before the first
    NUL. *)
Fixpoint c_str (bs : list Z) : list Z :=
  match bs with
  | [] => []
  | b :: rest => if b =? 0 then [] else b :: c_str rest
  end.

Definition strlen (bs : list Z) : Z := Z.of_nat (List.length (c_str bs)).

(** ** DWARF constants and the [.eh_frame] emitter *)

Inductive target_arch := X86_64 | AArch64.

Definition sizeof_uintptr_t : Z := 8.

Definition DWRF_CIE_VERSION : Z := 1.
Definition DWRF_CFA_nop : Z := 0x0.
Definition DWRF_CFA_def_cfa : Z := 0xc.
Definition DWRF_CFA_def_cfa_offset : Z := 0xe.
Definition DWRF_CFA_advance_loc : Z := 0x40.
Definition DWRF_CFA_offset : Z := 0x80.
Definition DWRF_EH_PE_sdata4 : Z := 0x0b.
Definition DWRF_EH_PE_pcrel : Z := 0x10.

Definition DWRF_REG_SP (arch : target_arch) : Z :=
  match arch with X86_64 => 7 | AArch64 => 31 end.
Definition DWRF_REG_RA (arch : target_arch) : Z :=
  match arch with X86_64 => 16 | AArch64 => 30 end.

(** The [DWRF_*] macros append at the cursor [p]; here each gives the
    bytes it appends.  [DWRF_ALIGNNOP] is the only one that looks at the
    value of the cursor: it pads with [DWRF_CFA_nop] up to the next
    address that is a multiple of [s]. *)
Definition DWRF_U8 (x : Z) : list Z := [to_uint8 x].
Definition DWRF_U32 (x : Z) : list Z := le_bytes 4 x.
Definition DWRF_UV (x : Z) : list Z := uleb128_bytes (to_uint32 x).
Definition DWRF_SV (x : Z) : list Z := sleb128_bytes (to_int32 x).
Definition DWRF_STR (str : string) : list Z :=
  c_str (bytes_of_string str) ++ [0].
Definition DWRF_ALIGNNOP (s : Z) (p : Z) : list Z :=
  repeat DWRF_CFA_nop (Z.to_nat ((- p) mod s)).
(** [DWRF_SECTION]: a 4-byte length, patched in once the body is known. *)
Definition DWRF_SECTION (body : list Z) : list Z :=
  DWRF_U32 (Z.of_nat (List.length body)) ++ body.

Definition zlength (bs : list Z) : Z := Z.of_nat (List.length bs).

Definition cie_body (arch : target_arch) (p : Z) : list Z :=
  let fixed :=
    DWRF_U32 0 ++
    DWRF_U8 DWRF_CIE_VERSION ++
    DWRF_STR "zR" ++
    DWRF_UV 1 ++
    DWRF_SV (- sizeof_uintptr_t) ++
    DWRF_U8 (DWRF_REG_RA arch) ++
    DWRF_UV 1 ++
    DWRF_U8 (Z.lor DWRF_EH_PE_pcrel DWRF_EH_PE_sdata4) ++
    DWRF_U8 DWRF_CFA_def_cfa ++ DWRF_UV (DWRF_REG_SP arch) ++
      DWRF_UV sizeof_uintptr_t ++
    DWRF_U8 (Z.lor DWRF_CFA_offset (DWRF_REG_RA arch)) ++ DWRF_UV 1 in
  fixed ++ DWRF_ALIGNNOP sizeof_uintptr_t (p + zlength fixed).

Definition fde_cfi (arch : target_arch) : list Z :=
  match arch with
  | X86_64 =>
      DWRF_U8 (Z.lor DWRF_CFA_advance_loc 4) ++
      DWRF_U8 DWRF_CFA_def_cfa_offset ++ DWRF_UV 16 ++
      DWRF_U8 (Z.lor DWRF_CFA_advance_loc 6) ++
      DWRF_U8 DWRF_CFA_def_cfa_offset ++ DWRF_UV 8
  | AArch64 =>
      DWRF_U8 (Z.lor DWRF_CFA_advance_loc 1) ++
      DWRF_U8 DWRF_CFA_def_cfa_offset ++ DWRF_UV 16 ++
      DWRF_U8 (Z.lor DWRF_CFA_offset 29) ++ DWRF_UV 2 ++
      DWRF_U8 (Z.lor DWRF_CFA_offset 30) ++ DWRF_UV 1 ++
      DWRF_U8 (Z.lor DWRF_CFA_advance_loc 3) ++
      DWRF_U8 (Z.lor DWRF_CFA_offset (- (64 - 29))) ++
      DWRF_U8 (Z.lor DWRF_CFA_offset (- (64 - 30))) ++
      DWRF_U8 DWRF_CFA_def_cfa_offset ++
      DWRF_UV 0
  end.

Definition fde_body (arch : target_arch) (framep p : Z) (code_size : Z)
  : list Z :=
  let fixed :=
    DWRF_U32 (to_uint32 (p - framep)) ++
    DWRF_U32 (- 0x30) ++
    DWRF_U32 code_size ++
    DWRF_U8 0 ++
    fde_cfi arch in
  fixed ++ DWRF_ALIGNNOP sizeof_uintptr_t (p + zlength fixed).

(** [ELFObjectContext]: [startp], the bytes written from [startp] up to
    the cursor [p], the address [eh_frame_p] and the code size. *)
Record ELFObjectContext := {
  ctx_startp : Z;
  ctx_written : list Z;
  ctx_eh_frame_p : Z;
  ctx_code_size : Z
}.

Definition ctx_p (ctx : ELFObjectContext) : Z :=
  ctx_startp ctx + zlength (ctx_written ctx).

Definition elf_init_ehframe (arch : target_arch) (ctx : ELFObjectContext)
  : ELFObjectContext :=
  let p := ctx_p ctx in
  let framep := p in
  let cie := DWRF_SECTION (cie_body arch (p + 4)) in
  let p := p + zlength cie in
  let eh_frame_p := p in
  let fde := DWRF_SECTION (fde_body arch framep (p + 4) (ctx_code_size ctx)) in
  {| ctx_startp := ctx_startp ctx;
     ctx_written := ctx_written ctx ++ cie ++ fde;
     ctx_eh_frame_p := eh_frame_p;
     ctx_code_size := ctx_code_size ctx |}.

(** ** Outcomes

    A C function either returns or runs into undefined behaviour; the
    latter is a [Fault] that stops everything after it. *)

Inductive fault :=
| NullDereference   (* a field of a NULL pointer is read *)
| NullCall          (* a NULL function pointer is called *)
| StreamClosed      (* a FILE that was already closed is used *)
| DivisionByZero.

Inductive outcome (A : Type) : Type :=
| Done (a : A)
| Fault (f : fault).
Arguments Done {A} a.
Arguments Fault {A} f.

Definition bind {A B : Type} (m : outcome A) (k : A -> outcome B)
  : outcome B :=
  match m with
  | Done a => k a
  | Fault f => Fault f
  end.

Notation "x <- m ;; k" := (bind m (fun x => k))
  (at level 61, m at next level, right associativity).
Notation "' pat <- m ;; k" := (bind m (fun x => let 'pat := x in k))
  (at level 61, pat pattern, m at next level, right associativity).

(** ** The runtime state

    [_PyRuntime.ceval.perf], the static [perf_jit_map_state], the
    interpreter's [eval_frame] hook and what the functions touch of the
    process: memory, the extra slots of code objects, the two files. *)

Inductive perf_status_t :=
| PERF_STATUS_FAILED
| PERF_STATUS_NO_INIT
| PERF_STATUS_OK.

Inductive perf_trampoline_type_t :=
| PERF_TRAMPOLINE_UNSET
| PERF_TRAMPOLINE_TYPE_MAP
| PERF_TRAMPOLINE_TYPE_JITDUMP.

(** [struct code_arena_st]; the [prev] link is the tail of the list the
    arena sits in, [perf_code_arena == NULL] is the empty list. *)
Record code_arena_t := {
  start_addr : Z;
  current_addr : Z;
  size : Z;
  size_left : Z;
  code_size : Z
}.

(** The two [_PyPerf_Callbacks] tables of the sources; a function pointer
    of [trampoline_api] is [None] (NULL) or points into one of them. *)
Inductive sink := perfmap_sink | jitdump_sink.

(** [trampoline_api.state] is NULL or [&perf_jit_map_state]. *)
Inductive state_ptr := state_NULL | state_jit.

Record trampoline_api_t := {
  init_state : option sink;
  write_state : option sink;
  free_state : option sink;
  state : state_ptr;
  code_padding : Z
}.

Inductive eval_frame_t :=
| eval_NULL
| eval_py_trampoline_evaluator
| eval_foreign.

Inductive FILE_ptr := FILE_NULL | FILE_open | FILE_closed.

Record PerfMapJitState := {
  perf_map : FILE_ptr;
  map_lock : bool;
  mapped_buffer : Z;
  mapped_size : Z;
  code_id : Z
}.

Record PyCodeObject := {
  co_addr : Z;
  co_qualname : option string;
  co_filename : option string
}.

Record _PyInterpreterFrame := { f_code : PyCodeObject }.

(** Calls made through [trampoline_api], through a stub pointer (with the
    code object of the frame passed) and to the page mapper, oldest
    first: a history kept beside the state, read by no function. *)
Inductive call :=
| call_init_state (s : sink)
| call_write_state (s : sink) (code_addr code_size co : Z)
| call_free_state (s : sink)
| call_stub (f co : Z)
| call_mmap (addr : option Z)
| call_munmap (addr : Z).

Record runtime := {
  perf_status : perf_status_t;
  extra_code_index : Z;
  perf_code_arena : list code_arena_t;
  trampoline_api : trampoline_api_t;
  persist_after_fork : Z;
  perf_trampoline_type : perf_trampoline_type_t;
  eval_frame : eval_frame_t;
  perf_jit_map_state : PerfMapJitState;
  co_extra : Z -> Z -> Z;
  memory : Z -> Z;
  jit_dump : list Z;
  perf_map_lines : list (Z * Z * list Z);
  history : list call
}.

(** Assignment to one field. *)
Definition set_perf_status (v : perf_status_t) (rt : runtime) : runtime :=
  {| perf_status := v;
     extra_code_index := extra_code_index rt;
     perf_code_arena := perf_code_arena rt;
     trampoline_api := trampoline_api rt;
     persist_after_fork := persist_after_fork rt;
     perf_trampoline_type := perf_trampoline_type rt;
     eval_frame := eval_frame rt;
     perf_jit_map_state := perf_jit_map_state rt;
     co_extra := co_extra rt;
     memory := memory rt;
     jit_dump := jit_dump rt;
     perf_map_lines := perf_map_lines rt;
     history := history rt |}.
Definition set_extra_code_index (v : Z) (rt : runtime) : runtime :=
  {| perf_status := perf_status rt;
     extra_code_index := v;
     perf_code_arena := perf_code_arena rt;
     trampoline_api := trampoline_api rt;
     persist_after_fork := persist_after_fork rt;
     perf_trampoline_type := perf_trampoline_type rt;
     eval_frame := eval_frame rt;
     perf_jit_map_state := perf_jit_map_state rt;
     co_extra := co_extra rt;
     memory := memory rt;
     jit_dump := jit_dump rt;
     perf_map_lines := perf_map_lines rt;
     history := history rt |}.
Definition set_perf_code_arena (v : list code_arena_t) (rt : runtime) : runtime :=
  {| perf_status := perf_status rt;
     extra_code_index := extra_code_index rt;
     perf_code_arena := v;
     trampoline_api := trampoline_api rt;
     persist_after_fork := persist_after_fork rt;
     perf_trampoline_type := perf_trampoline_type rt;
     eval_frame := eval_frame rt;
     perf_jit_map_state := perf_jit_map_state rt;
     co_extra := co_extra rt;
     memory := memory rt;
     jit_dump := jit_dump rt;
     perf_map_lines := perf_map_lines rt;
     history := history rt |}.
Definition set_trampoline_api (v : trampoline_api_t) (rt : runtime) : runtime :=
  {| perf_status := perf_status rt;
     extra_code_index := extra_code_index rt;
     perf_code_arena := perf_code_arena rt;
     trampoline_api := v;
     persist_after_fork := persist_after_fork rt;
     perf_trampoline_type := perf_trampoline_type rt;
     eval_frame := eval_frame rt;
     perf_jit_map_state := perf_jit_map_state rt;
     co_extra := co_extra rt;
     memory := memory rt;
     jit_dump := jit_dump rt;
     perf_map_lines := perf_map_lines rt;
     history := history rt |}.
Definition set_persist_after_fork (v : Z) (rt : runtime) : runtime :=
  {| perf_status := perf_status rt;
     extra_code_index := extra_code_index rt;
     perf_code_arena := perf_code_arena rt;
     trampoline_api := trampoline_api rt;
     persist_after_fork := v;
     perf_trampoline_type := perf_trampoline_type rt;
     eval_frame := eval_frame rt;
     perf_jit_map_state := perf_jit_map_state rt;
     co_extra := co_extra rt;
     memory := memory rt;
     jit_dump := jit_dump rt;
     perf_map_lines := perf_map_lines rt;
     history := history rt |}.
Definition set_perf_trampoline_type (v : perf_trampoline_type_t) (rt : runtime) : runtime :=
  {| perf_status := perf_status rt;
     extra_code_index := extra_code_index rt;
     perf_code_arena := perf_code_arena rt;
     trampoline_api := trampoline_api rt;
     persist_after_fork := persist_after_fork rt;
     perf_trampoline_type := v;
     eval_frame := eval_frame rt;
     perf_jit_map_state := perf_jit_map_state rt;
     co_extra := co_extra rt;
     memory := memory rt;
     jit_dump := jit_dump rt;
     perf_map_lines := perf_map_lines rt;
     history := history rt |}.
Definition set_eval_frame (v : eval_frame_t) (rt : runtime) : runtime :=
  {| perf_status := perf_status rt;
     extra_code_index := extra_code_index rt;
     perf_code_arena := perf_code_arena rt;
     trampoline_api := trampoline_api rt;
     persist_after_fork := persist_after_fork rt;
     perf_trampoline_type := perf_trampoline_type rt;
     eval_frame := v;
     perf_jit_map_state := perf_jit_map_state rt;
     co_extra := co_extra rt;
     memory := memory rt;
     jit_dump := jit_dump rt;
     perf_map_lines := perf_map_lines rt;
     history := history rt |}.
Definition set_perf_jit_map_state (v : PerfMapJitState) (rt : runtime) : runtime :=
  {| perf_status := perf_status rt;
     extra_code_index := extra_code_index rt;
     perf_code_arena := perf_code_arena rt;
     trampoline_api := trampoline_api rt;
     persist_after_fork := persist_after_fork rt;
     perf_trampoline_type := perf_trampoline_type rt;
     eval_frame := eval_frame rt;
     perf_jit_map_state := v;
     co_extra := co_extra rt;
     memory := memory rt;
     jit_dump := jit_dump rt;
     perf_map_lines := perf_map_lines rt;
     history := history rt |}.
Definition set_co_extra (v : Z -> Z -> Z) (rt : runtime) : runtime :=
  {| perf_status := perf_status rt;
     extra_code_index := extra_code_index rt;
     perf_code_arena := perf_code_arena rt;
     trampoline_api := trampoline_api rt;
     persist_after_fork := persist_after_fork rt;
     perf_trampoline_type := perf_trampoline_type rt;
     eval_frame := eval_frame rt;
     perf_jit_map_state := perf_jit_map_state rt;
     co_extra := v;
     memory := memory rt;
     jit_dump := jit_dump rt;
     perf_map_lines := perf_map_lines rt;
     history := history rt |}.
Definition set_memory (v : Z -> Z) (rt : runtime) : runtime :=
  {| perf_status := perf_status rt;
     extra_code_index := extra_code_index rt;
     perf_code_arena := perf_code_arena rt;
     trampoline_api := trampoline_api rt;
     persist_after_fork := persist_after_fork rt;
     perf_trampoline_type := perf_trampoline_type rt;
     eval_frame := eval_frame rt;
     perf_jit_map_state := perf_jit_map_state rt;
     co_extra := co_extra rt;
     memory := v;
     jit_dump := jit_dump rt;
     perf_map_lines := perf_map_lines rt;
     history := history rt |}.
Definition set_jit_dump (v : list Z) (rt : runtime) : runtime :=
  {| perf_status := perf_status rt;
     extra_code_index := extra_code_index rt;
     perf_code_arena := perf_code_arena rt;
     trampoline_api := trampoline_api rt;
     persist_after_fork := persist_after_fork rt;
     perf_trampoline_type := perf_trampoline_type rt;
     eval_frame := eval_frame rt;
     perf_jit_map_state := perf_jit_map_state rt;
     co_extra := co_extra rt;
     memory := memory rt;
     jit_dump := v;
     perf_map_lines := perf_map_lines rt;
     history := history rt |}.
Definition set_perf_map_lines (v : list (Z * Z * list Z)) (rt : runtime) : runtime :=
  {| perf_status := perf_status rt;
     extra_code_index := extra_code_index rt;
     perf_code_arena := perf_code_arena rt;
     trampoline_api := trampoline_api rt;
     persist_after_fork := persist_after_fork rt;
     perf_trampoline_type := perf_trampoline_type rt;
     eval_frame := eval_frame rt;
     perf_jit_map_state := perf_jit_map_state rt;
     co_extra := co_extra rt;
     memory := memory rt;
     jit_dump := jit_dump rt;
     perf_map_lines := v;
     history := history rt |}.
Definition set_history (v : list call) (rt : runtime) : runtime :=
  {| perf_status := perf_status rt;
     extra_code_index := extra_code_index rt;
     perf_code_arena := perf_code_arena rt;
     trampoline_api := trampoline_api rt;
     persist_after_fork := persist_after_fork rt;
     perf_trampoline_type := perf_trampoline_type rt;
     eval_frame := eval_frame rt;
     perf_jit_map_state := perf_jit_map_state rt;
     co_extra := co_extra rt;
     memory := memory rt;
     jit_dump := jit_dump rt;
     perf_map_lines := perf_map_lines rt;
     history := v |}.
Definition set_api_init_state (v : option sink) (rt : runtime) : runtime :=
  set_trampoline_api
    {| init_state := v;
       write_state := write_state (trampoline_api rt);
       free_state := free_state (trampoline_api rt);
       state := state (trampoline_api rt);
       code_padding := code_padding (trampoline_api rt) |} rt.
Definition set_api_write_state (v : option sink) (rt : runtime) : runtime :=
  set_trampoline_api
    {| init_state := init_state (trampoline_api rt);
       write_state := v;
       free_state := free_state (trampoline_api rt);
       state := state (trampoline_api rt);
       code_padding := code_padding (trampoline_api rt) |} rt.
Definition set_api_free_state (v : option sink) (rt : runtime) : runtime :=
  set_trampoline_api
    {| init_state := init_state (trampoline_api rt);
       write_state := write_state (trampoline_api rt);
       free_state := v;
       state := state (trampoline_api rt);
       code_padding := code_padding (trampoline_api rt) |} rt.
Definition set_api_state (v : state_ptr) (rt : runtime) : runtime :=
  set_trampoline_api
    {| init_state := init_state (trampoline_api rt);
       write_state := write_state (trampoline_api rt);
       free_state := free_state (trampoline_api rt);
       state := v;
       code_padding := code_padding (trampoline_api rt) |} rt.
Definition set_api_code_padding (v : Z) (rt : runtime) : runtime :=
  set_trampoline_api
    {| init_state := init_state (trampoline_api rt);
       write_state := write_state (trampoline_api rt);
       free_state := free_state (trampoline_api rt);
       state := state (trampoline_api rt);
       code_padding := v |} rt.
Definition set_jit_perf_map (v : FILE_ptr) (rt : runtime) : runtime :=
  set_perf_jit_map_state
    {| perf_map := v;
       map_lock := map_lock (perf_jit_map_state rt);
       mapped_buffer := mapped_buffer (perf_jit_map_state rt);
       mapped_size := mapped_size (perf_jit_map_state rt);
       code_id := code_id (perf_jit_map_state rt) |} rt.
Definition set_jit_map_lock (v : bool) (rt : runtime) : runtime :=
  set_perf_jit_map_state
    {| perf_map := perf_map (perf_jit_map_state rt);
       map_lock := v;
       mapped_buffer := mapped_buffer (perf_jit_map_state rt);
       mapped_size := mapped_size (perf_jit_map_state rt);
       code_id := code_id (perf_jit_map_state rt) |} rt.
Definition set_jit_mapped_buffer (v : Z) (rt : runtime) : runtime :=
  set_perf_jit_map_state
    {| perf_map := perf_map (perf_jit_map_state rt);
       map_lock := map_lock (perf_jit_map_state rt);
       mapped_buffer := v;
       mapped_size := mapped_size (perf_jit_map_state rt);
       code_id := code_id (perf_jit_map_state rt) |} rt.
Definition set_jit_mapped_size (v : Z) (rt : runtime) : runtime :=
  set_perf_jit_map_state
    {| perf_map := perf_map (perf_jit_map_state rt);
       map_lock := map_lock (perf_jit_map_state rt);
       mapped_buffer := mapped_buffer (perf_jit_map_state rt);
       mapped_size := v;
       code_id := code_id (perf_jit_map_state rt) |} rt.
Definition set_jit_code_id (v : Z) (rt : runtime) : runtime :=
  set_perf_jit_map_state
    {| perf_map := perf_map (perf_jit_map_state rt);
       map_lock := map_lock (perf_jit_map_state rt);
       mapped_buffer := mapped_buffer (perf_jit_map_state rt);
       mapped_size := mapped_size (perf_jit_map_state rt);
       code_id := v |} rt.

Definition record_call (c : call) (rt : runtime) : runtime :=
  set_history (history rt ++ [c]) rt.

(** ** What the operating system and the allocator answer

    One record per function that asks; the caller passes the answers the
    call is going to get. *)

Record arena_os := {
  os_mmap : option Z;        (* [None] is MAP_FAILED *)
  os_mprotect : Z;           (* 0, or -1 *)
  os_calloc : bool           (* [false]: PyMem_RawCalloc returns NULL *)
}.

Record jit_init_os := {
  os_getpid : Z;
  os_open : Z;               (* the descriptor, or -1 *)
  os_sysconf_pagesize : Z;   (* or -1 *)
  os_mmap_file : Z;          (* what mmap of the first page returns *)
  os_fdopen : bool;
  os_allocate_lock : bool;
  os_time_microseconds : Z;
  os_header_reserved : Z     (* [header.reserved] is never assigned *)
}.

Record jit_write_os := {
  wr_init : jit_init_os;     (* used when the file is opened on demand *)
  wr_malloc : bool;          (* [false]: PyMem_RawMalloc returns NULL *)
  wr_buffer : Z;             (* address of the local [buffer[1024]] *)
  wr_ticks_unwind : Z;
  wr_ticks_load : Z;
  wr_getpid : Z;
  wr_gettid : Z
}.

Record dispatch_os := {
  d_arena : arena_os;
  d_write : jit_write_os;
  d_set_extra : bool         (* [false]: _PyCode_SetExtra fails *)
}.

(** ** Jitdump sink ([perf_jit_trampoline.c]) *)

Definition PERF_JIT_CODE_PADDING : Z := 0x100.
Definition PerfLoad : Z := 0.
Definition PerfUnwindingInfo : Z := 4.
Definition DwarfUData4 : Z := 0x03.
Definition DwarfSData4 : Z := 0x0b.
Definition DwarfPcRel : Z := 0x10.
Definition DwarfDataRel : Z := 0x30.
Definition MB : Z := 1024 * 1024.

Definition sizeof_Header : Z := 40.
Definition sizeof_CodeLoadEvent : Z := 56.
Definition sizeof_CodeUnwindingInfoEvent : Z := 40.
Definition sizeof_EhFrameHeader : Z := 20.

(** Every [TARGET_ARCH_*] macro of the file is 0, the [#else] branch is
    the one compiled. *)
Definition GetElfMachineArchitecture : Z := 0.

Record Header := {
  h_magic : Z;
  h_version : Z;
  h_size : Z;
  h_elf_mach_target : Z;
  h_reserved : Z;
  h_process_id : Z;
  h_time_stamp : Z;
  h_flags : Z
}.

Definition Header_bytes (h : Header) : list Z :=
  le_bytes 4 (h_magic h) ++ le_bytes 4 (h_version h) ++
  le_bytes 4 (h_size h) ++ le_bytes 4 (h_elf_mach_target h) ++
  le_bytes 4 (h_reserved h) ++ le_bytes 4 (h_process_id h) ++
  le_bytes 8 (h_time_stamp h) ++ le_bytes 8 (h_flags h).

Record BaseEvent := {
  event : Z;
  base_size : Z;
  time_stamp : Z
}.

Definition BaseEvent_bytes (b : BaseEvent) : list Z :=
  le_bytes 4 (event b) ++ le_bytes 4 (base_size b) ++
  le_bytes 8 (time_stamp b).

Record CodeLoadEvent := {
  cl_base : BaseEvent;
  cl_process_id : Z;
  cl_thread_id : Z;
  cl_vma : Z;
  cl_code_address : Z;
  cl_code_size : Z;
  cl_code_id : Z
}.

Definition CodeLoadEvent_bytes (ev : CodeLoadEvent) : list Z :=
  BaseEvent_bytes (cl_base ev) ++
  le_bytes 4 (cl_process_id ev) ++ le_bytes 4 (cl_thread_id ev) ++
  le_bytes 8 (cl_vma ev) ++ le_bytes 8 (cl_code_address ev) ++
  le_bytes 8 (cl_code_size ev) ++ le_bytes 8 (cl_code_id ev).

Record CodeUnwindingInfoEvent := {
  ui_base : BaseEvent;
  ui_unwind_data_size : Z;
  ui_eh_frame_hdr_size : Z;
  ui_mapped_size : Z
}.

Definition CodeUnwindingInfoEvent_bytes (ev : CodeUnwindingInfoEvent)
  : list Z :=
  BaseEvent_bytes (ui_base ev) ++
  le_bytes 8 (ui_unwind_data_size ev) ++
  le_bytes 8 (ui_eh_frame_hdr_size ev) ++
  le_bytes 8 (ui_mapped_size ev).

Record EhFrameHeader := {
  eh_version : Z;
  eh_frame_ptr_enc : Z;
  eh_fde_count_enc : Z;
  eh_table_enc : Z;
  eh_frame_ptr : Z;
  eh_fde_count : Z;
  eh_from : Z;
  eh_to : Z
}.

Definition EhFrameHeader_bytes (f : EhFrameHeader) : list Z :=
  le_bytes 1 (eh_version f) ++ le_bytes 1 (eh_frame_ptr_enc f) ++
  le_bytes 1 (eh_fde_count_enc f) ++ le_bytes 1 (eh_table_enc f) ++
  le_bytes 4 (eh_frame_ptr f) ++ le_bytes 4 (eh_fde_count f) ++
  le_bytes 4 (eh_from f) ++ le_bytes 4 (eh_to f).

(** [perf_map_jit_write_fully]: the loop hands the buffer to [fwrite]
    until nothing is left ([fwrite] returning 0 is the source's
    UNREACHABLE); the bytes end up appended to the dump. *)
Definition perf_map_jit_write_fully (buffer : list Z) (rt : runtime)
  : outcome runtime :=
  match buffer with
  | [] => Done rt
  | _ =>
      match perf_map (perf_jit_map_state rt) with
      | FILE_NULL => Fault NullDereference
      | FILE_closed => Fault StreamClosed
      | FILE_open => Done (set_jit_dump (jit_dump rt ++ buffer) rt)
      end
  end.

Definition perf_map_jit_write_header (os : jit_init_os) (pid : Z)
    (rt : runtime) : outcome runtime :=
  let header :=
    {| h_magic := 0x4A695444;
       h_version := 1;
       h_size := sizeof_Header;
       h_elf_mach_target := GetElfMachineArchitecture;
       h_reserved := os_header_reserved os;
       h_process_id := pid;
       h_time_stamp := os_time_microseconds os;
       h_flags := 0 |} in
  perf_map_jit_write_fully (Header_bytes header) rt.

(** [perf_map_jit_init]; [open] is given O_TRUNC, so a dump that is
    opened starts empty. *)
Definition perf_map_jit_init (os : jit_init_os) (rt : runtime)
  : outcome (state_ptr * runtime) :=
  let pid := os_getpid os in
  let fd := os_open os in
  if fd =? -1 then Done (state_NULL, rt) else
  let rt := set_jit_dump [] rt in
  let page_size := os_sysconf_pagesize os in
  if page_size =? -1 then Done (state_NULL, rt) else
  let rt := set_jit_mapped_buffer (os_mmap_file os) rt in
  if mapped_buffer (perf_jit_map_state rt) =? NULL then
    Done (state_NULL, rt)
  else
  let rt := set_jit_mapped_size page_size rt in
  let rt := set_jit_perf_map
              (if os_fdopen os then FILE_open else FILE_NULL) rt in
  match perf_map (perf_jit_map_state rt) with
  | FILE_NULL => Done (state_NULL, rt)
  | _ =>
      rt <- perf_map_jit_write_header os pid rt ;;
      let rt := set_jit_map_lock (os_allocate_lock os) rt in
      if negb (map_lock (perf_jit_map_state rt)) then
        Done (state_NULL, set_jit_perf_map FILE_closed rt)
      else
      let rt := set_jit_code_id 0 rt in
      let rt := set_api_code_padding PERF_JIT_CODE_PADDING rt in
      Done (state_jit, rt)
  end.

(** [PyUnicode_AsUTF8] on a field of the code object that may be NULL:
    the bytes of the text, or the empty string. *)
Definition utf8_or_empty (o : option string) : list Z :=
  match o with
  | Some str => bytes_of_string str
  | None => []
  end.

(** [snprintf(..., "py::%s:%s", entry, filename)]. *)
Definition perf_map_entry_of (co : PyCodeObject) : list Z :=
  let entry := utf8_or_empty (co_qualname co) in
  let filename := utf8_or_empty (co_filename co) in
  bytes_of_string "py::" ++ c_str entry ++ bytes_of_string ":"
    ++ c_str filename.

Definition read_memory (mem : Z -> Z) (base size : Z) : list Z :=
  map (fun i => mem (base + Z.of_nat i)) (seq 0 (Z.to_nat size)).

Definition padding_bytes : list Z := repeat 0 9.

Section Build.

(** Fixed when the interpreter is built: the bytes between
    [_Py_trampoline_func_start] and [_Py_trampoline_func_end], and the
    target of the [#ifdef]s of the DWARF emitter. *)
Variable trampoline_template : list Z.
Variable arch : target_arch.

(** The unwinding record of one stub: what the first half of
    [perf_map_jit_write_entry] computes before it writes. *)
Record unwind_parts := {
  up_ev2 : CodeUnwindingInfoEvent;
  up_eh_frame : list Z;
  up_f : EhFrameHeader;
  up_padding_size : Z
}.

Definition unwinding_info (os : jit_write_os) (code_size : Z)
  : unwind_parts :=
  let ctx :=
    elf_init_ehframe arch
      {| ctx_startp := wr_buffer os;
         ctx_written := [];
         ctx_eh_frame_p := 0;
         ctx_code_size := to_uint32 code_size |} in
  let eh_frame_size := to_int32 (ctx_p ctx - ctx_startp ctx) in
  let unwind_data_size := to_uint64 (sizeof_EhFrameHeader + eh_frame_size) in
  let content_size :=
    to_int32 (sizeof_CodeUnwindingInfoEvent + sizeof_EhFrameHeader
              + eh_frame_size) in
  let padding_size := to_int32 (round_up content_size 8 - content_size) in
  let ev2 :=
    {| ui_base :=
         {| event := PerfUnwindingInfo;
            base_size := to_uint32 (content_size + padding_size);
            time_stamp := wr_ticks_unwind os |};
       ui_unwind_data_size := unwind_data_size;
       ui_eh_frame_hdr_size := sizeof_EhFrameHeader;
       ui_mapped_size := round_up (to_int64 unwind_data_size) 16 |} in
  let cie_size := to_int32 (ctx_eh_frame_p ctx - ctx_startp ctx) in
  let f :=
    {| eh_version := 1;
       eh_frame_ptr_enc := Z.lor DwarfSData4 DwarfPcRel;
       eh_fde_count_enc := DwarfUData4;
       eh_table_enc := Z.lor DwarfSData4 DwarfDataRel;
       eh_frame_ptr := to_int32 (- (eh_frame_size + 4 * 1));
       eh_fde_count := 1;
       eh_from := to_int32 (- (round_up code_size 8 + eh_frame_size));
       eh_to := to_int32 (- (eh_frame_size - cie_size)) |} in
  {| up_ev2 := ev2;
     up_eh_frame := firstn (Z.to_nat eh_frame_size) (ctx_written ctx);
     up_f := f;
     up_padding_size := padding_size |}.

(** The bytes of the unwinding record, in the order of the four
    [perf_map_jit_write_fully] calls. *)
Definition unwinding_record (os : jit_write_os) (code_size : Z)
  : list (list Z) :=
  let up := unwinding_info os code_size in
  [ CodeUnwindingInfoEvent_bytes (up_ev2 up);
    up_eh_frame up;
    EhFrameHeader_bytes (up_f up);
    firstn (Z.to_nat (up_padding_size up)) padding_bytes ].

Definition code_load_event (os : jit_write_os) (code_addr code_size : Z)
    (name_length : Z) (id : Z) : CodeLoadEvent :=
  let base := to_uint64 code_addr in
  let size := to_uint64 code_size in
  {| cl_base :=
       {| event := PerfLoad;
          base_size :=
            to_uint32 (sizeof_CodeLoadEvent + (name_length + 1) + size);
          time_stamp := wr_ticks_load os |};
     cl_process_id := to_uint32 (wr_getpid os);
     cl_thread_id := to_uint32 (wr_gettid os);
     cl_vma := base;
     cl_code_address := base;
     cl_code_size := size;
     cl_code_id := to_uint64 id |}.

(** The bytes of the code-load record, in the order of the three
    writes: the event, the name with its NUL, the stub's own bytes. *)
Definition code_load_record (os : jit_write_os) (code_addr code_size : Z)
    (perf_map_entry : list Z) (id : Z) (mem : Z -> Z) : list (list Z) :=
  let name_length := strlen perf_map_entry in
  [ CodeLoadEvent_bytes
      (code_load_event os code_addr code_size name_length id);
    firstn (Z.to_nat (name_length + 1)) (perf_map_entry ++ [0]);
    read_memory mem (to_uint64 code_addr) (to_uint64 code_size) ].

Fixpoint write_all (buffers : list (list Z)) (rt : runtime)
  : outcome runtime :=
  match buffers with
  | [] => Done rt
  | b :: rest => rt <- perf_map_jit_write_fully b rt ;; write_all rest rt
  end.

(** [perf_map_jit_write_entry], from the allocation of [perf_map_entry]
    on. *)
Definition jit_write_records (os : jit_write_os) (code_addr code_size : Z)
    (co : PyCodeObject) (rt : runtime) : outcome runtime :=
  if negb (wr_malloc os) then Done rt else
  let perf_map_entry := perf_map_entry_of co in
  rt <- write_all (unwinding_record os code_size) rt ;;
  let rt :=
    set_jit_code_id (to_int32 (code_id (perf_jit_map_state rt) + 1)) rt in
  write_all
    (code_load_record os code_addr code_size perf_map_entry
       (code_id (perf_jit_map_state rt)) (memory rt)) rt.

Definition perf_map_jit_write_entry (os : jit_write_os)
    (code_addr code_size : Z) (co : PyCodeObject) (rt : runtime)
  : outcome runtime :=
  match perf_map (perf_jit_map_state rt) with
  | FILE_NULL =>
      '(ret, rt) <- perf_map_jit_init (wr_init os) rt ;;
      match ret with
      | state_NULL => Done rt
      | state_jit => jit_write_records os code_addr code_size co rt
      end
  | _ => jit_write_records os code_addr code_size co rt
  end.

(** [perf_map_jit_fini]: closing takes the lock that the failed end of
    [perf_map_jit_init] left unallocated, on a stream already closed;
    the [munmap] of the first page changes nothing modelled here. *)
Definition perf_map_jit_fini (rt : runtime) : outcome (Z * runtime) :=
  rt <- match perf_map (perf_jit_map_state rt) with
        | FILE_NULL => Done rt
        | FILE_closed => Fault StreamClosed
        | FILE_open =>
            Done (set_jit_perf_map FILE_NULL (set_jit_map_lock false rt))
        end ;;
  Done (0, set_api_state state_NULL rt).

(** ** Perf-map sink ([perf_trampoline.c]) *)

(** Modelled from the spec: [PyUnstable_WritePerfMapEntry] is the text
    writer of [/tmp/perf-PID.map], a collaborator outside these sources;
    it appends one line made of the address, the size and the name.
    [PyUnstable_PerfMapState_Init] and [PyUnstable_PerfMapState_Fini]
    open and close that file and touch nothing modelled here. *)
Definition PyUnstable_WritePerfMapEntry (code_addr code_size : Z)
    (entry_name : list Z) (rt : runtime) : runtime :=
  set_perf_map_lines
    (perf_map_lines rt ++ [(code_addr, code_size, entry_name)]) rt.

Definition perf_map_write_entry (os : jit_write_os)
    (code_addr code_size : Z) (co : PyCodeObject) (rt : runtime)
  : runtime :=
  if negb (wr_malloc os) then rt else
  PyUnstable_WritePerfMapEntry code_addr code_size (perf_map_entry_of co) rt.

Definition perf_map_init_state (rt : runtime) : state_ptr * runtime :=
  let rt := set_api_code_padding 0 rt in
  let rt := set_perf_trampoline_type PERF_TRAMPOLINE_TYPE_MAP rt in
  (state_NULL, rt).

Definition perf_map_free_state (rt : runtime) : Z * runtime := (0, rt).

(** ** Calls through the pointers of [trampoline_api] *)

Definition call_init (os : jit_init_os) (rt : runtime)
  : outcome (state_ptr * runtime) :=
  match init_state (trampoline_api rt) with
  | None => Fault NullCall
  | Some perfmap_sink =>
      Done (perf_map_init_state
              (record_call (call_init_state perfmap_sink) rt))
  | Some jitdump_sink =>
      perf_map_jit_init os (record_call (call_init_state jitdump_sink) rt)
  end.

Definition call_write (os : jit_write_os) (code_addr code_size : Z)
    (co : PyCodeObject) (rt : runtime) : outcome runtime :=
  let code_size := to_uint32 code_size in
  match write_state (trampoline_api rt) with
  | None => Fault NullCall
  | Some perfmap_sink =>
      Done (perf_map_write_entry os code_addr code_size co
              (record_call
                 (call_write_state perfmap_sink code_addr code_size
                    (co_addr co)) rt))
  | Some jitdump_sink =>
      perf_map_jit_write_entry os code_addr code_size co
        (record_call
           (call_write_state jitdump_sink code_addr code_size (co_addr co))
           rt)
  end.

Definition call_free (rt : runtime) : outcome (Z * runtime) :=
  match free_state (trampoline_api rt) with
  | None => Fault NullCall
  | Some perfmap_sink =>
      Done (perf_map_free_state
              (record_call (call_free_state perfmap_sink) rt))
  | Some jitdump_sink =>
      perf_map_jit_fini (record_call (call_free_state jitdump_sink) rt)
  end.

(** ** Code arenas *)

Definition mem_size : Z := 4096 * 16.

(** [end - start] of the template. *)
Definition template_code_size : Z := zlength trampoline_template.

(** [round_up(code_size + trampoline_api.code_padding, 16)]: the sum is
    a [size_t], handed over as [int64_t]. *)
Definition chunk_size_of (code_size padding : Z) : Z :=
  round_up (to_int64 (to_size_t (code_size + padding))) 16.

Definition mmap_anonymous (mem : Z -> Z) (addr len : Z) : Z -> Z :=
  fun a => if (addr <=? a) && (a <? addr + len) then 0 else mem a.

Definition memcpy (mem : Z -> Z) (dst : Z) (src : list Z) : Z -> Z :=
  fun a =>
    if (dst <=? a) && (a <? dst + zlength src)
    then nth (Z.to_nat (a - dst)) src 0
    else mem a.

(** [new_code_arena].  The [assert] on the page size and the error
    indicator ([PyErr_SetFromErrno], [PyErr_FormatUnraisable]) leave no
    trace in the state modelled here; the instruction cache invalidation
    of ARM targets has none either. *)
Definition new_code_arena (os : arena_os) (rt : runtime)
  : outcome (Z * runtime) :=
  let rt := record_call (call_mmap (os_mmap os)) rt in
  match os_mmap os with
  | None => Done (-1, set_perf_status PERF_STATUS_FAILED rt)
  | Some memory_ =>
      let rt := set_memory (mmap_anonymous (memory rt) memory_ mem_size) rt in
      let code_size := template_code_size in
      let chunk_size :=
        chunk_size_of code_size (code_padding (trampoline_api rt)) in
      if chunk_size =? 0 then Fault DivisionByZero else
      let n_copies := mem_size / chunk_size in
      let rt :=
        set_memory
          (fold_left
             (fun mem i =>
                memcpy mem (memory_ + Z.of_nat i * chunk_size)
                  trampoline_template)
             (seq 0 (Z.to_nat n_copies)) (memory rt)) rt in
      if os_mprotect os =? -1 then
        Done (-1, record_call (call_munmap memory_) rt)
      else if negb (os_calloc os) then
        Done (-1, record_call (call_munmap memory_) rt)
      else
        let new_arena :=
          {| start_addr := memory_;
             current_addr := memory_;
             size := mem_size;
             size_left := mem_size;
             code_size := code_size |} in
        Done (0, set_perf_code_arena (new_arena :: perf_code_arena rt) rt)
  end.

Definition free_code_arenas (rt : runtime) : runtime :=
  let cur := perf_code_arena rt in
  let rt := set_perf_code_arena [] rt in
  fold_left (fun rt a => record_call (call_munmap (start_addr a)) rt) cur rt.

Definition code_arena_new_code (padding : Z) (code_arena : code_arena_t)
  : Z * code_arena_t :=
  let trampoline := current_addr code_arena in
  let total_code_size := chunk_size_of (code_size code_arena) padding in
  (trampoline,
   {| start_addr := start_addr code_arena;
      current_addr := current_addr code_arena + total_code_size;
      size := size code_arena;
      size_left := to_size_t (size_left code_arena - total_code_size);
      code_size := code_size code_arena |}).

Definition is_NULL_arena (l : list code_arena_t) : bool :=
  match l with [] => true | _ => false end.

(** [compile_trampoline]: the first statement reads
    [perf_code_arena->code_size], before the test for NULL.  The
    [assert] before the return is compiled out of release builds and is
    not part of the function here. *)
Definition compile_trampoline (os : arena_os) (rt : runtime)
  : outcome (Z * runtime) :=
  match perf_code_arena rt with
  | [] => Fault NullDereference
  | head :: _ =>
      let total_code_size :=
        chunk_size_of (code_size head) (code_padding (trampoline_api rt)) in
      '(new_failed, rt) <-
        (if is_NULL_arena (perf_code_arena rt)
            || (size_left head <=? total_code_size)
         then '(res, rt) <- new_code_arena os rt ;; Done (res <? 0, rt)
         else Done (false, rt)) ;;
      if new_failed : bool then Done (NULL, rt) else
      match perf_code_arena rt with
      | [] => Fault NullDereference
      | head :: prev =>
          let '(trampoline, head) :=
            code_arena_new_code (code_padding (trampoline_api rt)) head in
          Done (trampoline, set_perf_code_arena (head :: prev) rt)
      end
  end.

(** ** Dispatch *)

(** The interpreter's evaluator, a collaborator outside these sources:
    a frame goes in, a result comes out. *)
Variable _PyEval_EvalFrameDefault : Z -> _PyInterpreterFrame -> Z -> Z.

Definition _PyFrame_GetCode (frame : _PyInterpreterFrame) : PyCodeObject :=
  f_code frame.

(** Modelled from the spec: the host's get and set of the extra slot of
    a code object ([_PyCode_GetExtra] and [_PyCode_SetExtra] are in
    Objects/codeobject.c, outside these sources): a plain pointer per
    code object and index; the set can fail and then stores nothing. *)
Definition _PyCode_GetExtra (co : PyCodeObject) (index : Z) (rt : runtime)
  : Z * Z :=
  (0, co_extra rt (co_addr co) index).

Definition _PyCode_SetExtra (ok : bool) (co : PyCodeObject) (index : Z)
    (extra : Z) (rt : runtime) : Z * runtime :=
  if ok then
    (0, set_co_extra
          (fun c i =>
             if (c =? co_addr co) && (i =? index) then extra
             else co_extra rt c i) rt)
  else (-1, rt).

(** Modelled from the spec: the stub template (Objects/asm_trampoline.S,
    outside these sources) tail-calls its fourth argument with the first
    three forwarded. *)
Definition run_stub (f : Z) (ts : Z) (frame : _PyInterpreterFrame)
    (throw : Z) (evaluator : Z -> _PyInterpreterFrame -> Z -> Z)
    (rt : runtime) : Z * runtime :=
  (evaluator ts frame throw,
   record_call (call_stub f (co_addr (f_code frame))) rt).

Definition py_trampoline_evaluator (os : dispatch_os) (ts : Z)
    (frame : _PyInterpreterFrame) (throw : Z) (rt : runtime)
  : outcome (Z * runtime) :=
  let default_eval rt := Done (_PyEval_EvalFrameDefault ts frame throw, rt) in
  match perf_status rt with
  | PERF_STATUS_FAILED | PERF_STATUS_NO_INIT => default_eval rt
  | PERF_STATUS_OK =>
      let co := _PyFrame_GetCode frame in
      let '(ret, f) := _PyCode_GetExtra co (extra_code_index rt) rt in
      if negb (ret =? 0) || (f =? NULL) then
        '(new_trampoline, rt) <- compile_trampoline (d_arena os) rt ;;
        if new_trampoline =? NULL then default_eval rt else
        match perf_code_arena rt with
        | [] => Fault NullDereference
        | head :: _ =>
            rt <- call_write (d_write os) new_trampoline (code_size head)
                    co rt ;;
            let '(_, rt) :=
              _PyCode_SetExtra (d_set_extra os) co (extra_code_index rt)
                new_trampoline rt in
            let f := new_trampoline in
            Done (run_stub f ts frame throw _PyEval_EvalFrameDefault rt)
        end
      else
        Done (run_stub f ts frame throw _PyEval_EvalFrameDefault rt)
  end.

Definition PyUnstable_PerfTrampoline_CompileCode (os : dispatch_os)
    (co : PyCodeObject) (rt : runtime) : outcome (Z * runtime) :=
  let '(ret, f) := _PyCode_GetExtra co (extra_code_index rt) rt in
  if negb (ret =? 0) || (f =? NULL) then
    '(new_trampoline, rt) <- compile_trampoline (d_arena os) rt ;;
    if new_trampoline =? NULL then Done (0, rt) else
    match perf_code_arena rt with
    | [] => Fault NullDereference
    | head :: _ =>
        rt <- call_write (d_write os) new_trampoline (code_size head)
                co rt ;;
        Done (_PyCode_SetExtra (d_set_extra os) co (extra_code_index rt)
                new_trampoline rt)
    end
  else Done (0, rt).

(** ** Lifecycle *)

Definition is_py_trampoline_evaluator (f : eval_frame_t) : bool :=
  match f with eval_py_trampoline_evaluator => true | _ => false end.

Definition is_eval_NULL (f : eval_frame_t) : bool :=
  match f with eval_NULL => true | _ => false end.

Definition is_state_NULL (p : state_ptr) : bool :=
  match p with state_NULL => true | _ => false end.

Definition is_TYPE_MAP (t : perf_trampoline_type_t) : bool :=
  match t with PERF_TRAMPOLINE_TYPE_MAP => true | _ => false end.

Definition _PyIsPerfTrampolineActive (rt : runtime) : Z :=
  if is_py_trampoline_evaluator (eval_frame rt) then 1 else 0.

(** Modelled from the spec: installing or replacing the evaluator hook
    of the interpreter (Python/pystate.c, outside these sources). *)
Definition _PyInterpreterState_SetEvalFrameFunc (f : eval_frame_t)
    (rt : runtime) : runtime :=
  set_eval_frame f rt.

Definition _PyPerfTrampoline_Fini (rt : runtime) : outcome (Z * runtime) :=
  match perf_status rt with
  | PERF_STATUS_OK =>
      let rt :=
        if is_py_trampoline_evaluator (eval_frame rt)
        then _PyInterpreterState_SetEvalFrameFunc eval_NULL rt
        else rt in
      (* [perf_status == PERF_STATUS_OK] holds here *)
      '(_, rt) <- call_free rt ;;
      let rt := set_perf_trampoline_type PERF_TRAMPOLINE_UNSET rt in
      let rt := set_extra_code_index (-1) rt in
      let rt := set_perf_status PERF_STATUS_NO_INIT rt in
      Done (0, rt)
  | _ => Done (0, rt)
  end.

Definition _PyPerfTrampoline_SetCallbacks (callbacks : option sink)
    (rt : runtime) : outcome (Z * runtime) :=
  match callbacks with
  | None => Done (-1, rt)
  | Some cb =>
      rt <- (if is_state_NULL (state (trampoline_api rt)) then Done rt
             else '(_, rt) <- _PyPerfTrampoline_Fini rt ;; Done rt) ;;
      let rt := set_api_init_state (Some cb) rt in
      let rt := set_api_write_state (Some cb) rt in
      let rt := set_api_free_state (Some cb) rt in
      let rt := set_api_state state_NULL rt in
      Done (0, rt)
  end.

Record init_os := {
  i_arena : arena_os;
  i_extra_index : Z;         (* _PyEval_RequestCodeExtraIndex, or -1 *)
  i_sink : jit_init_os
}.

Definition _PyPerfTrampoline_Init (os : init_os) (activate : Z)
    (rt : runtime) : outcome (Z * runtime) :=
  if negb (is_eval_NULL (eval_frame rt))
     && negb (is_py_trampoline_evaluator (eval_frame rt))
  then Done (-1, rt)
  else if activate =? 0 then
    let rt := _PyInterpreterState_SetEvalFrameFunc eval_NULL rt in
    Done (0, set_perf_status PERF_STATUS_NO_INIT rt)
  else
    let rt :=
      _PyInterpreterState_SetEvalFrameFunc eval_py_trampoline_evaluator rt in
    '(res, rt) <- new_code_arena (i_arena os) rt ;;
    if res <? 0 then Done (-1, rt) else
    let rt := set_extra_code_index (i_extra_index os) rt in
    if extra_code_index rt =? -1 then Done (-1, rt) else
    rt <- (if is_state_NULL (state (trampoline_api rt))
              && match init_state (trampoline_api rt) with
                 | Some _ => true
                 | None => false
                 end
           then '(p, rt) <- call_init (i_sink os) rt ;;
                Done (set_api_state p rt)
           else Done rt) ;;
    Done (0, set_perf_status PERF_STATUS_OK rt).

Definition _PyPerfTrampoline_FreeArenas (rt : runtime) : runtime :=
  free_code_arenas rt.

Definition PyUnstable_PerfTrampoline_SetPersistAfterFork (enable : Z)
    (rt : runtime) : Z * runtime :=
  let rt := set_persist_after_fork enable rt in
  (persist_after_fork rt, rt).

Inductive PyStatus :=
| PyStatus_Ok
| PyStatus_Error (err_msg : string).

Record fork_os := {
  fk_copy_perf_map_file : Z;   (* PyUnstable_CopyPerfMapFile: 0, or not *)
  fk_init : init_os
}.

Definition _PyPerfTrampoline_AfterFork_Child (os : fork_os) (rt : runtime)
  : outcome (PyStatus * runtime) :=
  if negb (persist_after_fork rt =? 0) then
    if negb (is_TYPE_MAP (perf_trampoline_type rt)) then
      Done (PyStatus_Error
              "Failed to copy perf map file as perf trampoline type is not type map.",
            rt)
    else
      '(_, rt) <- _PyPerfTrampoline_Fini rt ;;
      if negb (fk_copy_perf_map_file os =? 0) then
        Done (PyStatus_Error "Failed to copy perf map file.", rt)
      else Done (PyStatus_Ok, rt)
  else
    let was_active := _PyIsPerfTrampolineActive rt in
    '(_, rt) <- _PyPerfTrampoline_Fini rt ;;
    rt <- (if negb (was_active =? 0)
           then '(_, rt) <- _PyPerfTrampoline_Init (fk_init os) 1 rt ;;
                Done rt
           else Done rt) ;;
    Done (PyStatus_Ok, rt).

(** ** Sequences of calls *)

Record dispatch_call := {
  dc_os : dispatch_os;
  dc_ts : Z;
  dc_frame : _PyInterpreterFrame;
  dc_throw : Z
}.

(** Frames evaluated one after the other; the results come out in the
    order of the calls. *)
Fixpoint run_dispatches (calls : list dispatch_call) (rt : runtime)
  : outcome (list Z * runtime) :=
  match calls with
  | [] => Done ([], rt)
  | c :: rest =>
      '(v, rt) <- py_trampoline_evaluator (dc_os c) (dc_ts c) (dc_frame c)
                    (dc_throw c) rt ;;
      '(vs, rt) <- run_dispatches rest rt ;;
      Done (v :: vs, rt)
  end.

Record write_call := {
  wc_os : jit_write_os;
  wc_code_addr : Z;
  wc_code_size : Z;
  wc_co : PyCodeObject
}.

Fixpoint run_writes (ws : list write_call) (rt : runtime) : outcome runtime :=
  match ws with
  | [] => Done rt
  | w :: rest =>
      rt <- perf_map_jit_write_entry (wc_os w) (wc_code_addr w)
              (wc_code_size w) (wc_co w) rt ;;
      run_writes rest rt
  end.

(** Stubs acquired one after the other, the addresses in order; a NULL
    ends the sequence. *)
Fixpoint acquire_slots (oss : list arena_os) (rt : runtime)
  : outcome (list Z * runtime) :=
  match oss with
  | [] => Done ([], rt)
  | os :: rest =>
      '(p, rt) <- compile_trampoline os rt ;;
      if p =? NULL then Done ([p], rt) else
      '(ps, rt) <- acquire_slots rest rt ;;
      Done (p :: ps, rt)
  end.

End Build.

(** ** Reading the history *)

(** The addresses the sink was told for the code object [c]. *)
Definition write_addrs_of (c : Z) (h : list call) : list Z :=
  flat_map
    (fun e =>
       match e with
       | call_write_state _ a _ c' => if c' =? c then [a] else []
       | _ => []
       end) h.

(** The stub addresses called for frames of the code object [c]. *)
Definition stub_addrs_of (c : Z) (h : list call) : list Z :=
  flat_map
    (fun e =>
       match e with
       | call_stub f c' => if c' =? c then [f] else []
       | _ => []
       end) h.

Definition is_write_call (e : call) : bool :=
  match e with call_write_state _ _ _ _ => true | _ => false end.

Definition is_mmap_call (e : call) : bool :=
  match e with call_mmap _ => true | _ => false end.

(** The slot of every code object agrees with what the history says
    about it: the sink heard of no address while the slot is NULL and
    of exactly the stored one afterwards, and no stub other than the
    stored one was ever called for the code object. *)
Definition slots_consistent (rt : runtime) : Prop :=
  forall c,
    let slot := co_extra rt c (extra_code_index rt) in
    write_addrs_of c (history rt) = (if slot =? NULL then [] else [slot])
    /\ (forall f, In f (stub_addrs_of c (history rt)) ->
                  f = slot /\ f <> NULL).

(** The number of dispatches of the code object [c] among [calls]. *)
Definition dispatches_of (c : Z) (calls : list dispatch_call) : nat :=
  List.length
    (filter (fun d => co_addr (_PyFrame_GetCode (dc_frame d)) =? c) calls).

(** ** The reader's side of a jitdump file

    After the record framing of the format: every record starts with
    its kind (4 bytes) and its inclusive size (4 bytes); the file header
    gives its own size in its third field; a code-load record has its
    [code_id] at offset 48. *)

Fixpoint le_value (bs : list Z) : Z :=
  match bs with
  | [] => 0
  | b :: rest => b + 256 * le_value rest
  end.

Definition field (off len : nat) (bs : list Z) : Z :=
  le_value (firstn len (skipn off bs)).

Fixpoint jitdump_records (fuel : nat) (bs : list Z) : list (list Z) :=
  match fuel with
  | O => []
  | S fuel' =>
      match bs with
      | [] => []
      | _ =>
          let n := Z.to_nat (field 4 4 bs) in
          if (n <? 16)%nat || (List.length bs <? n)%nat then [bs]
          else firstn n bs :: jitdump_records fuel' (skipn n bs)
      end
  end.

Definition jitdump_parse (dump : list Z) : list (list Z) :=
  jitdump_records (List.length dump)
    (skipn (Z.to_nat (field 8 4 dump)) dump).

Definition record_kind (r : list Z) : Z := field 0 4 r.
Definition record_size (r : list Z) : Z := field 4 4 r.
Definition record_code_id (r : list Z) : Z := field 48 8 r.

Definition code_ids (dump : list Z) : list Z :=
  map record_code_id
    (filter (fun r => record_kind r =? PerfLoad) (jitdump_parse dump)).

(** ** Concrete inputs used by the examples *)

Definition nop_template (n : nat) : list Z := repeat 0x90 n.

Definition eval_stub (ts : Z) (frame : _PyInterpreterFrame) (throw : Z) : Z :=
  co_addr (f_code frame) + 1000.

Definition fresh_runtime (cb : option sink) : runtime :=
  {| perf_status := PERF_STATUS_NO_INIT;
     extra_code_index := -1;
     perf_code_arena := [];
     trampoline_api :=
       {| init_state := cb; write_state := cb; free_state := cb;
          state := state_NULL; code_padding := 0 |};
     persist_after_fork := 0;
     perf_trampoline_type := PERF_TRAMPOLINE_UNSET;
     eval_frame := eval_NULL;
     perf_jit_map_state :=
       {| perf_map := FILE_NULL; map_lock := false; mapped_buffer := 0;
          mapped_size := 0; code_id := 0 |};
     co_extra := fun _ _ => NULL;
     memory := fun _ => 0;
     jit_dump := [];
     perf_map_lines := [];
     history := [] |}.

Definition arena_ok (addr : Z) : arena_os :=
  {| os_mmap := Some addr; os_mprotect := 0; os_calloc := true |}.
Definition arena_mmap_fails : arena_os :=
  {| os_mmap := None; os_mprotect := 0; os_calloc := true |}.
Definition arena_mprotect_fails (addr : Z) : arena_os :=
  {| os_mmap := Some addr; os_mprotect := -1; os_calloc := true |}.
Definition arena_calloc_fails (addr : Z) : arena_os :=
  {| os_mmap := Some addr; os_mprotect := 0; os_calloc := false |}.

Definition jit_init_ok : jit_init_os :=
  {| os_getpid := 4242; os_open := 3; os_sysconf_pagesize := 4096;
     os_mmap_file := 0x7f0000000000; os_fdopen := true;
     os_allocate_lock := true; os_time_microseconds := 1700000000000000;
     os_header_reserved := 0 |}.

Definition jit_write_ok : jit_write_os :=
  {| wr_init := jit_init_ok; wr_malloc := true; wr_buffer := 0x7ffc00001000;
     wr_ticks_unwind := 1000; wr_ticks_load := 1001;
     wr_getpid := 4242; wr_gettid := 4243 |}.

Definition dispatch_with (a : arena_os) : dispatch_os :=
  {| d_arena := a; d_write := jit_write_ok; d_set_extra := true |}.

Definition init_with (a : arena_os) : init_os :=
  {| i_arena := a; i_extra_index := 0; i_sink := jit_init_ok |}.

Definition fork_with (a : arena_os) : fork_os :=
  {| fk_copy_perf_map_file := 0; fk_init := init_with a |}.

Definition code_f : PyCodeObject :=
  {| co_addr := 0x5000; co_qualname := Some "f"%string;
     co_filename := Some "a.py"%string |}.
Definition code_g : PyCodeObject :=
  {| co_addr := 0x6000; co_qualname := Some "g"%string;
     co_filename := Some "a.py"%string |}.
Definition code_anonymous : PyCodeObject :=
  {| co_addr := 0x7000; co_qualname := None; co_filename := None |}.

Definition frame_of (co : PyCodeObject) : _PyInterpreterFrame :=
  {| f_code := co |}.

Definition dispatch_of (a : arena_os) (co : PyCodeObject) : dispatch_call :=
  {| dc_os := dispatch_with a; dc_ts := 1; dc_frame := frame_of co;
     dc_throw := 0 |}.

Definition write_of (addr : Z) (co : PyCodeObject) : write_call :=
  {| wc_os := jit_write_ok; wc_code_addr := addr; wc_code_size := 96;
     wc_co := co |}.

(** A runtime brought up by [_PyPerfTrampoline_Init(1)] with the given
    callbacks, over a template of [n] bytes and a first arena at
    [0x10000]. *)
Definition started (n : nat) (cb : option sink) : outcome (Z * runtime) :=
  _PyPerfTrampoline_Init (nop_template n) (init_with (arena_ok 0x10000)) 1
    (fresh_runtime cb).

Definition runtime_of (o : outcome (Z * runtime)) (default : runtime)
  : runtime :=
  match o with
  | Done (_, rt) => rt
  | Fault _ => default
  end.

(** ** Views of results, for statements about concrete runs *)

Definition is_done {A : Type} (o : outcome A) : bool :=
  match o with Done _ => true | Fault _ => false end.

Definition result_of {A : Type} (o : outcome A) (default : A) : A :=
  match o with Done a => a | Fault _ => default end.

Definition arena_view (rt : runtime) : list (Z * Z * Z) :=
  map (fun a => (start_addr a, current_addr a, size_left a))
    (perf_code_arena rt).

(** Addresses handed out, the arenas, the mappings asked for. *)
Definition slots_view (o : outcome (list Z * runtime)) :=
  match o with
  | Done (ps, rt) => Some (ps, arena_view rt, filter is_mmap_call (history rt))
  | Fault _ => None
  end.

(** Result of a dispatch, the status after it, the number of arenas and
    the sink writes so far. *)
Definition dispatch_view (o : outcome (Z * runtime)) :=
  match o with
  | Done (v, rt) =>
      Some (v, perf_status rt, List.length (perf_code_arena rt),
            filter is_write_call (history rt))
  | Fault _ => None
  end.

Definition run_view (c : Z) (o : outcome (list Z * runtime)) :=
  match o with
  | Done (vs, rt) =>
      Some (vs, filter is_write_call (history rt),
            stub_addrs_of c (history rt))
  | Fault _ => None
  end.

Definition default_runtime : runtime := fresh_runtime None.

(** The runtime after [Init(1)] over a 96-byte template, perf-map sink. *)
Definition started_perfmap : runtime :=
  runtime_of (started 96 (Some perfmap_sink)) default_runtime.

(** The same after 682 stubs of 96 bytes: 64 bytes are left in the
    arena, fewer than one more stub takes. *)
Definition exhausted : runtime :=
  snd (result_of
         (acquire_slots (nop_template 96) (repeat (arena_ok 0x20000) 682)
            started_perfmap)
         ([], default_runtime)).

Definition three_calls : list dispatch_call :=
  [ dispatch_of (arena_ok 0x20000) code_f;
    dispatch_of (arena_ok 0x20000) code_g;
    dispatch_of (arena_ok 0x20000) code_f;
    dispatch_of (arena_ok 0x20000) code_f ].



Definition os_ok : dispatch_os := dispatch_with (arena_ok 0x20000).
Definition os_mmap_fails : dispatch_os := dispatch_with arena_mmap_fails.
Definition os_mprotect_fails : dispatch_os :=
  dispatch_with (arena_mprotect_fails 0x20000).
Definition os_calloc_fails : dispatch_os :=
  dispatch_with (arena_calloc_fails 0x20000).

(** The arena [new_code_arena] pushes for a mapping at [m]. *)
Definition fresh_arena (T : list Z) (m : Z) : code_arena_t :=
  {| start_addr := m; current_addr := m; size := mem_size;
     size_left := mem_size; code_size := template_code_size T |}.

(** The runtime after [Init(1)] over a 96-byte template, jitdump sink,
    and the same with [persist_after_fork] set. *)
Definition started_jit : runtime :=
  runtime_of (started 96 (Some jitdump_sink)) default_runtime.


Definition state_view (rt : runtime) :=
  (perf_status rt, eval_frame rt, extra_code_index rt, arena_view rt,
   history rt, perf_map (perf_jit_map_state rt), state (trampoline_api rt)).

Definition fork_view (o : outcome (PyStatus * runtime)) :=
  match o with
  | Done (st, rt) => Some (st, state_view rt)
  | Fault _ => None
  end.

(** ** Sequences of jitdump writes and what they should leave *)

(** A write that reaches the emission, with records that fit the 32-bit
    size field of the framing. *)
Definition fits_record (w : write_call) : Prop :=
  wr_malloc (wc_os w) = true /\
  is_uint32 (wc_code_size w) /\
  sizeof_CodeLoadEvent + (strlen (perf_map_entry_of (wc_co w)) + 1)
    + wc_code_size w < 2 ^ 32.

(** The records a sequence of writes is expected to leave in the dump
    when the counter stands at [c] before the first of them: for each
    write its unwinding record, then its code-load record carrying the
    number of code-load records before it plus one. *)
Fixpoint expected_records (arch : target_arch) (ws : list write_call) (c : Z)
    (mem : Z -> Z) : list (list Z) :=
  match ws with
  | [] => []
  | w :: rest =>
      List.concat (unwinding_record arch (wc_os w) (wc_code_size w))
      :: List.concat
           (code_load_record (wc_os w) (wc_code_addr w) (wc_code_size w)
              (perf_map_entry_of (wc_co w)) (c + 1) mem)
      :: expected_records arch rest (c + 1) mem
  end.

(** A record the reader can step over: at least the 16 bytes of the
    framing, and as long as its size field says. *)
Definition well_framed (r : list Z) : Prop :=
  16 <= zlength r /\ record_size r = zlength r.

Definition three_writes : list write_call :=
  [ write_of 0x10000 code_f;
    write_of 0x10160 code_g;
    write_of 0x102c0 code_anonymous ].

(** Kind, size field, length and length modulo 8 of every record of a
    dump. *)
Definition records_view (dump : list Z) : list (Z * Z * Z * Z) :=
  map (fun r => (record_kind r, record_size r, zlength r, zlength r mod 8))
    (jitdump_parse dump).

(** The configuration in which no dispatch can run into a fault: an
    arena in the list, the perf-map sink behind [write_state], and a
    stub size that is not 0. *)
Definition perfmap_ready (T : list Z) (rt : runtime) : Prop :=
  perf_code_arena rt <> [] /\
  write_state (trampoline_api rt) = Some perfmap_sink /\
  chunk_size_of (template_code_size T) (code_padding (trampoline_api rt)) <> 0.

(** What a sink leaves alone. *)
Record sink_frame (rt rt' : runtime) : Prop := {
  sf_status : perf_status rt' = perf_status rt;
  sf_index : extra_code_index rt' = extra_code_index rt;
  sf_arena : perf_code_arena rt' = perf_code_arena rt;
  sf_extra : co_extra rt' = co_extra rt;
  sf_history : history rt' = history rt;
  sf_eval : eval_frame rt' = eval_frame rt;
  sf_memory : memory rt' = memory rt;
  sf_persist : persist_after_fork rt' = persist_after_fork rt;
  sf_init : init_state (trampoline_api rt') = init_state (trampoline_api rt);
  sf_write : write_state (trampoline_api rt') = write_state (trampoline_api rt);
  sf_free : free_state (trampoline_api rt') = free_state (trampoline_api rt)
}.

(** ** Layout of an arena *)

(** An arena whose chunks were filled with the stride [c0] and are
    handed out with the stride [c], a multiple of it (the two differ
    when [trampoline_api.code_padding] changed in between): the cursor
    is a whole number of chunks of [c] past the start, [size_left] is
    what is left behind it, and every chunk of [c0] that fits the arena
    starts with a copy of the template. *)
Definition arena_laid_out (T : list Z) (c0 c : Z) (mem : Z -> Z)
    (a : code_arena_t) : Prop :=
  code_size a = template_code_size T /\
  size a = mem_size /\
  0 < c0 /\ (c0 | c) /\
  (exists k, 0 <= k /\
             current_addr a = start_addr a + k * c /\
             size_left a = size a - k * c) /\
  0 <= size_left a /\
  forall i, 0 <= i < size a / c0 ->
            read_memory mem (start_addr a + i * c0) (zlength T) = T.

(** ** Reading the mappings off the history *)

(** The addresses [mmap] returned, and the addresses handed to
    [munmap], in the order of the calls. *)
Definition mapped_addrs (h : list call) : list Z :=
  flat_map
    (fun e => match e with call_mmap (Some a) => [a] | _ => [] end) h.

Definition unmapped_addrs (h : list call) : list Z :=
  flat_map
    (fun e => match e with call_munmap a => [a] | _ => [] end) h.

(** Every address [mmap] returned is either unmapped again or the start
    of an arena of the list, once each. *)
Definition mappings_accounted (rt : runtime) : Prop :=
  Permutation (mapped_addrs (history rt))
    (unmapped_addrs (history rt) ++ map start_addr (perf_code_arena rt)).

(** ** Calls of the entry points, one after the other *)

(** One call, which returns, of an entry point of [perf_trampoline.c]
    other than [_PyPerfTrampoline_FreeArenas]; the evaluator hook counts
    as one. *)
Inductive api_call (T : list Z) (arch : target_arch)
    (ev : Z -> _PyInterpreterFrame -> Z -> Z) : runtime -> runtime -> Prop :=
| call_Init os activate rt r rt' :
    _PyPerfTrampoline_Init T os activate rt = Done (r, rt') ->
    api_call T arch ev rt rt'
| call_Fini rt r rt' :
    _PyPerfTrampoline_Fini rt = Done (r, rt') ->
    api_call T arch ev rt rt'
| call_SetCallbacks callbacks rt r rt' :
    _PyPerfTrampoline_SetCallbacks callbacks rt = Done (r, rt') ->
    api_call T arch ev rt rt'
| call_SetPersistAfterFork enable rt r rt' :
    PyUnstable_PerfTrampoline_SetPersistAfterFork enable rt = (r, rt') ->
    api_call T arch ev rt rt'
| call_AfterFork_Child os rt st rt' :
    _PyPerfTrampoline_AfterFork_Child T os rt = Done (st, rt') ->
    api_call T arch ev rt rt'
| call_evaluator os ts frame throw rt v rt' :
    py_trampoline_evaluator T arch ev os ts frame throw rt = Done (v, rt') ->
    api_call T arch ev rt rt'
| call_CompileCode os co rt r rt' :
    PyUnstable_PerfTrampoline_CompileCode T arch os co rt = Done (r, rt') ->
    api_call T arch ev rt rt'.

(** The same with [_PyPerfTrampoline_FreeArenas] among the calls. *)
Inductive api_step (T : list Z) (arch : target_arch)
    (ev : Z -> _PyInterpreterFrame -> Z -> Z) : runtime -> runtime -> Prop :=
| step_call rt rt' : api_call T arch ev rt rt' -> api_step T arch ev rt rt'
| step_FreeArenas rt :
    api_step T arch ev rt (_PyPerfTrampoline_FreeArenas rt).

(** Any number of steps, the first one first. *)
Inductive run_of (step : runtime -> runtime -> Prop)
  : runtime -> runtime -> Prop :=
| run_done rt : run_of step rt rt
| run_then rt rt1 rt2 :
    run_of step rt rt1 -> step rt1 rt2 -> run_of step rt rt2.

(** The evaluator finds an arena whenever the status lets it look for
    one. *)
Definition dispatch_ready (rt : runtime) : Prop :=
  perf_status rt = PERF_STATUS_OK -> perf_code_arena rt <> [].

(** What every call but a successful [_PyPerfTrampoline_Init] does to
    the arenas and the status: the mappings stay accounted for, the list
    of arenas does not become empty, the status does not become
    [PERF_STATUS_OK]. *)
Definition quiet_step (rt rt' : runtime) : Prop :=
  (mappings_accounted rt -> mappings_accounted rt') /\
  (perf_code_arena rt <> [] -> perf_code_arena rt' <> []) /\
  (perf_status rt' = PERF_STATUS_OK -> perf_status rt = PERF_STATUS_OK).

(** ** Callbacks *)

(** [_PyPerf_Callbacks]: the three function pointers a caller hands over
    or gets back. *)
Record _PyPerf_Callbacks := {
  cb_init_state : option sink;
  cb_write_state : option sink;
  cb_free_state : option sink
}.

(** The two tables of the sources. *)
Definition _Py_perfmap_callbacks : _PyPerf_Callbacks :=
  {| cb_init_state := Some perfmap_sink;
     cb_write_state := Some perfmap_sink;
     cb_free_state := Some perfmap_sink |}.

Definition _Py_perfmap_jit_callbacks : _PyPerf_Callbacks :=
  {| cb_init_state := Some jitdump_sink;
     cb_write_state := Some jitdump_sink;
     cb_free_state := Some jitdump_sink |}.

Definition callbacks_of (s : sink) : _PyPerf_Callbacks :=
  match s with
  | perfmap_sink => _Py_perfmap_callbacks
  | jitdump_sink => _Py_perfmap_jit_callbacks
  end.

(** [_PyPerfTrampoline_GetCallbacks]: what the struct behind
    [callbacks] holds after the call; [None] is the NULL pointer, for
    which nothing is written. *)
Definition _PyPerfTrampoline_GetCallbacks
    (callbacks : option _PyPerf_Callbacks) (rt : runtime)
  : option _PyPerf_Callbacks :=
  match callbacks with
  | None => None
  | Some _ =>
      Some {| cb_init_state := init_state (trampoline_api rt);
              cb_write_state := write_state (trampoline_api rt);
              cb_free_state := free_state (trampoline_api rt) |}
  end.

(** ** Clocks of the jitdump sink *)

Definition nanoseconds_per_second : Z := 1000000000.

(** [get_current_monotonic_ticks]: [clock_gettime] is what the call
    returns, [tv_sec] and [tv_nsec] what it stores in [ts]. *)
Definition get_current_monotonic_ticks (clock_gettime tv_sec tv_nsec : Z)
  : Z :=
  if negb (clock_gettime =? 0) then 0 else
  let result := to_int64 tv_sec in
  let result := to_int64 (result * nanoseconds_per_second) in
  let result := to_int64 (result + tv_nsec) in
  result.

(** [get_current_time_microseconds], over what [gettimeofday] returns
    and stores in [tv]. *)
Definition get_current_time_microseconds (gettimeofday tv_sec tv_usec : Z)
  : Z :=
  if gettimeofday <? 0 then 0 else
  to_int64 (to_int64 (to_int64 tv_sec * 1000000) + tv_usec).

(** ** The loop of [perf_map_jit_write_fully]

    Against a stream whose [fwrite] may take fewer bytes than it is
    asked to: [fwrite ptr] is the number of bytes it takes of the bytes
    [ptr] still to be written (never more than there are).  The result
    is what reached the stream when the loop ends. *)
Equations? write_fully_loop (fwrite : list Z -> nat) (ptr : list Z)
  : list Z by wf (List.length ptr) lt :=
  write_fully_loop fwrite [] := [];
  write_fully_loop fwrite (b :: bs)
    with Nat.min (fwrite (b :: bs)) (List.length (b :: bs)) => {
    | O := [];
    | S written :=
        firstn (S written) (b :: bs)
          ++ write_fully_loop fwrite (skipn (S written) (b :: bs)) }.
Proof.
  cbn [skipn List.length]. rewrite length_skipn. lia.
Qed.

(** ** Reading the perf-map writes off the history *)

(** Address and size of the calls made to [perf_map_write_entry]. *)
Definition perfmap_writes (h : list call) : list (Z * Z) :=
  flat_map
    (fun e =>
       match e with
       | call_write_state perfmap_sink a s _ => [(a, s)]
       | _ => []
       end) h.

(** Address and size of the lines of the perf map. *)
Definition lines_written (rt : runtime) : list (Z * Z) :=
  map fst (perf_map_lines rt).

(** What a step does to the perf map: [new] lines, one for each write
    that the step adds to the history, each named after a code object. *)
Definition lines_step (rt rt' : runtime) : Prop :=
  exists es new,
    history rt' = history rt ++ es /\
    perf_map_lines rt' = perf_map_lines rt ++ new /\
    map fst new = perfmap_writes es /\
    Forall (fun l => exists co, snd l = perf_map_entry_of co) new.

(** ** Further example inputs *)

Definition jit_init_no_lock : jit_init_os :=
  {| os_getpid := 4242; os_open := 3; os_sysconf_pagesize := 4096;
     os_mmap_file := 0x7f0000000000; os_fdopen := true;
     os_allocate_lock := false; os_time_microseconds := 1700000000000000;
     os_header_reserved := 0 |}.

Definition forked_perfmap_persist : runtime :=
  snd (PyUnstable_PerfTrampoline_SetPersistAfterFork 1 started_perfmap).

(* ===================================================================== *)
(** * Part II: theorems                                                  *)
(* ===================================================================== *)

Arguments unwinding_record : simpl never.
Arguments code_load_record : simpl never.
Arguments unwinding_info : simpl never.
Arguments round_up : simpl never.
Arguments chunk_size_of : simpl never.
Arguments to_int32 : simpl never.
Arguments to_int64 : simpl never.
Arguments to_uint32 : simpl never.
Arguments to_uint64 : simpl never.
Arguments to_size_t : simpl never.
Arguments to_uint8 : simpl never.
Arguments Header_bytes : simpl never.
Arguments mem_size : simpl never.

Ltac break_match :=
  match goal with
  | H : context [match ?x with _ => _ end] |- _ => destruct x eqn:?
  | |- context [match ?x with _ => _ end] => destruct x eqn:?
  end.

Ltac inv H := inversion H; subst; clear H.

Lemma done_pair {A B : Type} (o : outcome (A * B)) (d : A * B) :
  is_done o = true -> o = Done (fst (result_of o d), snd (result_of o d)).
Proof. destruct o as [[a b]|]; [reflexivity|discriminate]. Qed.

(** ** [round_up] *)

Lemma to_size_t_to_int64 z : to_size_t (to_int64 z) = z mod 2 ^ 64.
Proof.
  unfold to_size_t, to_int64.
  rewrite <- Zminus_mod_idemp_l, Z.mod_mod by lia.
  rewrite Zminus_mod_idemp_l. f_equal. lia.
Qed.

Lemma to_int64_small z : is_int64 z -> to_int64 z = z.
Proof. unfold is_int64, to_int64. intros. rewrite Z.mod_small; lia. Qed.

Lemma to_size_t_small z : 0 <= z < 2 ^ 64 -> to_size_t z = z.
Proof. unfold to_size_t. intros. apply Z.mod_small; lia. Qed.

(* On non-negative values the function computes the least multiple. *)
Lemma round_up_nonneg x m :
  0 <= x < 2 ^ 63 -> 0 < m < 2 ^ 63 ->
  round_up x m = m * ((x + m - 1) / m).
Proof.
  intros Hx Hm. unfold round_up.
  destruct (Z.eqb_spec m 0); [lia|].
  rewrite Z.rem_mod_nonneg by lia.
  pose proof (Z.mod_pos_bound x m ltac:(lia)) as Hr.
  pose proof (Z.div_mod x m ltac:(lia)) as Hd.
  destruct (Z.eqb_spec (x mod m) 0) as [E|E].
  - rewrite to_size_t_small by lia.
    replace (x + m - 1) with ((m - 1) + (x / m) * m) by lia.
    rewrite Z.div_add, Z.div_small by lia. lia.
  - rewrite (to_int64_small (m - x mod m)) by (unfold is_int64; lia).
    rewrite to_size_t_to_int64, Z.mod_small by lia.
    replace (x + m - 1) with ((x mod m - 1) + (x / m + 1) * m) by lia.
    rewrite Z.div_add, Z.div_small by lia. lia.
Qed.

(** C9 (amended): on a non-negative [x] and a non-negative [m] (both in
    the range of [int64_t]), [round_up x m] is at least [x] and a
    multiple of [m] when [m > 0], and is [x] when [m = 0]. *)
Theorem round_up_laws x m :
  0 <= x < 2 ^ 63 -> 0 <= m < 2 ^ 63 ->
  (0 < m -> x <= round_up x m /\ round_up x m mod m = 0) /\
  round_up x 0 = x.
Proof.
  intros Hx Hm. split.
  - intros Hpos. rewrite round_up_nonneg by lia.
    split.
    + pose proof (Z.div_mod (x + m - 1) m ltac:(lia)).
      pose proof (Z.mod_pos_bound (x + m - 1) m ltac:(lia)). lia.
    + rewrite Z.mul_comm. apply Z.mod_mul. lia.
  - unfold round_up. simpl. apply to_size_t_small. lia.
Qed.

(** C9 as stated fails on a negative value: the [int64_t] result is
    converted to the unsigned [size_t], so [round_up(-3, 3)] is
    [2^64 - 3], which is not a multiple of 3, and [round_up(-3, 0)] is
    not [-3]. *)
Lemma round_up_negative_counterexample :
  is_int64 (-3) /\ is_int64 3 /\ 0 < 3 /\
  round_up (-3) 3 = 2 ^ 64 - 3 /\
  round_up (-3) 3 mod 3 <> 0 /\
  round_up (-3) 0 <> -3.
Proof. unfold is_int64. repeat split; try lia; vm_compute; discriminate. Qed.

Lemma round_up_laws_witness :
  100 <= round_up 100 16 /\ round_up 100 16 mod 16 = 0 /\
  round_up 100 0 = 100.
Proof.
  destruct (round_up_laws 100 16 ltac:(lia) ltac:(lia)) as [Hpos Hzero].
  destruct (Hpos ltac:(lia)) as [Hge Hmod].
  repeat split; assumption.
Defined.

Example round_up_stub_sizes : round_up (96 + 0) 16 = 96 /\ round_up (96 + 0x100) 16 = 352.
Proof. split; reflexivity. Qed.

(** ** LEB128 *)

Lemma land_127 v : Z.land v 0x7f = v mod 128.
Proof. change 0x7f with (Z.ones 7). rewrite Z.land_ones by lia. reflexivity. Qed.

Lemma lor_disjoint_add a b : Z.land a b = 0 -> Z.lor a b = a + b.
Proof. intros H. rewrite <- Z.lxor_lor, <- Z.add_nocarry_lxor; auto. Qed.

Lemma land_low_high a k b : 0 <= k -> 0 <= a < 2 ^ k -> Z.land a (b * 2 ^ k) = 0.
Proof.
  intros Hk Ha. apply Z.bits_inj'; intros n Hn.
  rewrite Z.land_spec, Z.bits_0.
  destruct (Z_lt_le_dec n k).
  - rewrite Z.mul_pow2_bits_low by lia. apply andb_false_r.
  - replace a with (a mod 2 ^ k) by (apply Z.mod_small; lia).
    rewrite Z.mod_pow2_bits_high by lia. reflexivity.
Qed.

Lemma land_bit x k : 0 <= k -> (Z.land x (2 ^ k) =? 0) = negb (Z.testbit x k).
Proof.
  intros Hk. destruct (Z.testbit x k) eqn:E; simpl.
  - apply Z.eqb_neq. intros H.
    assert (Z.testbit (Z.land x (2 ^ k)) k = false) by (rewrite H; apply Z.bits_0).
    rewrite Z.land_spec, E, Z.pow2_bits_true in H0 by lia. discriminate.
  - apply Z.eqb_eq. apply Z.bits_inj'; intros n Hn.
    rewrite Z.land_spec, Z.bits_0.
    destruct (Z.eq_dec n k) as [->|].
    + rewrite E. reflexivity.
    + rewrite Z.pow2_bits_false by lia. apply andb_false_r.
Qed.

Lemma testbit_div x k : 0 <= k -> Z.testbit x k = Z.odd (x / 2 ^ k).
Proof. intros. rewrite Z.testbit_odd, Z.shiftr_div_pow2 by lia. reflexivity. Qed.

Lemma cont_byte v : to_uint8 (Z.lor (Z.land v 0x7f) 0x80) = v mod 128 + 128.
Proof.
  rewrite land_127. unfold to_uint8.
  pose proof (Z.mod_pos_bound v 128 ltac:(lia)).
  rewrite lor_disjoint_add.
  - rewrite Z.mod_small; lia.
  - apply (land_low_high _ 7 1); lia.
Qed.

Lemma cont_byte_low v : Z.land (v mod 128 + 128) 0x7f = v mod 128.
Proof.
  rewrite land_127. rewrite <- Z.add_mod_idemp_r by lia.
  change (128 mod 128) with 0. rewrite Z.add_0_r. apply Z.mod_mod; lia.
Qed.

Lemma cont_byte_high v : (Z.land (v mod 128 + 128) 0x80 =? 0) = false.
Proof.
  pose proof (Z.mod_pos_bound v 128 ltac:(lia)).
  change 0x80 with (2 ^ 7). rewrite land_bit, testbit_div by lia.
  change (2 ^ 7) with 128.
  replace ((v mod 128 + 128) / 128) with 1; [reflexivity|].
  apply Z.div_unique with (r := v mod 128); lia.
Qed.

(* last byte of a small value: bit 7 clear *)
Lemma last_byte_high b : 0 <= b < 128 -> (Z.land b 0x80 =? 0) = true.
Proof.
  intros. change 0x80 with (2 ^ 7). rewrite land_bit, testbit_div by lia.
  rewrite Z.div_small by lia. reflexivity.
Qed.

Lemma last_byte_sign b : 0 <= b < 128 -> (Z.land b 0x40 =? 0) = (b <? 64).
Proof.
  intros. change 0x40 with (2 ^ 6). rewrite land_bit, testbit_div by lia.
  change (2 ^ 6) with 64.
  destruct (Z.ltb_spec b 64).
  - rewrite Z.div_small by lia. reflexivity.
  - replace (b / 64) with 1; [reflexivity|].
    apply Z.div_unique with (r := b - 64); lia.
Qed.

(* joining a 7-bit group with the groups above it *)
Lemma lor_group acc v s k :
  0 <= s -> 0 <= k ->
  Z.lor (Z.lor acc (Z.shiftl (v mod 128) s))
        (Z.shiftl ((Z.shiftr v 7) mod 2 ^ k) (s + 7))
  = Z.lor acc (Z.shiftl (v mod 2 ^ (k + 7)) s).
Proof.
  intros Hs Hk. rewrite <- Z.lor_assoc. f_equal.
  apply Z.bits_inj'; intros n Hn.
  rewrite Z.lor_spec, !Z.shiftl_spec by lia.
  destruct (Z_lt_le_dec n s).
  - rewrite !Z.testbit_neg_r by lia. reflexivity.
  - destruct (Z_lt_le_dec (n - s) 7).
    + change 128 with (2 ^ 7).
      rewrite !Z.mod_pow2_bits_low by lia.
      rewrite (Z.testbit_neg_r _ (n - (s + 7))) by lia. apply orb_false_r.
    + change 128 with (2 ^ 7).
      rewrite (Z.mod_pow2_bits_high v 7) by lia. simpl.
      destruct (Z_lt_le_dec (n - s) (k + 7)).
      * rewrite !Z.mod_pow2_bits_low by lia.
        rewrite Z.shiftr_spec by lia. f_equal. lia.
      * rewrite !Z.mod_pow2_bits_high by lia. reflexivity.
Qed.

Lemma uleb128_scan v :
  0 <= v ->
  forall s acc rest, 0 <= s ->
  exists n last,
    0 < n /\ v < 2 ^ (7 * n) /\
    leb128_scan s acc (uleb128_bytes v ++ rest)
    = Some (Z.lor acc (Z.shiftl v s), s + 7 * n, last, rest).
Proof.
  funelim (uleb128_bytes v); intros Hv s acc rest Hs.
  - clear Heqcall. rewrite cont_byte. cbn [app leb128_scan].
    rewrite cont_byte_low, cont_byte_high.
    assert (0 <= Z.shiftr v 7) as Hv' by (apply Z.shiftr_nonneg; lia).
    destruct (H Hv' (s + 7) (Z.lor acc (Z.shiftl (v mod 128) s)) rest ltac:(lia))
      as (n & last & Hn & Hb & E).
    exists (n + 1), last. split; [lia|].
    assert (v < 2 ^ (7 * n + 7)) as Hb'.
    { rewrite Z.shiftr_div_pow2 in Hb by lia.
      rewrite Z.pow_add_r by lia. change (2 ^ 7) with 128 in *.
      pose proof (Z.div_mod v 128 ltac:(lia)).
      pose proof (Z.mod_pos_bound v 128 ltac:(lia)). lia. }
    split; [replace (7 * (n + 1)) with (7 * n + 7) by lia; exact Hb'|].
    rewrite E. replace (s + 7 * (n + 1)) with (s + 7 + 7 * n) by lia.
    rewrite <- (Z.mod_small (Z.shiftr v 7) (2 ^ (7 * n))) at 1 by lia.
    rewrite lor_group, Z.mod_small by lia. reflexivity.
  - clear Heqcall. unfold to_uint8. rewrite Z.mod_small by lia.
    cbn [app leb128_scan]. rewrite last_byte_high by lia.
    exists 1, v. split; [lia|]. split; [simpl; lia|].
    rewrite land_127, Z.mod_small by lia. reflexivity.
Qed.


Lemma sleb128_scan v :
  is_int32 v ->
  forall s acc rest, 0 <= s ->
  exists n last,
    0 < n /\ - 2 ^ (7 * n - 1) <= v < 2 ^ (7 * n - 1) /\
    (Z.land last 0x40 =? 0) = (0 <=? v) /\
    leb128_scan s acc (sleb128_bytes v ++ rest)
    = Some (Z.lor acc (Z.shiftl (v mod 2 ^ (7 * n)) s), s + 7 * n, last, rest).
Proof.
  funelim (sleb128_bytes v); intros Hv s acc rest Hs.
  - clear Heqcall. rewrite cont_byte. cbn [app leb128_scan].
    rewrite cont_byte_low, cont_byte_high.
    assert (is_int32 (Z.shiftr v 7)) as Hv'.
    { unfold is_int32 in *. rewrite Z.shiftr_div_pow2 by lia. change (2 ^ 7) with 128.
      pose proof (Z.div_mod v 128 ltac:(lia)).
      pose proof (Z.mod_pos_bound v 128 ltac:(lia)). lia. }
    destruct (H Hv' (s + 7) (Z.lor acc (Z.shiftl (v mod 128) s)) rest ltac:(lia))
      as (n & last & Hn & Hb & Hsign & E).
    exists (n + 1), last. split; [lia|].
    rewrite Z.shiftr_div_pow2 in Hb, Hsign by lia. change (2 ^ 7) with 128 in *.
    pose proof (Z.div_mod v 128 ltac:(lia)).
    pose proof (Z.mod_pos_bound v 128 ltac:(lia)).
    replace (7 * (n + 1) - 1) with (7 + (7 * n - 1)) by lia.
    rewrite Z.pow_add_r by lia. change (2 ^ 7) with 128.
    split; [lia|]. split.
    + rewrite Hsign. destruct (Z.leb_spec 0 (v / 128)), (Z.leb_spec 0 v); auto; lia.
    + rewrite E. replace (s + 7 * (n + 1)) with (s + 7 + 7 * n) by lia.
      rewrite lor_group by lia. 
      replace (7 * (n + 1)) with (7 * n + 7) by lia. reflexivity.
  - clear Heqcall Heq. unfold to_uint32 in n. unfold is_int32 in Hv.
    assert (-64 <= v < 64) as Hr.
    { destruct (Z_lt_le_dec (v + 64) 0).
      - replace ((v + 64) mod 2 ^ 32) with (v + 64 + 2 ^ 32) in n; [lia|].
        apply Z.mod_unique with (q := -1); lia.
      - rewrite Z.mod_small in n by lia. lia. }
    rewrite land_127. unfold to_uint8.
    pose proof (Z.mod_pos_bound v 128 ltac:(lia)).
    rewrite (Z.mod_small (v mod 128)) by lia.
    cbn [app leb128_scan]. rewrite last_byte_high by lia.
    exists 1, (v mod 128). split; [lia|]. split; [simpl; lia|]. split.
    + rewrite last_byte_sign by lia.
      destruct (Z.leb_spec 0 v).
      * rewrite Z.mod_small by lia. apply Z.ltb_lt. lia.
      * replace (v mod 128) with (v + 128). { apply Z.ltb_ge. lia. }
        apply Z.mod_unique with (q := -1); lia.
    + rewrite land_127, Z.mod_mod by lia. reflexivity.
Qed.

Lemma sleb128_decode_encode v rest :
  is_int32 v -> sleb128_decode (sleb128_bytes v ++ rest) = Some (v, rest).
Proof.
  intros Hv. unfold sleb128_decode.
  destruct (sleb128_scan v Hv 0 0 rest ltac:(lia))
    as (n & last & Hn & Hb & Hsign & ->).
  rewrite Z.shiftl_0_r, Z.lor_0_l, Hsign. cbn [Z.add].
  f_equal. f_equal.
  assert (0 < 2 ^ (7 * n - 1)) by (apply Z.pow_pos_nonneg; lia).
  assert (2 ^ (7 * n) = 2 * 2 ^ (7 * n - 1)) as Hp.
  { replace (7 * n) with (1 + (7 * n - 1)) at 1 by lia.
    rewrite Z.pow_add_r by lia. reflexivity. }
  unfold is_int32 in Hv.
  destruct (Z.leb_spec 0 v); cbn [negb]; rewrite ?andb_false_r, ?andb_true_r.
  - rewrite Z.mod_small by lia. unfold to_int32.
    rewrite Z.mod_small by lia. lia.
  - assert (v mod 2 ^ (7 * n) = v + 2 ^ (7 * n)) as Hm.
    { symmetry. apply Z.mod_unique with (q := -1); lia. }
    destruct (Z.ltb_spec (7 * n) 32).
    + rewrite Hm, Z.shiftl_1_l.
      rewrite lor_disjoint_add.
      * unfold to_int32. rewrite Z.mod_small by lia. lia.
      * replace (- 2 ^ (7 * n)) with ((-1) * 2 ^ (7 * n)) by lia.
        apply land_low_high; lia.
    + rewrite Hm. unfold to_int32.
      assert (exists k, 2 ^ (7 * n) = k * 2 ^ 32) as [k Hk].
      { exists (2 ^ (7 * n - 32)). rewrite <- Z.pow_add_r by lia. f_equal. lia. }
      rewrite Hk.
      replace (v + k * 2 ^ 32 + 2 ^ 31) with (v + 2 ^ 31 + k * 2 ^ 32) by lia.
      rewrite Z.mod_add by lia. rewrite Z.mod_small by lia. lia.
Qed.

Lemma uleb128_decode_encode v rest :
  is_uint32 v -> uleb128_decode (uleb128_bytes v ++ rest) = Some (v, rest).
Proof.
  intros [Hv Hv']. unfold uleb128_decode.
  destruct (uleb128_scan v Hv 0 0 rest ltac:(lia)) as (n & last & _ & _ & ->).
  rewrite Z.shiftl_0_r, Z.lor_0_l. unfold to_uint32.
  rewrite Z.mod_small by lia. reflexivity.
Qed.

(** C8: standard LEB128 decoding inverts both encoders, the signed one
    on every [int32_t] value and the unsigned one on every [uint32_t]
    value, whatever follows the encoded bytes. *)
Theorem leb128_roundtrip v rest :
  (is_int32 v -> sleb128_decode (sleb128_bytes v ++ rest) = Some (v, rest)) /\
  (is_uint32 v -> uleb128_decode (uleb128_bytes v ++ rest) = Some (v, rest)).
Proof. split; [apply sleb128_decode_encode | apply uleb128_decode_encode]. Qed.

Lemma leb128_roundtrip_witness :
  sleb128_decode (sleb128_bytes (-123456) ++ [0xaa]) = Some (-123456, [0xaa]) /\
  uleb128_decode (uleb128_bytes 624485 ++ [0xaa]) = Some (624485, [0xaa]).
Proof.
  split.
  - apply (proj1 (leb128_roundtrip (-123456) [0xaa])). unfold is_int32. lia.
  - apply (proj2 (leb128_roundtrip 624485 [0xaa])). unfold is_uint32. lia.
Defined.

Example sleb128_minus_8 : sleb128_bytes (-8) = [0x78].
Proof. reflexivity. Qed.
Example sleb128_int_min :
  sleb128_bytes (- 2 ^ 31) = [0x80; 0x80; 0x80; 0x80; 0x78].
Proof. reflexivity. Qed.
Example sleb128_int_max :
  sleb128_bytes (2 ^ 31 - 1) = [0xff; 0xff; 0xff; 0xff; 0x07].
Proof. reflexivity. Qed.
Example uleb128_uint_max :
  uleb128_bytes (2 ^ 32 - 1) = [0xff; 0xff; 0xff; 0xff; 0x0f].
Proof. reflexivity. Qed.
Example uleb128_624485 : uleb128_bytes 624485 = [0xE5; 0x8E; 0x26].
Proof. reflexivity. Qed.

(** ** What the sinks and the arena code leave alone *)

Lemma sink_frame_refl rt : sink_frame rt rt.
Proof. constructor; reflexivity. Qed.

Lemma sink_frame_trans a b c : sink_frame a b -> sink_frame b c -> sink_frame a c.
Proof. intros [] []; constructor; congruence. Qed.

Lemma write_fully_frame b rt rt' :
  perf_map_jit_write_fully b rt = Done rt' -> sink_frame rt rt'.
Proof.
  unfold perf_map_jit_write_fully. intros H.
  repeat break_match; inv H; constructor; reflexivity.
Qed.

Lemma write_all_frame bs : forall rt rt',
  write_all bs rt = Done rt' -> sink_frame rt rt'.
Proof.
  induction bs as [|b bs IH]; simpl; intros rt rt' H.
  - inv H. apply sink_frame_refl.
  - destruct (perf_map_jit_write_fully b rt) eqn:E; simpl in H; [|discriminate].
    eapply sink_frame_trans; eauto using write_fully_frame.
Qed.

Lemma jit_init_frame os rt p rt' :
  perf_map_jit_init os rt = Done (p, rt') -> sink_frame rt rt'.
Proof.
  unfold perf_map_jit_init, perf_map_jit_write_header. intros H.
  unfold bind in H.
  repeat (break_match; try discriminate); inv H; try (constructor; reflexivity).
  all: match goal with
       | Hw : perf_map_jit_write_fully _ _ = Done _ |- _ =>
           apply write_fully_frame in Hw; destruct Hw; constructor;
           simpl in *; congruence
       end.
Qed.

Section Frames.
Variable T : list Z.
Variable arch : target_arch.

Lemma jit_write_records_frame os a sz co rt rt' :
  jit_write_records arch os a sz co rt = Done rt' -> sink_frame rt rt'.
Proof.
  unfold jit_write_records, bind. intros H.
  destruct (wr_malloc os); cbn [negb] in H; [|inv H; apply sink_frame_refl].
  destruct (write_all (unwinding_record arch os sz) rt) eqn:E1; [|discriminate].
  apply write_all_frame in E1. apply write_all_frame in H.
  eapply sink_frame_trans; [exact E1|].
  destruct H; constructor; simpl in *; congruence.
Qed.

Lemma jit_write_entry_frame os a sz co rt rt' :
  perf_map_jit_write_entry arch os a sz co rt = Done rt' -> sink_frame rt rt'.
Proof.
  unfold perf_map_jit_write_entry, bind. intros H.
  destruct (perf_map (perf_jit_map_state rt)); eauto using jit_write_records_frame.
  destruct (perf_map_jit_init (wr_init os) rt) as [[p rt1]|] eqn:E; [|discriminate].
  apply jit_init_frame in E.
  destruct p; [inv H; exact E|].
  eapply sink_frame_trans; eauto using jit_write_records_frame.
Qed.

Lemma perf_map_write_entry_frame os a sz co rt :
  sink_frame rt (perf_map_write_entry os a sz co rt).
Proof.
  unfold perf_map_write_entry. destruct (wr_malloc os); simpl;
    constructor; reflexivity.
Qed.

(** A call through [write_state] appends itself to the history and
    leaves the rest of what the dispatcher relies on alone. *)
Lemma call_write_effect os a sz co rt rt' :
  call_write arch os a sz co rt = Done rt' ->
  exists s,
    write_state (trampoline_api rt) = Some s /\
    history rt' = history rt ++ [call_write_state s a (to_uint32 sz) (co_addr co)] /\
    perf_status rt' = perf_status rt /\
    extra_code_index rt' = extra_code_index rt /\
    perf_code_arena rt' = perf_code_arena rt /\
    co_extra rt' = co_extra rt /\
    write_state (trampoline_api rt') = write_state (trampoline_api rt).
Proof.
  unfold call_write. intros H.
  destruct (write_state (trampoline_api rt)) as [[]|] eqn:Ew; [| |discriminate].
  - inv H. eexists; split; [reflexivity|].
    destruct (perf_map_write_entry_frame os a (to_uint32 sz) co
                (record_call (call_write_state perfmap_sink a (to_uint32 sz) (co_addr co)) rt)).
    repeat split; simpl in *; try congruence.
  - apply jit_write_entry_frame in H. destruct H.
    eexists; split; [reflexivity|]. repeat split; simpl in *; congruence.
Qed.

Lemma new_code_arena_effect os rt res rt' :
  new_code_arena T os rt = Done (res, rt') ->
  extra_code_index rt' = extra_code_index rt /\
  co_extra rt' = co_extra rt /\
  trampoline_api rt' = trampoline_api rt /\
  (exists es, history rt' = history rt ++ es /\
              forall c, write_addrs_of c es = [] /\ stub_addrs_of c es = []) /\
  ((res = 0 /\ perf_status rt' = perf_status rt /\
    exists a, perf_code_arena rt' = a :: perf_code_arena rt) \/
   (res = -1 /\ perf_code_arena rt' = perf_code_arena rt)).
Proof.
  unfold new_code_arena. intros H.
  repeat (break_match; try discriminate); inv H; simpl.
  all: repeat split; try reflexivity.
  all: try (eexists; split; [try reflexivity|]).
  all: try (rewrite <- app_assoc; reflexivity).
  all: try (intros c; split; reflexivity).
  all: try (left; repeat split; eexists; reflexivity).
  all: try (right; split; reflexivity).
Qed.
End Frames.


Lemma write_addrs_of_app c h1 h2 :
  write_addrs_of c (h1 ++ h2) = write_addrs_of c h1 ++ write_addrs_of c h2.
Proof. apply flat_map_app. Qed.

Lemma stub_addrs_of_app c h1 h2 :
  stub_addrs_of c (h1 ++ h2) = stub_addrs_of c h1 ++ stub_addrs_of c h2.
Proof. apply flat_map_app. Qed.

Section Dispatch.
Variable T : list Z.
Variable arch : target_arch.
Variable ev : Z -> _PyInterpreterFrame -> Z -> Z.

Lemma compile_trampoline_effect os rt p rt' :
  compile_trampoline T os rt = Done (p, rt') ->
  extra_code_index rt' = extra_code_index rt /\
  co_extra rt' = co_extra rt /\
  trampoline_api rt' = trampoline_api rt /\
  (exists es, history rt' = history rt ++ es /\
              forall c, write_addrs_of c es = [] /\ stub_addrs_of c es = []).
Proof.
  unfold compile_trampoline, bind. intros H.
  destruct (perf_code_arena rt) as [|head prev] eqn:Ea; [discriminate|].
  cbn [is_NULL_arena orb] in H.
  assert (forall rt1, 
    (extra_code_index rt1 = extra_code_index rt /\
     co_extra rt1 = co_extra rt /\
     trampoline_api rt1 = trampoline_api rt /\
     (exists es, history rt1 = history rt ++ es /\
              forall c, write_addrs_of c es = [] /\ stub_addrs_of c es = [])) ->
    match perf_code_arena rt1 with
    | [] => Fault NullDereference
    | head0 :: prev0 =>
        let '(trampoline, head1) := code_arena_new_code (code_padding (trampoline_api rt1)) head0 in
        Done (trampoline, set_perf_code_arena (head1 :: prev0) rt1)
    end = Done (p, rt') ->
    extra_code_index rt' = extra_code_index rt /\
    co_extra rt' = co_extra rt /\
    trampoline_api rt' = trampoline_api rt /\
    (exists es, history rt' = history rt ++ es /\
              forall c, write_addrs_of c es = [] /\ stub_addrs_of c es = [])) as Hfin.
  { intros rt1 Hrt1 Hm. destruct (perf_code_arena rt1); [discriminate|].
    unfold code_arena_new_code in Hm. inv Hm. exact Hrt1. }
  assert (extra_code_index rt = extra_code_index rt /\
     co_extra rt = co_extra rt /\
     trampoline_api rt = trampoline_api rt /\
     (exists es, history rt = history rt ++ es /\
              forall c, write_addrs_of c es = [] /\ stub_addrs_of c es = [])) as Hrefl.
  { repeat split. exists []. rewrite app_nil_r. split; [reflexivity|]. intros; split; reflexivity. }
  destruct (size_left head <=? chunk_size_of (code_size head) (code_padding (trampoline_api rt))).
  - destruct (new_code_arena T os rt) as [[res rt1]|] eqn:En; [|discriminate].
    apply new_code_arena_effect in En.
    destruct En as (Hi & He & Ha & Hh & _).
    destruct (res <? 0).
    + inv H. auto.
    + apply (Hfin rt1); auto.
  - apply (Hfin rt); auto.
Qed.

Lemma dispatch_step os ts frame throw rt v rt' :
  slots_consistent rt ->
  d_set_extra os = true ->
  py_trampoline_evaluator T arch ev os ts frame throw rt = Done (v, rt') ->
  slots_consistent rt' /\
  extra_code_index rt' = extra_code_index rt /\
  v = ev ts frame throw /\
  (forall c, co_extra rt c (extra_code_index rt) <> NULL ->
             co_extra rt' c (extra_code_index rt') = co_extra rt c (extra_code_index rt)).
Proof.
  intros Hc Hset H. unfold py_trampoline_evaluator in H.
  destruct (perf_status rt);
    [inv H; split; [assumption|repeat split; auto]
    |inv H; split; [assumption|repeat split; auto] |].
  unfold _PyCode_GetExtra, _PyFrame_GetCode in H. cbn [Z.eqb negb orb] in H.
  set (co := f_code frame) in *. set (idx := extra_code_index rt) in *.
  destruct (Z.eqb_spec (co_extra rt (co_addr co) idx) NULL) as [Enull|Enn].
  - unfold bind in H.
    destruct (compile_trampoline T (d_arena os) rt) as [[p rt1]|] eqn:Ec; [|discriminate].
    apply compile_trampoline_effect in Ec.
    destruct Ec as (Hi1 & He1 & Ha1 & es & Hh1 & Hes).
    assert (slots_consistent rt1) as Hc1.
    { intros c. cbn zeta. specialize (Hc c). cbn zeta in Hc. destruct Hc as [Hw Hs].
      rewrite Hi1, He1, Hh1, write_addrs_of_app, stub_addrs_of_app.
      destruct (Hes c) as [-> ->]. rewrite !app_nil_r. auto. }
    destruct (Z.eqb_spec p NULL) as [Ep|Ep].
    + inv H. split; [exact Hc1|]. repeat split; auto.
      intros c _. rewrite Hi1, He1. reflexivity.
    + destruct (perf_code_arena rt1) as [|head prev]; [discriminate|].
      destruct (call_write arch (d_write os) p (code_size head) co rt1) as [rt2|] eqn:Ew;
        [|discriminate].
      apply call_write_effect in Ew.
      destruct Ew as (s & _ & Hh2 & _ & Hi2 & _ & He2 & _).
      unfold _PyCode_SetExtra, run_stub in H. rewrite Hset in H. inv H.
      cbn [extra_code_index set_co_extra record_call set_history co_extra history].
      fold co. rewrite Hi2, Hi1. fold idx.
      split; [|repeat split; auto].
      * intros c. cbn zeta.
        cbn [extra_code_index set_co_extra record_call set_history co_extra history].
        rewrite Hi2, Hi1. fold idx. rewrite Hh2, He2, Hh1, He1.
        rewrite Z.eqb_refl, andb_true_r.
        rewrite !write_addrs_of_app, !stub_addrs_of_app.
        destruct (Hes c) as [-> ->]. rewrite !app_nil_r.
        specialize (Hc c). cbn zeta in Hc. fold idx in Hc. destruct Hc as [Hw Hs].
        cbn [write_addrs_of stub_addrs_of flat_map]. rewrite !app_nil_r.
        destruct (Z.eqb_spec c (co_addr co)) as [->|Hne].
        -- rewrite Z.eqb_refl.
           rewrite Enull in Hw. cbn [Z.eqb NULL] in Hw. rewrite Hw.
           destruct (Z.eqb_spec p NULL); [contradiction|].
           split; [reflexivity|].
           intros f Hin. apply in_app_or in Hin. destruct Hin as [Hin|Hin].
           ++ apply Hs in Hin. destruct Hin as [-> Hf]. contradiction.
           ++ destruct Hin as [<-|[]]. auto.
        -- assert ((co_addr co =? c) = false) as -> by (apply Z.eqb_neq; congruence).
           rewrite !app_nil_r. auto.
      * intros c Hnn. rewrite Z.eqb_refl, andb_true_r, He2, He1.
        destruct (Z.eqb_spec c (co_addr co)) as [->|Hne]; [contradiction|reflexivity].
  - unfold run_stub in H. inv H. cbn [extra_code_index record_call set_history co_extra history].
    split; [|repeat split; auto].
    intros c. cbn zeta.
    cbn [extra_code_index record_call set_history co_extra history].
    fold co idx. specialize (Hc c). cbn zeta in Hc. fold idx in Hc. destruct Hc as [Hw Hs].
    rewrite write_addrs_of_app, stub_addrs_of_app.
    cbn [write_addrs_of stub_addrs_of flat_map]. rewrite !app_nil_r.
    split; [exact Hw|].
    intros f Hin. apply in_app_or in Hin. destruct Hin as [Hin|Hin]; [auto|].
    destruct (Z.eqb_spec (co_addr co) c) as [<-|Hne]; [|destruct Hin].
    destruct Hin as [<-|[]]. auto.
Qed.
End Dispatch.

Section FirstAndLater.
Variable T : list Z.
Variable arch : target_arch.
Variable ev : Z -> _PyInterpreterFrame -> Z -> Z.

(** The first dispatch of a code object that gets a stub tells the sink,
    stores the address in the slot and calls through it. *)
Lemma dispatch_first_call os ts frame throw rt p rt1 head1 prev1 rt2 :
  perf_status rt = PERF_STATUS_OK ->
  co_extra rt (co_addr (f_code frame)) (extra_code_index rt) = NULL ->
  compile_trampoline T (d_arena os) rt = Done (p, rt1) ->
  p <> NULL ->
  perf_code_arena rt1 = head1 :: prev1 ->
  call_write arch (d_write os) p (code_size head1) (f_code frame) rt1 = Done rt2 ->
  d_set_extra os = true ->
  exists rt',
    py_trampoline_evaluator T arch ev os ts frame throw rt
    = Done (ev ts frame throw, rt') /\
    co_extra rt' (co_addr (f_code frame)) (extra_code_index rt') = p /\
    history rt' = history rt2 ++ [call_stub p (co_addr (f_code frame))].
Proof.
  intros Hs Hn Hc Hp Ha Hw Hset. unfold py_trampoline_evaluator.
  rewrite Hs. unfold _PyCode_GetExtra, _PyFrame_GetCode. rewrite Hn, Hc.
  cbn [Z.eqb negb orb NULL bind].
  destruct (Z.eqb_spec p NULL); [contradiction|].
  rewrite Ha, Hw. cbn [bind]. unfold _PyCode_SetExtra, run_stub. rewrite Hset.
  eexists. split; [reflexivity|]. cbn. rewrite !Z.eqb_refl. split; reflexivity.
Qed.

(** Every later dispatch of it, while the status is [PERF_STATUS_OK],
    calls through the stored address and does nothing else. *)
Lemma dispatch_later_call os ts frame throw rt :
  perf_status rt = PERF_STATUS_OK ->
  co_extra rt (co_addr (f_code frame)) (extra_code_index rt) <> NULL ->
  py_trampoline_evaluator T arch ev os ts frame throw rt
  = Done (ev ts frame throw,
          record_call
            (call_stub (co_extra rt (co_addr (f_code frame)) (extra_code_index rt))
               (co_addr (f_code frame))) rt).
Proof.
  intros Hs Hnn. unfold py_trampoline_evaluator.
  rewrite Hs. unfold _PyCode_GetExtra, _PyFrame_GetCode. cbn [Z.eqb negb orb].
  destruct (Z.eqb_spec (co_extra rt (co_addr (f_code frame)) (extra_code_index rt)) NULL);
    [contradiction|reflexivity].
Qed.
End FirstAndLater.

Section Runs.
Variable T : list Z.
Variable arch : target_arch.
Variable ev : Z -> _PyInterpreterFrame -> Z -> Z.

Lemma run_dispatches_invariant calls : forall rt vs rt',
  slots_consistent rt ->
  Forall (fun c => d_set_extra (dc_os c) = true) calls ->
  run_dispatches T arch ev calls rt = Done (vs, rt') ->
  slots_consistent rt' /\
  extra_code_index rt' = extra_code_index rt /\
  vs = map (fun c => ev (dc_ts c) (dc_frame c) (dc_throw c)) calls /\
  (forall c, co_extra rt c (extra_code_index rt) <> NULL ->
             co_extra rt' c (extra_code_index rt') = co_extra rt c (extra_code_index rt)).
Proof.
  induction calls as [|d calls IH]; intros rt vs rt' Hc Hall H.
  - inv H. split; [assumption|repeat split; auto].
  - cbn [run_dispatches] in H. unfold bind in H.
    destruct (py_trampoline_evaluator T arch ev (dc_os d) (dc_ts d) (dc_frame d) (dc_throw d) rt)
      as [[v rt1]|] eqn:E1; [|discriminate].
    destruct (run_dispatches T arch ev calls rt1) as [[vs1 rt2]|] eqn:E2; [|discriminate].
    inv H. inv Hall.
    apply dispatch_step in E1; auto. destruct E1 as (Hc1 & Hi1 & -> & Hk1).
    apply IH in E2; auto. destruct E2 as (Hc2 & Hi2 & -> & Hk2).
    split; [exact Hc2|]. split; [congruence|]. split; [reflexivity|].
    intros c Hnn. rewrite Hk2; rewrite Hk1; auto.
Qed.

End Runs.

Section OneTrampoline.
Variable T : list Z.
Variable arch : target_arch.
Variable ev : Z -> _PyInterpreterFrame -> Z -> Z.

(** A run over [pre ++ post] is a run over [pre] followed by one over
    [post]. *)
Lemma run_dispatches_split pre : forall post rt vs rt',
  run_dispatches T arch ev (pre ++ post) rt = Done (vs, rt') ->
  exists vs1 rt1 vs2,
    run_dispatches T arch ev pre rt = Done (vs1, rt1) /\
    run_dispatches T arch ev post rt1 = Done (vs2, rt') /\
    vs = vs1 ++ vs2.
Proof.
  induction pre as [|d pre IH]; intros post rt vs rt' H.
  - exists [], rt, vs. repeat split. exact H.
  - cbn [app run_dispatches] in H |- *. unfold bind in H |- *.
    destruct (py_trampoline_evaluator T arch ev (dc_os d) (dc_ts d) (dc_frame d)
                (dc_throw d) rt) as [[v rta]|]; [|discriminate].
    destruct (run_dispatches T arch ev (pre ++ post) rta) as [[vsr rtb]|] eqn:E;
      [|discriminate].
    inv H. destruct (IH post rta vsr rt' E) as (vs1 & rt1 & vs2 & E1 & E2 & ->).
    rewrite E1. exists (v :: vs1), rt1, vs2. repeat split. exact E2.
Qed.

(** No dispatch sets the status to [PERF_STATUS_OK]. *)
Lemma dispatch_status_back os ts frame throw rt v rt' :
  py_trampoline_evaluator T arch ev os ts frame throw rt = Done (v, rt') ->
  perf_status rt' = PERF_STATUS_OK -> perf_status rt = PERF_STATUS_OK.
Proof.
  intros H Hs'. unfold py_trampoline_evaluator in H.
  destruct (perf_status rt) eqn:Es; [inv H; congruence|inv H; congruence|reflexivity].
Qed.

Lemma run_status_back calls : forall rt vs rt',
  run_dispatches T arch ev calls rt = Done (vs, rt') ->
  perf_status rt' = PERF_STATUS_OK -> perf_status rt = PERF_STATUS_OK.
Proof.
  induction calls as [|d calls IH]; intros rt vs rt' H Hs'.
  - inv H. exact Hs'.
  - cbn [run_dispatches] in H. unfold bind in H.
    destruct (py_trampoline_evaluator T arch ev (dc_os d) (dc_ts d) (dc_frame d)
                (dc_throw d) rt) as [[v rt1]|] eqn:E1; [|discriminate].
    destruct (run_dispatches T arch ev calls rt1) as [[vs1 rt2]|] eqn:E2;
      [|discriminate].
    inv H. eapply dispatch_status_back; [exact E1|]. eapply IH; eassumption.
Qed.

(** While the status is [PERF_STATUS_OK], a dispatch whose store
    succeeds calls the stub that the slot of its code object holds
    afterwards, if it holds one, and no stub for any other code
    object. *)
Lemma dispatch_stub_calls os ts frame throw rt v rt' :
  d_set_extra os = true ->
  perf_status rt = PERF_STATUS_OK ->
  py_trampoline_evaluator T arch ev os ts frame throw rt = Done (v, rt') ->
  forall c,
    stub_addrs_of c (history rt')
    = stub_addrs_of c (history rt)
        ++ (if co_addr (_PyFrame_GetCode frame) =? c
            then (if co_extra rt' c (extra_code_index rt') =? NULL then []
                  else [co_extra rt' c (extra_code_index rt')])
            else []).
Proof.
  intros Hset Hs H c. unfold py_trampoline_evaluator in H. rewrite Hs in H.
  unfold _PyCode_GetExtra, _PyFrame_GetCode in H |- *. cbn [Z.eqb negb orb] in H.
  set (co := f_code frame) in *. set (idx := extra_code_index rt) in *.
  destruct (Z.eqb_spec (co_extra rt (co_addr co) idx) NULL) as [Enull|Enn].
  - unfold bind in H.
    destruct (compile_trampoline T (d_arena os) rt) as [[p rt1]|] eqn:Ec;
      [|discriminate].
    apply compile_trampoline_effect in Ec.
    destruct Ec as (Hi1 & He1 & _ & es & Hh1 & Hes).
    destruct (Z.eqb_spec p NULL) as [Ep|Ep].
    + inv H. rewrite Hh1, stub_addrs_of_app, Hi1, He1.
      destruct (Hes c) as [_ ->]. rewrite app_nil_r. fold idx.
      destruct (Z.eqb_spec (co_addr co) c) as [<-|Hne].
      * rewrite Enull. cbn [Z.eqb NULL]. rewrite app_nil_r. reflexivity.
      * rewrite app_nil_r. reflexivity.
    + destruct (perf_code_arena rt1) as [|head prev]; [discriminate|].
      destruct (call_write arch (d_write os) p (code_size head) co rt1)
        as [rt2|] eqn:Ew; [|discriminate].
      apply call_write_effect in Ew.
      destruct Ew as (s & _ & Hh2 & _ & Hi2 & _ & He2 & _).
      unfold _PyCode_SetExtra, run_stub in H. rewrite Hset in H. inv H.
      cbn [extra_code_index set_co_extra record_call set_history co_extra history].
      fold co. rewrite Hh2, Hh1, !stub_addrs_of_app.
      destruct (Hes c) as [_ ->].
      cbn [stub_addrs_of flat_map]. rewrite !app_nil_r.
      rewrite Z.eqb_refl, andb_true_r.
      destruct (Z.eqb_spec (co_addr co) c) as [<-|Hne].
      * rewrite Z.eqb_refl. destruct (Z.eqb_spec p NULL); [contradiction|reflexivity].
      * reflexivity.
  - unfold run_stub in H. inv H.
    cbn [extra_code_index record_call set_history co_extra history].
    fold co idx. rewrite stub_addrs_of_app.
    cbn [stub_addrs_of flat_map]. rewrite !app_nil_r.
    destruct (Z.eqb_spec (co_addr co) c) as [<-|Hne]; [|reflexivity].
    destruct (Z.eqb_spec (co_extra rt (co_addr co) idx) NULL);
      [contradiction|reflexivity].
Qed.

(** Once the slot of [c] holds [p], every dispatch of [c] calls [p]. *)
Lemma run_stub_calls calls : forall rt vs rt' c p,
  slots_consistent rt ->
  Forall (fun x => d_set_extra (dc_os x) = true) calls ->
  run_dispatches T arch ev calls rt = Done (vs, rt') ->
  perf_status rt' = PERF_STATUS_OK ->
  co_extra rt c (extra_code_index rt) = p -> p <> NULL ->
  stub_addrs_of c (history rt')
  = stub_addrs_of c (history rt) ++ repeat p (dispatches_of c calls).
Proof.
  induction calls as [|d calls IH]; intros rt vs rt' c p Hc Hall H Hs' Hp Hnn.
  - inv H. cbn. rewrite app_nil_r. reflexivity.
  - cbn [run_dispatches] in H. unfold bind in H.
    destruct (py_trampoline_evaluator T arch ev (dc_os d) (dc_ts d) (dc_frame d)
                (dc_throw d) rt) as [[v rt1]|] eqn:E1; [|discriminate].
    destruct (run_dispatches T arch ev calls rt1) as [[vs1 rt2]|] eqn:E2;
      [|discriminate].
    inv H. apply Forall_cons_iff in Hall. destruct Hall as [Hd Hall].
    pose proof (run_status_back calls rt1 vs1 rt' E2 Hs') as Hs1.
    pose proof (dispatch_status_back _ _ _ _ _ _ _ E1 Hs1) as Hs0.
    pose proof (dispatch_stub_calls _ _ _ _ _ _ _ Hd Hs0 E1 c) as Hstub.
    destruct (dispatch_step T arch ev _ _ _ _ _ _ _ Hc Hd E1) as (Hc1 & Hi1 & _ & Hk1).
    specialize (Hk1 c Hnn).
    rewrite (IH rt1 vs1 rt' c (co_extra rt c (extra_code_index rt)) Hc1 Hall E2 Hs'
               Hk1 Hnn).
    rewrite Hstub, Hk1, <- app_assoc. f_equal.
    unfold dispatches_of. cbn [filter].
    destruct (co_addr (_PyFrame_GetCode (dc_frame d)) =? c).
    + destruct (Z.eqb_spec (co_extra rt c (extra_code_index rt)) NULL);
        [contradiction|reflexivity].
    + reflexivity.
Qed.

(** The dispatch that gets a stub for a code object whose slot is NULL
    stores the stub's address in the slot. *)
Lemma dispatch_stores_the_stub os ts frame throw rt p rt1 v rt' :
  d_set_extra os = true ->
  perf_status rt = PERF_STATUS_OK ->
  co_extra rt (co_addr (_PyFrame_GetCode frame)) (extra_code_index rt) = NULL ->
  compile_trampoline T (d_arena os) rt = Done (p, rt1) ->
  p <> NULL ->
  py_trampoline_evaluator T arch ev os ts frame throw rt = Done (v, rt') ->
  co_extra rt' (co_addr (_PyFrame_GetCode frame)) (extra_code_index rt') = p.
Proof.
  intros Hset Hs Hn Hcomp Hp H. unfold py_trampoline_evaluator in H.
  rewrite Hs in H. unfold _PyCode_GetExtra in H. rewrite Hn, Hcomp in H.
  cbn [Z.eqb negb orb NULL bind] in H.
  destruct (Z.eqb_spec p NULL); [contradiction|].
  destruct (perf_code_arena rt1) as [|head prev]; [discriminate|].
  unfold bind in H.
  destruct (call_write arch (d_write os) p (code_size head) (_PyFrame_GetCode frame)
              rt1) as [rt2|]; [|discriminate].
  unfold _PyCode_SetExtra, run_stub in H. rewrite Hset in H. inv H.
  cbn. rewrite !Z.eqb_refl. reflexivity.
Qed.

(** C6: over any sequence of dispatches whose extra-slot stores
    succeed, started from a runtime whose slots agree with its history,
    every code object has at most one address announced to the sink,
    every stub called for it is the one its slot holds, and a slot that
    is set is never changed nor announced again.  And the slot does get
    set: at the first dispatch of a code object that gets a stub (its
    slot is still NULL and [compile_trampoline] gives an address [p]
    that is not NULL), [p] is stored in the slot; from then on to the
    end of the run the slot holds [p], the sink has been told [p] and
    nothing else for this code object, once, and, the trampoline still
    being active at the end, this dispatch and each of the [K] later
    dispatches of the code object called the stub at [p]. *)
Theorem one_trampoline_per_code_object calls rt vs rt' :
  slots_consistent rt ->
  Forall (fun c => d_set_extra (dc_os c) = true) calls ->
  run_dispatches T arch ev calls rt = Done (vs, rt') ->
  (forall c,
     let slot := co_extra rt c (extra_code_index rt) in
     let slot' := co_extra rt' c (extra_code_index rt') in
     (List.length (write_addrs_of c (history rt')) <= 1)%nat /\
     (slot' <> NULL -> write_addrs_of c (history rt') = [slot']) /\
     (forall f, In f (stub_addrs_of c (history rt')) -> f = slot' /\ f <> NULL) /\
     (slot <> NULL ->
        slot' = slot /\
        write_addrs_of c (history rt') = write_addrs_of c (history rt))) /\
  (forall pre d post vs0 rt0 p rt1,
     let c := co_addr (_PyFrame_GetCode (dc_frame d)) in
     calls = pre ++ d :: post ->
     run_dispatches T arch ev pre rt = Done (vs0, rt0) ->
     perf_status rt0 = PERF_STATUS_OK ->
     co_extra rt0 c (extra_code_index rt0) = NULL ->
     compile_trampoline T (d_arena (dc_os d)) rt0 = Done (p, rt1) ->
     p <> NULL ->
     co_extra rt' c (extra_code_index rt') = p /\
     write_addrs_of c (history rt') = [p] /\
     (perf_status rt' = PERF_STATUS_OK ->
      stub_addrs_of c (history rt') = repeat p (S (dispatches_of c post)))).
Proof.
  intros Hc Hall H.
  destruct (run_dispatches_invariant T arch ev calls rt vs rt' Hc Hall H)
    as (Hc' & Hi & _ & Hk).
  split.
  - intros c slot slot'.
    pose proof (Hc' c) as Hc'c. cbn zeta in Hc'c. fold slot' in Hc'c.
    destruct Hc'c as [Hw Hs].
    split; [|split; [|split]].
    + rewrite Hw. destruct (slot' =? NULL); simpl; lia.
    + intros Hnn. rewrite Hw.
      destruct (Z.eqb_spec slot' NULL); [contradiction|reflexivity].
    + exact Hs.
    + intros Hnn. specialize (Hk c Hnn). fold slot slot' in Hk. split; [exact Hk|].
      rewrite Hw. pose proof (Hc c) as Hcc. cbn zeta in Hcc. fold slot in Hcc.
      destruct Hcc as [-> _]. rewrite Hk. reflexivity.
  - intros pre d post vs0 rt0 p rt1 c Hcalls Hpre Hs0 Hnull Hcomp Hp.
    subst calls.
    destruct (run_dispatches_split pre (d :: post) rt vs rt' H)
      as (vs1 & rta & vs2 & E1 & E2 & _).
    rewrite Hpre in E1. inv E1.
    apply Forall_app in Hall. destruct Hall as [Hallpre Hall].
    apply Forall_cons_iff in Hall. destruct Hall as [Hd Hallpost].
    destruct (run_dispatches_invariant T arch ev pre rt vs1 rta Hc Hallpre Hpre)
      as (Hc0 & _).
    cbn [run_dispatches] in E2. unfold bind in E2.
    destruct (py_trampoline_evaluator T arch ev (dc_os d) (dc_ts d) (dc_frame d)
                (dc_throw d) rta) as [[v rtd]|] eqn:Ed; [|discriminate].
    destruct (run_dispatches T arch ev post rtd) as [[vs3 rte]|] eqn:Ep;
      [|discriminate].
    inv E2.
    pose proof (dispatch_stores_the_stub _ _ _ _ _ _ _ _ _ Hd Hs0 Hnull Hcomp Hp Ed)
      as Hslot.
    fold c in Hslot.
    destruct (dispatch_step T arch ev _ _ _ _ _ _ _ Hc0 Hd Ed) as (Hcd & _).
    destruct (run_dispatches_invariant T arch ev post rtd vs3 rt' Hcd Hallpost Ep)
      as (Hce & _ & _ & Hke).
    assert (co_extra rt' c (extra_code_index rt') = p) as Hslot'.
    { rewrite (Hke c) by (rewrite Hslot; exact Hp). exact Hslot. }
    split; [exact Hslot'|]. split.
    + destruct (Hce c) as [Hw _]. rewrite Hw, Hslot'.
      destruct (Z.eqb_spec p NULL); [contradiction|reflexivity].
    + intros Hs'.
      rewrite (run_stub_calls post rtd vs3 rt' c p Hcd Hallpost Ep Hs' Hslot Hp).
      rewrite (dispatch_stub_calls _ _ _ _ _ _ _ Hd Hs0 Ed c).
      fold c. rewrite Z.eqb_refl, Hslot.
      destruct (Z.eqb_spec p NULL); [contradiction|].
      assert (stub_addrs_of c (history rta) = []) as ->.
      { destruct (Hc0 c) as [_ Hst]. rewrite Hnull in Hst.
        destruct (stub_addrs_of c (history rta)) as [|f l]; [reflexivity|].
        destruct (Hst f (or_introl eq_refl)) as [-> Hf]. contradiction. }
      reflexivity.
Qed.
End OneTrampoline.

(** ** Dispatch runs to its end with the perf-map sink *)

Section Totality.
Variable T : list Z.
Variable arch : target_arch.
Variable ev : Z -> _PyInterpreterFrame -> Z -> Z.

Lemma new_code_arena_returns os rt :
  chunk_size_of (template_code_size T) (code_padding (trampoline_api rt)) <> 0 ->
  exists res rt1, new_code_arena T os rt = Done (res, rt1).
Proof.
  intros Hchunk. unfold new_code_arena.
  destruct (os_mmap os); [|eauto].
  cbn [trampoline_api set_memory record_call set_history].
  destruct (Z.eqb_spec (chunk_size_of (template_code_size T) (code_padding (trampoline_api rt))) 0);
    [contradiction|].
  destruct (os_mprotect os =? -1); [eauto|].
  destruct (os_calloc os); cbn [negb]; eauto.
Qed.

Lemma compile_trampoline_returns os rt :
  perfmap_ready T rt ->
  exists p rt1,
    compile_trampoline T os rt = Done (p, rt1) /\ perfmap_ready T rt1.
Proof.
  intros (Ha & Hw & Hchunk). unfold compile_trampoline.
  destruct (perf_code_arena rt) as [|head prev] eqn:Ea; [contradiction|].
  cbn [is_NULL_arena orb].
  destruct (size_left head <=? chunk_size_of (code_size head) (code_padding (trampoline_api rt))).
  - destruct (new_code_arena_returns os rt Hchunk) as (res & rt1 & E).
    rewrite E. cbn [bind].
    apply new_code_arena_effect in E.
    destruct E as (_ & _ & Hapi & _ & Hcase).
    assert (perfmap_ready T rt1) as Hr1.
    { unfold perfmap_ready. rewrite Hapi. repeat split; auto.
      destruct Hcase as [(_ & _ & a & ->)|(_ & ->)]; [discriminate|].
      rewrite Ea. discriminate. }
    destruct (res <? 0); [eauto|].
    destruct Hr1 as (Ha1 & Hw1 & Hc1).
    destruct (perf_code_arena rt1) as [|h1 p1] eqn:Ea1; [contradiction|].
    do 2 eexists. split; [reflexivity|]. unfold perfmap_ready. cbn.
    repeat split; auto. discriminate.
  - cbn [bind]. rewrite Ea.
    do 2 eexists. split; [reflexivity|]. unfold perfmap_ready. cbn.
    repeat split; auto. discriminate.
Qed.

Lemma dispatch_returns os ts frame throw rt :
  perfmap_ready T rt ->
  exists v rt',
    py_trampoline_evaluator T arch ev os ts frame throw rt = Done (v, rt') /\
    perfmap_ready T rt'.
Proof.
  intros Hr. unfold py_trampoline_evaluator.
  destruct (perf_status rt); [eauto|eauto|].
  unfold _PyCode_GetExtra. cbn [Z.eqb negb orb].
  destruct (co_extra rt (co_addr (_PyFrame_GetCode frame)) (extra_code_index rt) =? NULL).
  - destruct (compile_trampoline_returns (d_arena os) rt Hr) as (p & rt1 & E & Hr1).
    rewrite E. cbn [bind].
    destruct (p =? NULL); [eauto|].
    destruct Hr1 as (Ha1 & Hw1 & Hc1).
    destruct (perf_code_arena rt1) as [|h1 p1] eqn:Ea1; [contradiction|].
    unfold call_write. rewrite Hw1. cbn [bind].
    unfold _PyCode_SetExtra, run_stub, perf_map_write_entry.
    destruct (d_set_extra os), (wr_malloc (d_write os)); cbn [negb];
      do 2 eexists; (split; [reflexivity|]); unfold perfmap_ready; cbn;
      rewrite Ea1; repeat split; auto; discriminate.
  - unfold run_stub. do 2 eexists. split; [reflexivity|].
    destruct Hr as (Ha & Hw & Hc). unfold perfmap_ready. cbn. auto.
Qed.

(** Every sequence of dispatches over such a runtime runs to its end. *)
Lemma run_dispatches_returns calls : forall rt,
  perfmap_ready T rt ->
  exists vs rt', run_dispatches T arch ev calls rt = Done (vs, rt').
Proof.
  induction calls as [|d calls IH]; intros rt Hr; cbn [run_dispatches].
  - eauto.
  - destruct (dispatch_returns (dc_os d) (dc_ts d) (dc_frame d) (dc_throw d) rt Hr)
      as (v & rt1 & E & Hr1).
    rewrite E. cbn [bind].
    destruct (IH rt1 Hr1) as (vs & rt' & E').
    rewrite E'. cbn [bind]. eauto.
Qed.
End Totality.


Lemma started_perfmap_consistent : slots_consistent started_perfmap.
Proof. intros c. vm_compute. split; [reflexivity|intros f []]. Qed.

Lemma three_calls_set_extra :
  Forall (fun c => d_set_extra (dc_os c) = true) three_calls.
Proof. repeat constructor. Qed.

Lemma three_calls_done :
  is_done (run_dispatches (nop_template 96) X86_64 eval_stub three_calls
             started_perfmap) = true.
Proof. vm_compute. reflexivity. Qed.

Lemma one_trampoline_per_code_object_witness :
  let final :=
    result_of
      (run_dispatches (nop_template 96) X86_64 eval_stub three_calls
         started_perfmap) ([], default_runtime) in
  let c := co_addr code_f in
  (List.length (write_addrs_of c (history (snd final))) <= 1)%nat /\
  co_extra (snd final) c (extra_code_index (snd final)) = 0x10000 /\
  write_addrs_of c (history (snd final)) = [0x10000] /\
  stub_addrs_of c (history (snd final)) = repeat 0x10000 3.
Proof.
  exact (let H :=
           one_trampoline_per_code_object (nop_template 96) X86_64 eval_stub
             three_calls started_perfmap
             (fst (result_of
                     (run_dispatches (nop_template 96) X86_64 eval_stub
                        three_calls started_perfmap)
                     ([], default_runtime)))
             (snd (result_of
                     (run_dispatches (nop_template 96) X86_64 eval_stub
                        three_calls started_perfmap)
                     ([], default_runtime)))
             started_perfmap_consistent three_calls_set_extra
             (done_pair _ ([], default_runtime) three_calls_done) in
         let L :=
           proj2 H [] (dispatch_of (arena_ok 0x20000) code_f)
             [dispatch_of (arena_ok 0x20000) code_g;
              dispatch_of (arena_ok 0x20000) code_f;
              dispatch_of (arena_ok 0x20000) code_f]
             [] started_perfmap 0x10000
             (snd (result_of
                     (compile_trampoline (nop_template 96) (arena_ok 0x20000)
                        started_perfmap)
                     (NULL, default_runtime)))
             eq_refl eq_refl
             ltac:(vm_compute; reflexivity)
             ltac:(vm_compute; reflexivity)
             (eq_trans
                (done_pair
                   (compile_trampoline (nop_template 96) (arena_ok 0x20000)
                      started_perfmap)
                   (NULL, default_runtime) ltac:(vm_compute; reflexivity))
                (f_equal
                   (fun q =>
                      Done (q, snd (result_of
                                      (compile_trampoline (nop_template 96)
                                         (arena_ok 0x20000) started_perfmap)
                                      (NULL, default_runtime))))
                   (ltac:(vm_compute; reflexivity)
                     : fst (result_of
                              (compile_trampoline (nop_template 96)
                                 (arena_ok 0x20000) started_perfmap)
                              (NULL, default_runtime)) = 0x10000)))
             ltac:(vm_compute; discriminate) in
         conj (proj1 (proj1 H (co_addr code_f)))
           (conj (proj1 L)
              (conj (proj1 (proj2 L))
                 (proj2 (proj2 L) ltac:(vm_compute; reflexivity))))).
Defined.

(** The same code object called three times among other calls: one sink
    write for it, and the same stub address at each of its calls. *)
Example three_calls_run :
  run_view (co_addr code_f)
    (run_dispatches (nop_template 96) X86_64 eval_stub three_calls
       started_perfmap)
  = Some ([0x5000 + 1000; 0x6000 + 1000; 0x5000 + 1000; 0x5000 + 1000],
          [call_write_state perfmap_sink 0x10000 96 0x5000;
           call_write_state perfmap_sink (0x10000 + 96) 96 0x6000],
          [0x10000; 0x10000; 0x10000]).
Proof. vm_compute. reflexivity. Qed.



(** ** Arenas *)

Section Arena.
Variable T : list Z.
Variable arch : target_arch.

(** When the head arena has more than one stub's worth left, the stub
    is the cursor of the head arena and nothing is mapped. *)
Lemma compile_trampoline_from_head os rt head prev :
  perf_code_arena rt = head :: prev ->
  chunk_size_of (code_size head) (code_padding (trampoline_api rt)) < size_left head ->
  compile_trampoline T os rt
  = Done (current_addr head,
          set_perf_code_arena
            (snd (code_arena_new_code (code_padding (trampoline_api rt)) head) :: prev) rt).
Proof.
  intros Ea Hlt. unfold compile_trampoline. rewrite Ea.
  cbn [is_NULL_arena orb].
  destruct (Z.leb_spec (size_left head)
              (chunk_size_of (code_size head) (code_padding (trampoline_api rt)))); [lia|].
  cbn [bind]. rewrite Ea. reflexivity.
Qed.

(** Otherwise, the head arena included when it has exactly one stub's
    worth left, a new arena is asked for first. *)
Lemma compile_trampoline_needs_arena os rt head prev :
  perf_code_arena rt = head :: prev ->
  size_left head <= chunk_size_of (code_size head) (code_padding (trampoline_api rt)) ->
  compile_trampoline T os rt
  = ('(res, rt1) <- new_code_arena T os rt ;;
     if res <? 0 then Done (NULL, rt1) else
     match perf_code_arena rt1 with
     | [] => Fault NullDereference
     | head1 :: prev1 =>
         Done (current_addr head1,
               set_perf_code_arena
                 (snd (code_arena_new_code (code_padding (trampoline_api rt1)) head1) :: prev1)
                 rt1)
     end).
Proof.
  intros Ea Hle. unfold compile_trampoline. rewrite Ea.
  cbn [is_NULL_arena orb].
  destruct (Z.leb_spec (size_left head)
              (chunk_size_of (code_size head) (code_padding (trampoline_api rt)))); [|lia].
  unfold bind. destruct (new_code_arena T os rt) as [[res rt1]|]; [|reflexivity].
  destruct (res <? 0); [reflexivity|].
  destruct (perf_code_arena rt1); reflexivity.
Qed.

(** The three ways [new_code_arena] fails. *)
Lemma new_code_arena_mmap_failure os rt :
  os_mmap os = None ->
  new_code_arena T os rt
  = Done (-1, set_perf_status PERF_STATUS_FAILED (record_call (call_mmap None) rt)).
Proof. intros E. unfold new_code_arena. rewrite E. reflexivity. Qed.

Lemma new_code_arena_late_failure os rt m :
  os_mmap os = Some m ->
  os_mprotect os = -1 \/ os_calloc os = false ->
  chunk_size_of (template_code_size T) (code_padding (trampoline_api rt)) <> 0 ->
  exists rt',
    new_code_arena T os rt = Done (-1, rt') /\
    perf_status rt' = perf_status rt /\
    perf_code_arena rt' = perf_code_arena rt /\
    co_extra rt' = co_extra rt /\
    history rt' = history rt ++ [call_mmap (Some m); call_munmap m].
Proof.
  intros Em Hfail Hchunk. unfold new_code_arena. rewrite Em.
  cbn [trampoline_api set_memory record_call set_history].
  destruct (Z.eqb_spec (chunk_size_of (template_code_size T) (code_padding (trampoline_api rt))) 0);
    [contradiction|].
  destruct (Z.eqb_spec (os_mprotect os) (-1)).
  - eexists. split; [reflexivity|]. cbn. rewrite <- app_assoc. repeat split.
  - destruct Hfail as [?|Hc]; [contradiction|]. rewrite Hc. cbn [negb].
    eexists. split; [reflexivity|]. cbn. rewrite <- app_assoc. repeat split.
Qed.
End Arena.

Section CompileCode.
Variable T : list Z.
Variable arch : target_arch.

Lemma compile_trampoline_arena os rt p rt1 :
  compile_trampoline T os rt = Done (p, rt1) -> p <> NULL ->
  exists head1 prev1, perf_code_arena rt1 = head1 :: prev1.
Proof.
  unfold compile_trampoline, bind. intros H Hp.
  destruct (perf_code_arena rt) as [|head prev] eqn:Ea; [discriminate|].
  destruct (is_NULL_arena (head :: prev)
            || (size_left head <=? chunk_size_of (code_size head) (code_padding (trampoline_api rt)))).
  - destruct (new_code_arena T os rt) as [[res rt2]|]; [|discriminate].
    destruct (res <? 0); [inv H; contradiction|].
    destruct (perf_code_arena rt2) as [|h2 p2]; [discriminate|].
    inv H. cbn. eauto.
  - rewrite Ea in H. inv H. cbn. eauto.
Qed.

End CompileCode.


(** C1, at the failing input: a template of 128 bytes and no padding
    give stubs of 128 bytes, 512 of which fill an arena exactly.  The
    first 511 acquisitions come from the first arena; the 512th finds
    [size_left = 128], maps a second arena and returns its base, leaving
    the last pre-filled stub of the first arena unused. *)
Theorem exact_fill_maps_a_new_arena_early :
  slots_view
    (acquire_slots (nop_template 128) (repeat (arena_ok 0x20000) 512)
       (runtime_of (started 128 (Some perfmap_sink)) default_runtime))
  = Some (map (fun i => 0x10000 + 128 * Z.of_nat i) (seq 0 511) ++ [0x20000],
          [ (0x20000, 0x20000 + 128, 65536 - 128);
            (0x10000, 0x10000 + 511 * 128, 128) ],
          [call_mmap (Some 0x10000); call_mmap (Some 0x20000)]).
Proof. vm_compute. reflexivity. Qed.

(** C5, at the failing input: with no arena in the list the first
    statement of [compile_trampoline] reads a field of the NULL head,
    whatever the operating system would answer; the public entry point
    reaches it on a runtime that was never initialised. *)
Theorem absent_head_arena_is_dereferenced
    (T : list Z) (arch : target_arch) (os : dispatch_os) (co : PyCodeObject)
    (cb : option sink) (rt : runtime) :
  compile_trampoline T (d_arena os) (set_perf_code_arena [] rt)
  = Fault NullDereference /\
  PyUnstable_PerfTrampoline_CompileCode T arch os co (fresh_runtime cb)
  = Fault NullDereference.
Proof. split; reflexivity. Qed.

(** While the status is not [PERF_STATUS_OK] a dispatch is the default
    evaluator and nothing else. *)
Lemma dispatch_when_not_ok (T : list Z) (arch : target_arch)
    (ev : Z -> _PyInterpreterFrame -> Z -> Z) os ts frame throw rt :
  perf_status rt <> PERF_STATUS_OK ->
  py_trampoline_evaluator T arch ev os ts frame throw rt
  = Done (ev ts frame throw, rt).
Proof.
  intros H. unfold py_trampoline_evaluator.
  destruct (perf_status rt); [reflexivity|reflexivity|contradiction].
Qed.

(** C2, at the failing inputs: the arena is used up and the next
    dispatch needs a new one.  When [mprotect] fails, or the allocation
    of the bookkeeping record, the dispatch falls back to the default
    evaluator but the status stays [PERF_STATUS_OK], and the next
    dispatch maps and compiles again; only the [mmap] failure sets
    [PERF_STATUS_FAILED]. *)
Theorem late_arena_failure_keeps_status_ok :
  let dispatch os rt :=
    py_trampoline_evaluator (nop_template 96) X86_64 eval_stub os 1
      (frame_of code_f) 0 rt in
  ( dispatch_view (dispatch os_mprotect_fails exhausted),
    dispatch_view (dispatch os_calloc_fails exhausted),
    dispatch_view (dispatch os_mmap_fails exhausted),
    dispatch_view
      ('(_, rt) <- dispatch os_mprotect_fails exhausted ;; dispatch os_ok rt) )
  = ( Some (eval_stub 1 (frame_of code_f) 0, PERF_STATUS_OK, 1%nat, []),
      Some (eval_stub 1 (frame_of code_f) 0, PERF_STATUS_OK, 1%nat, []),
      Some (eval_stub 1 (frame_of code_f) 0, PERF_STATUS_FAILED, 1%nat, []),
      Some (eval_stub 1 (frame_of code_f) 0, PERF_STATUS_OK, 2%nat,
            [call_write_state perfmap_sink 0x20000 96 0x5000]) ).
Proof. vm_compute. reflexivity. Qed.

Example exhausted_arena :
  arena_view exhausted = [(0x10000, 0x10000 + 682 * 96, 64)]
  /\ perf_status exhausted = PERF_STATUS_OK.
Proof. vm_compute. split; reflexivity. Qed.

(** ** Lifecycle *)

Lemma jit_fini_effect rt :
  perf_map (perf_jit_map_state rt) <> FILE_closed ->
  exists rt1,
    perf_map_jit_fini rt = Done (0, rt1) /\
    sink_frame rt rt1 /\
    state (trampoline_api rt1) = state_NULL /\
    code_padding (trampoline_api rt1) = code_padding (trampoline_api rt) /\
    perf_trampoline_type rt1 = perf_trampoline_type rt.
Proof.
  intros Hc. unfold perf_map_jit_fini.
  destruct (perf_map (perf_jit_map_state rt)); [| |contradiction];
    (eexists; split; [reflexivity|]; repeat split).
Qed.

Lemma call_free_effect rt s :
  free_state (trampoline_api rt) = Some s ->
  (s = jitdump_sink -> perf_map (perf_jit_map_state rt) <> FILE_closed) ->
  exists rt1,
    call_free rt = Done (0, rt1) /\
    perf_status rt1 = perf_status rt /\
    extra_code_index rt1 = extra_code_index rt /\
    perf_code_arena rt1 = perf_code_arena rt /\
    co_extra rt1 = co_extra rt /\
    eval_frame rt1 = eval_frame rt /\
    persist_after_fork rt1 = persist_after_fork rt /\
    init_state (trampoline_api rt1) = init_state (trampoline_api rt) /\
    code_padding (trampoline_api rt1) = code_padding (trampoline_api rt) /\
    history rt1 = history rt ++ [call_free_state s] /\
    state (trampoline_api rt1)
    = match s with
      | jitdump_sink => state_NULL
      | perfmap_sink => state (trampoline_api rt)
      end.
Proof.
  intros Ef Hc. unfold call_free. rewrite Ef. destruct s.
  - eexists. split; [reflexivity|]. repeat split.
  - destruct (jit_fini_effect (record_call (call_free_state jitdump_sink) rt))
      as (rt1 & E & [] & Hs & Hp & _); [apply Hc; reflexivity|].
    exists rt1. split; [exact E|]. cbn in *. repeat split; congruence.
Qed.

Lemma Fini_effect rt s :
  perf_status rt = PERF_STATUS_OK ->
  free_state (trampoline_api rt) = Some s ->
  (s = jitdump_sink -> perf_map (perf_jit_map_state rt) <> FILE_closed) ->
  exists rt1,
    _PyPerfTrampoline_Fini rt = Done (0, rt1) /\
    perf_status rt1 = PERF_STATUS_NO_INIT /\
    extra_code_index rt1 = -1 /\
    perf_trampoline_type rt1 = PERF_TRAMPOLINE_UNSET /\
    eval_frame rt1
    = (if is_py_trampoline_evaluator (eval_frame rt) then eval_NULL
       else eval_frame rt) /\
    perf_code_arena rt1 = perf_code_arena rt /\
    co_extra rt1 = co_extra rt /\
    persist_after_fork rt1 = persist_after_fork rt /\
    init_state (trampoline_api rt1) = init_state (trampoline_api rt) /\
    code_padding (trampoline_api rt1) = code_padding (trampoline_api rt) /\
    history rt1 = history rt ++ [call_free_state s] /\
    state (trampoline_api rt1)
    = match s with
      | jitdump_sink => state_NULL
      | perfmap_sink => state (trampoline_api rt)
      end.
Proof.
  intros Hs Ef Hc. unfold _PyPerfTrampoline_Fini. rewrite Hs.
  set (rt0 := if is_py_trampoline_evaluator (eval_frame rt)
              then _PyInterpreterState_SetEvalFrameFunc eval_NULL rt else rt).
  assert (free_state (trampoline_api rt0) = Some s /\
          perf_map (perf_jit_map_state rt0) = perf_map (perf_jit_map_state rt) /\
          extra_code_index rt0 = extra_code_index rt /\
          perf_code_arena rt0 = perf_code_arena rt /\
          co_extra rt0 = co_extra rt /\
          persist_after_fork rt0 = persist_after_fork rt /\
          trampoline_api rt0 = trampoline_api rt /\
          history rt0 = history rt /\
          eval_frame rt0 = (if is_py_trampoline_evaluator (eval_frame rt) then eval_NULL
                            else eval_frame rt))
    as (Ef0 & Ep0 & Hi0 & Ha0 & He0 & Hp0 & Hapi0 & Hh0 & Hev0).
  { subst rt0. destruct (is_py_trampoline_evaluator (eval_frame rt)); cbn; repeat split; auto. }
  destruct (call_free_effect rt0 s Ef0) as (rt1 & E & H1 & H2 & H3 & H4 & H5 & H6 & H7 & H8 & H9 & H10).
  { intros Hj. rewrite Ep0. auto. }
  rewrite E. cbn [bind]. eexists. split; [reflexivity|]. cbn.
  rewrite Hapi0 in *. repeat split; congruence.
Qed.

Section Lifecycle.
Variable T : list Z.




End Lifecycle.



(** With [persist_after_fork] clear the same runtime is torn down and
    brought up again. *)
Example after_fork_restart_jitdump :
  fork_view
    (_PyPerfTrampoline_AfterFork_Child (nop_template 96)
       (fork_with (arena_ok 0x30000)) started_jit)
  = Some (PyStatus_Ok,
          (PERF_STATUS_OK, eval_py_trampoline_evaluator, 0,
           [(0x30000, 0x30000, 65536); (0x10000, 0x10000, 65536)],
           [call_mmap (Some 0x10000); call_init_state jitdump_sink;
            call_free_state jitdump_sink; call_mmap (Some 0x30000);
            call_init_state jitdump_sink],
           FILE_open, state_jit)).
Proof. vm_compute. reflexivity. Qed.

(** ** Jitdump records *)

Lemma zlength_app (a b : list Z) : zlength (a ++ b) = zlength a + zlength b.
Proof. unfold zlength. rewrite length_app. lia. Qed.

Lemma zlength_nonneg (a : list Z) : 0 <= zlength a.
Proof. unfold zlength. lia. Qed.

Lemma length_le_bytes n v : List.length (le_bytes n v) = n.
Proof. revert v. induction n; intros v; simpl; auto. Qed.

Lemma zlength_le_bytes n v : zlength (le_bytes n v) = Z.of_nat n.
Proof. unfold zlength. rewrite length_le_bytes. reflexivity. Qed.

Lemma zlength_repeat (x : Z) n : zlength (repeat x n) = Z.of_nat n.
Proof. unfold zlength. rewrite repeat_length. reflexivity. Qed.

Lemma le_value_le_bytes n v :
  le_value (le_bytes n v) = v mod 2 ^ (8 * Z.of_nat n).
Proof.
  revert v. induction n as [|n IH]; intros v.
  - simpl. rewrite Z.mod_1_r. reflexivity.
  - cbn [le_bytes le_value]. rewrite IH.
    replace (8 * Z.of_nat (S n)) with (8 + 8 * Z.of_nat n) by lia.
    rewrite Z.pow_add_r by lia. change (2 ^ 8) with 256.
    rewrite Z.rem_mul_r by lia. reflexivity.
Qed.

Lemma zlength_alignnop s p : 0 < s -> zlength (DWRF_ALIGNNOP s p) = (- p) mod s.
Proof.
  intros Hs. unfold DWRF_ALIGNNOP. rewrite zlength_repeat.
  pose proof (Z.mod_pos_bound (- p) s Hs). lia.
Qed.

Lemma zlength_cie_body arch p :
  zlength (cie_body arch p) = 18 + (- (p + 18)) mod 8.
Proof.
  unfold cie_body. cbv zeta.
  match goal with
  | |- zlength (?f ++ _) = _ =>
      assert (zlength f = 18) as Hf by (destruct arch; vm_compute; reflexivity);
      rewrite zlength_app, Hf
  end.
  rewrite zlength_alignnop by (unfold sizeof_uintptr_t; lia). reflexivity.
Qed.

Lemma zlength_fde_cfi arch :
  zlength (fde_cfi arch) = match arch with X86_64 => 6 | AArch64 => 12 end.
Proof. destruct arch; vm_compute; reflexivity. Qed.

Lemma zlength_fde_body arch framep p code_size :
  let n := 13 + match arch with X86_64 => 6 | AArch64 => 12 end in
  zlength (fde_body arch framep p code_size) = n + (- (p + n)) mod 8.
Proof.
  unfold fde_body. cbv zeta.
  match goal with
  | |- zlength (?f ++ _) = _ =>
      assert (zlength f = 13 + match arch with X86_64 => 6 | AArch64 => 12 end) as Hf
  end.
  { unfold DWRF_U32, DWRF_U8. rewrite !zlength_app, !zlength_le_bytes, zlength_fde_cfi.
    change (zlength [to_uint8 0]) with 1. destruct arch; lia. }
  rewrite zlength_app, Hf.
  rewrite zlength_alignnop by (unfold sizeof_uintptr_t; lia). reflexivity.
Qed.

Lemma zlength_section body : zlength (DWRF_SECTION body) = 4 + zlength body.
Proof. unfold DWRF_SECTION, DWRF_U32. rewrite zlength_app, zlength_le_bytes. lia. Qed.

(** The size of the [.eh_frame] the emitter builds in an empty buffer. *)
Lemma eh_frame_size_bounds arch startp code_size :
  let ctx :=
    elf_init_ehframe arch
      {| ctx_startp := startp; ctx_written := []; ctx_eh_frame_p := 0;
         ctx_code_size := code_size |} in
  ctx_startp ctx = startp /\
  45 <= ctx_p ctx - startp <= 65 /\
  22 <= ctx_eh_frame_p ctx - startp <= 29 /\
  ctx_p ctx - startp = zlength (ctx_written ctx).
Proof.
  cbv zeta. unfold elf_init_ehframe, ctx_p.
  cbn [ctx_startp ctx_written ctx_eh_frame_p ctx_code_size app].
  change (zlength []) with 0.
  rewrite !zlength_app, !zlength_section, zlength_cie_body, zlength_fde_body.
  cbv zeta.
  repeat match goal with
         | |- context [(- ?x) mod 8] =>
             let H := fresh in
             pose proof (Z.mod_pos_bound (- x) 8 ltac:(lia)) as H;
             generalize dependent ((- x) mod 8); intros
         end.
  destruct arch; lia.
Qed.

(** Reading the framing back from the bytes of the events. *)
Lemma code_load_fields ev rest :
  record_kind (CodeLoadEvent_bytes ev ++ rest) = event (cl_base ev) mod 2 ^ 32 /\
  record_size (CodeLoadEvent_bytes ev ++ rest) = base_size (cl_base ev) mod 2 ^ 32 /\
  record_code_id (CodeLoadEvent_bytes ev ++ rest) = cl_code_id ev mod 2 ^ 64.
Proof.
  split; [|split].
  - change (record_kind (CodeLoadEvent_bytes ev ++ rest))
      with (le_value (le_bytes 4 (event (cl_base ev)))).
    apply le_value_le_bytes.
  - change (record_size (CodeLoadEvent_bytes ev ++ rest))
      with (le_value (le_bytes 4 (base_size (cl_base ev)))).
    apply le_value_le_bytes.
  - change (record_code_id (CodeLoadEvent_bytes ev ++ rest))
      with (le_value (le_bytes 8 (cl_code_id ev))).
    apply le_value_le_bytes.
Qed.

Lemma unwinding_fields ev rest :
  record_kind (CodeUnwindingInfoEvent_bytes ev ++ rest) = event (ui_base ev) mod 2 ^ 32 /\
  record_size (CodeUnwindingInfoEvent_bytes ev ++ rest) = base_size (ui_base ev) mod 2 ^ 32.
Proof.
  split.
  - change (record_kind (CodeUnwindingInfoEvent_bytes ev ++ rest))
      with (le_value (le_bytes 4 (event (ui_base ev)))).
    apply le_value_le_bytes.
  - change (record_size (CodeUnwindingInfoEvent_bytes ev ++ rest))
      with (le_value (le_bytes 4 (base_size (ui_base ev)))).
    apply le_value_le_bytes.
Qed.

Lemma header_size_field h rest :
  field 8 4 (Header_bytes h ++ rest) = h_size h mod 2 ^ 32.
Proof.
  change (field 8 4 (Header_bytes h ++ rest)) with (le_value (le_bytes 4 (h_size h))).
  apply le_value_le_bytes.
Qed.

Lemma zlength_Header_bytes h : zlength (Header_bytes h) = 40.
Proof. reflexivity. Qed.
Lemma zlength_CodeLoadEvent_bytes ev : zlength (CodeLoadEvent_bytes ev) = 56.
Proof. reflexivity. Qed.
Lemma zlength_CodeUnwindingInfoEvent_bytes ev :
  zlength (CodeUnwindingInfoEvent_bytes ev) = 40.
Proof. reflexivity. Qed.
Lemma zlength_EhFrameHeader_bytes f : zlength (EhFrameHeader_bytes f) = 20.
Proof. reflexivity. Qed.

Lemma to_int32_small z : is_int32 z -> to_int32 z = z.
Proof. unfold is_int32, to_int32. intros. rewrite Z.mod_small; lia. Qed.
Lemma to_uint32_small z : is_uint32 z -> to_uint32 z = z.
Proof. unfold is_uint32, to_uint32. intros. apply Z.mod_small; lia. Qed.
Lemma to_uint64_small z : 0 <= z < 2 ^ 64 -> to_uint64 z = z.
Proof. unfold to_uint64. intros. apply Z.mod_small; lia. Qed.

Lemma zlength_firstn_le (n : nat) (l : list Z) :
  (n <= List.length l)%nat -> zlength (firstn n l) = Z.of_nat n.
Proof. intros H. unfold zlength. rewrite length_firstn. lia. Qed.

Lemma zlength_concat4 (a b c d : list Z) :
  zlength (List.concat [a; b; c; d]) = zlength a + zlength b + zlength c + zlength d.
Proof.
  cbn [List.concat]. rewrite !zlength_app. change (zlength []) with 0. lia.
Qed.

Lemma zlength_concat3 (a b c : list Z) :
  zlength (List.concat [a; b; c]) = zlength a + zlength b + zlength c.
Proof.
  cbn [List.concat]. rewrite !zlength_app. change (zlength []) with 0. lia.
Qed.

Section Records.
Variable arch : target_arch.

(** The unwinding record: its kind, its size field against its length,
    the padding to a multiple of 8. *)
Lemma unwinding_record_size os code_size :
  let r := List.concat (unwinding_record arch os code_size) in
  record_kind r = PerfUnwindingInfo /\
  record_size r = zlength r /\
  zlength r mod 8 = 0 /\
  105 <= zlength r <= 128.
Proof.
  cbv zeta. unfold unwinding_record, unwinding_info.
  destruct (eh_frame_size_bounds arch (wr_buffer os) (to_uint32 code_size))
    as (Hstart & HE & _ & Hlen).
  cbv zeta in Hstart, HE, Hlen.
  set (ctx := elf_init_ehframe arch _) in *.
  rewrite Hstart in *.
  set (E := ctx_p ctx - wr_buffer os) in *.
  cbn [up_ev2 up_eh_frame up_f up_padding_size].
  unfold sizeof_EhFrameHeader, sizeof_CodeUnwindingInfoEvent.
  rewrite (to_int32_small E) by (unfold is_int32; lia).
  rewrite (to_int32_small (40 + 20 + E)) by (unfold is_int32; lia).
  rewrite (round_up_nonneg (40 + 20 + E) 8) by lia.
  set (R := 8 * ((40 + 20 + E + 8 - 1) / 8)).
  assert (40 + 20 + E <= R < 40 + 20 + E + 8 /\ R mod 8 = 0) as (HR & HR8).
  { subst R. split.
    - pose proof (Z.div_mod (40 + 20 + E + 8 - 1) 8 ltac:(lia)).
      pose proof (Z.mod_pos_bound (40 + 20 + E + 8 - 1) 8 ltac:(lia)). lia.
    - rewrite Z.mul_comm. apply Z.mod_mul. lia. }
  rewrite (to_int32_small (R - (40 + 20 + E))) by (unfold is_int32; lia).
  rewrite (to_uint32_small (40 + 20 + E + (R - (40 + 20 + E)))) by (unfold is_uint32; lia).
  assert (zlength (List.concat
     [CodeUnwindingInfoEvent_bytes
        {| ui_base := {| event := PerfUnwindingInfo;
                         base_size := 40 + 20 + E + (R - (40 + 20 + E));
                         time_stamp := wr_ticks_unwind os |};
           ui_unwind_data_size := to_uint64 (20 + E);
           ui_eh_frame_hdr_size := 20;
           ui_mapped_size := round_up (to_int64 (to_uint64 (20 + E))) 16 |};
      firstn (Z.to_nat E) (ctx_written ctx);
      EhFrameHeader_bytes
        {| eh_version := 1;
           eh_frame_ptr_enc := Z.lor DwarfSData4 DwarfPcRel;
           eh_fde_count_enc := DwarfUData4;
           eh_table_enc := Z.lor DwarfSData4 DwarfDataRel;
           eh_frame_ptr := to_int32 (- (E + 4 * 1));
           eh_fde_count := 1;
           eh_from := to_int32 (- (round_up code_size 8 + E));
           eh_to := to_int32 (- (E - to_int32 (ctx_eh_frame_p ctx - wr_buffer os))) |};
      firstn (Z.to_nat (R - (40 + 20 + E))) padding_bytes]) = R) as Hlen_r.
  { rewrite zlength_concat4, zlength_CodeUnwindingInfoEvent_bytes,
      zlength_EhFrameHeader_bytes.
    rewrite !zlength_firstn_le; [lia| |].
    - unfold padding_bytes. rewrite repeat_length. lia.
    - unfold zlength in Hlen. lia. }
  rewrite Hlen_r.
  cbn [List.concat].
  destruct (unwinding_fields
              {| ui_base := {| event := PerfUnwindingInfo;
                         base_size := 40 + 20 + E + (R - (40 + 20 + E));
                         time_stamp := wr_ticks_unwind os |};
           ui_unwind_data_size := to_uint64 (20 + E);
           ui_eh_frame_hdr_size := 20;
           ui_mapped_size := round_up (to_int64 (to_uint64 (20 + E))) 16 |}
              (firstn (Z.to_nat E) (ctx_written ctx) ++
               EhFrameHeader_bytes
        {| eh_version := 1;
           eh_frame_ptr_enc := Z.lor DwarfSData4 DwarfPcRel;
           eh_fde_count_enc := DwarfUData4;
           eh_table_enc := Z.lor DwarfSData4 DwarfDataRel;
           eh_frame_ptr := to_int32 (- (E + 4 * 1));
           eh_fde_count := 1;
           eh_from := to_int32 (- (round_up code_size 8 + E));
           eh_to := to_int32 (- (E - to_int32 (ctx_eh_frame_p ctx - wr_buffer os))) |} ++
               firstn (Z.to_nat (R - (40 + 20 + E))) padding_bytes ++ []))
    as [Hk Hs].
  rewrite Hk, Hs. cbn [event base_size ui_base].
  split; [reflexivity|]. split; [|split; [exact HR8|lia]].
  rewrite Z.mod_small by lia. lia.
Qed.
End Records.

Lemma c_str_le bs : (List.length (c_str bs) <= List.length bs)%nat.
Proof.
  induction bs as [|b bs IH]; simpl; [lia|].
  destruct (b =? 0); simpl; lia.
Qed.

Lemma zlength_read_memory mem base size :
  0 <= size -> zlength (read_memory mem base size) = size.
Proof.
  intros H. unfold read_memory, zlength. rewrite length_map, length_seq. lia.
Qed.

Lemma code_load_record_size os code_addr code_size entry id mem :
  let r := List.concat (code_load_record os code_addr code_size entry id mem) in
  zlength r = 56 + (strlen entry + 1) + to_uint64 code_size /\
  record_kind r = PerfLoad /\
  record_size r = zlength r mod 2 ^ 32 /\
  record_code_id r = to_uint64 id.
Proof.
  cbv zeta. unfold code_load_record.
  assert (0 <= to_uint64 code_size < 2 ^ 64) as Hsz
    by (unfold to_uint64; apply Z.mod_pos_bound; lia).
  assert (0 <= strlen entry) as Hn by (unfold strlen; lia).
  set (ev := code_load_event os code_addr code_size (strlen entry) id).
  assert (zlength (List.concat
            [CodeLoadEvent_bytes ev;
             firstn (Z.to_nat (strlen entry + 1)) (entry ++ [0]);
             read_memory mem (to_uint64 code_addr) (to_uint64 code_size)])
          = 56 + (strlen entry + 1) + to_uint64 code_size) as Hlen.
  { rewrite zlength_concat3, zlength_CodeLoadEvent_bytes, zlength_read_memory by lia.
    rewrite zlength_firstn_le; [lia|].
    rewrite length_app. cbn [List.length]. unfold strlen.
    pose proof (c_str_le entry). lia. }
  rewrite Hlen. cbn [List.concat].
  destruct (code_load_fields ev
              (firstn (Z.to_nat (strlen entry + 1)) (entry ++ [0]) ++
               read_memory mem (to_uint64 code_addr) (to_uint64 code_size) ++ []))
    as (Hk & Hs & Hi).
  rewrite Hk, Hs, Hi. subst ev. unfold code_load_event.
  cbn [cl_base event base_size cl_code_id]. unfold sizeof_CodeLoadEvent.
  split; [reflexivity|]. split; [reflexivity|]. split.
  - unfold to_uint32. apply Z.mod_mod. lia.
  - unfold to_uint64. apply Z.mod_mod. lia.
Qed.

Lemma write_all_open bufs : forall rt,
  perf_map (perf_jit_map_state rt) = FILE_open ->
  exists rt',
    write_all bufs rt = Done rt' /\
    jit_dump rt' = jit_dump rt ++ List.concat bufs /\
    perf_jit_map_state rt' = perf_jit_map_state rt /\
    memory rt' = memory rt /\
    trampoline_api rt' = trampoline_api rt.
Proof.
  induction bufs as [|b bufs IH]; intros rt Hopen.
  - exists rt. cbn. rewrite app_nil_r. repeat split.
  - cbn [write_all List.concat]. unfold perf_map_jit_write_fully. rewrite Hopen.
    destruct b as [|x b].
    + cbn [bind app]. apply IH. exact Hopen.
    + cbn [bind].
      destruct (IH (set_jit_dump (jit_dump rt ++ x :: b) rt) Hopen)
        as (rt' & E & Hd & Hj & Hm & Ha).
      exists rt'. split; [exact E|]. cbn in Hd, Hj, Hm, Ha.
      rewrite Hd, <- app_assoc. repeat split; assumption.
Qed.

Section Writer.
Variable arch : target_arch.

Lemma jit_write_records_open os code_addr code_size co rt :
  perf_map (perf_jit_map_state rt) = FILE_open ->
  wr_malloc os = true ->
  exists rt',
    jit_write_records arch os code_addr code_size co rt = Done rt' /\
    jit_dump rt'
    = jit_dump rt
        ++ List.concat (unwinding_record arch os code_size)
        ++ List.concat
             (code_load_record os code_addr code_size (perf_map_entry_of co)
                (to_int32 (code_id (perf_jit_map_state rt) + 1)) (memory rt)) /\
    perf_map (perf_jit_map_state rt') = FILE_open /\
    code_id (perf_jit_map_state rt') = to_int32 (code_id (perf_jit_map_state rt) + 1) /\
    memory rt' = memory rt.
Proof.
  intros Hopen Hm. unfold jit_write_records. rewrite Hm. cbn [negb].
  destruct (write_all_open (unwinding_record arch os code_size) rt Hopen)
    as (rt1 & E1 & Hd1 & Hj1 & Hm1 & _).
  rewrite E1. cbn [bind].
  set (rt2 := set_jit_code_id (to_int32 (code_id (perf_jit_map_state rt1) + 1)) rt1).
  destruct (write_all_open
              (code_load_record os code_addr code_size (perf_map_entry_of co)
                 (code_id (perf_jit_map_state rt2)) (memory rt2)) rt2)
    as (rt3 & E3 & Hd3 & Hj3 & Hm3 & _).
  { subst rt2. cbn. rewrite Hj1. exact Hopen. }
  exists rt3. split; [exact E3|].
  subst rt2. cbn in *. rewrite Hj1, Hm1 in *.
  rewrite Hd3, Hd1, <- app_assoc, Hj3, Hm3. repeat split; auto.
Qed.

Lemma jit_write_entry_open os code_addr code_size co rt :
  perf_map (perf_jit_map_state rt) = FILE_open ->
  perf_map_jit_write_entry arch os code_addr code_size co rt
  = jit_write_records arch os code_addr code_size co rt.
Proof. intros Hopen. unfold perf_map_jit_write_entry. rewrite Hopen. reflexivity. Qed.

(** C3 (amended): a write on an open dump appends the unwinding record
    and then the code-load record.  The unwinding record is as long as
    its size field says and that is a multiple of 8.  The code-load
    record is 56 bytes of event, the name with its NUL and the stub
    bytes, with no padding; its size field says so whenever the length
    fits the field's 32 bits. *)
Theorem jitdump_record_sizes os code_addr code_size co rt :
  perf_map (perf_jit_map_state rt) = FILE_open ->
  wr_malloc os = true ->
  let unwind := List.concat (unwinding_record arch os code_size) in
  let load :=
    List.concat
      (code_load_record os code_addr code_size (perf_map_entry_of co)
         (to_int32 (code_id (perf_jit_map_state rt) + 1)) (memory rt)) in
  (exists rt',
     perf_map_jit_write_entry arch os code_addr code_size co rt = Done rt' /\
     jit_dump rt' = jit_dump rt ++ unwind ++ load) /\
  (record_kind unwind = PerfUnwindingInfo /\
   record_size unwind = zlength unwind /\
   zlength unwind mod 8 = 0) /\
  (record_kind load = PerfLoad /\
   zlength load
   = sizeof_CodeLoadEvent + (strlen (perf_map_entry_of co) + 1)
     + to_uint64 code_size /\
   (zlength load < 2 ^ 32 -> record_size load = zlength load)).
Proof.
  intros Hopen Hm unwind load. split; [|split].
  - rewrite jit_write_entry_open by exact Hopen.
    destruct (jit_write_records_open os code_addr code_size co rt Hopen Hm)
      as (rt' & E & Hd & _).
    exists rt'. split; [exact E|exact Hd].
  - destruct (unwinding_record_size arch os code_size) as (Hk & Hs & H8 & _).
    repeat split; assumption.
  - destruct (code_load_record_size os code_addr code_size (perf_map_entry_of co)
                (to_int32 (code_id (perf_jit_map_state rt) + 1)) (memory rt))
      as (Hl & Hk & Hs & _).
    fold load in Hl, Hk, Hs.
    split; [exact Hk|]. split; [exact Hl|].
    intros Hfit. rewrite Hs. apply Z.mod_small.
    pose proof (zlength_nonneg load). lia.
Qed.
End Writer.

(** C3 as stated fails on the code-load record: one stub of 96 bytes
    written for [f] in [a.py] leaves an unwinding record of 112 bytes
    and a code-load record of 56 + 11 + 96 = 163 bytes, which its size
    field states and which is not a multiple of 8. *)
Lemma code_load_record_length_counterexample :
  records_view
    (jit_dump
       (result_of
          (perf_map_jit_write_entry X86_64 jit_write_ok 0x10000 96 code_f started_jit)
          default_runtime))
  = [(PerfUnwindingInfo, 112, 112, 0); (PerfLoad, 163, 163, 3)] /\
  163 mod 8 <> 0.
Proof. vm_compute. split; [reflexivity|discriminate]. Qed.

Lemma jitdump_record_sizes_witness :
  let unwind := List.concat (unwinding_record X86_64 jit_write_ok 96) in
  let load :=
    List.concat
      (code_load_record jit_write_ok 0x10000 96 (perf_map_entry_of code_f)
         (to_int32 (code_id (perf_jit_map_state started_jit) + 1))
         (memory started_jit)) in
  (exists rt',
     perf_map_jit_write_entry X86_64 jit_write_ok 0x10000 96 code_f started_jit
     = Done rt' /\
     jit_dump rt' = jit_dump started_jit ++ unwind ++ load) /\
  (record_kind unwind = PerfUnwindingInfo /\
   record_size unwind = zlength unwind /\
   zlength unwind mod 8 = 0) /\
  (record_kind load = PerfLoad /\
   zlength load
   = sizeof_CodeLoadEvent + (strlen (perf_map_entry_of code_f) + 1)
     + to_uint64 96 /\
   record_size load = zlength load).
Proof.
  intros unwind load.
  pose proof (jitdump_record_sizes X86_64 jit_write_ok 0x10000 96 code_f started_jit
                ltac:(vm_compute; reflexivity) ltac:(reflexivity))
    as (Hw & Hu & Hk & Hl & Hs).
  split; [exact Hw|]. split; [exact Hu|].
  split; [exact Hk|]. split; [exact Hl|].
  apply Hs. vm_compute. reflexivity.
Defined.

(** ** Reading the dump back *)

Lemma field_app off len (r rest : list Z) :
  (off + len <= List.length r)%nat -> field off len (r ++ rest) = field off len r.
Proof.
  intros H. unfold field. rewrite skipn_app, firstn_app.
  rewrite length_skipn.
  replace (len - (List.length r - off))%nat with 0%nat by lia.
  replace (off - List.length r)%nat with 0%nat by lia.
  cbn [skipn firstn]. rewrite app_nil_r. reflexivity.
Qed.

Lemma jitdump_records_concat rs : forall fuel,
  Forall well_framed rs ->
  (List.length rs <= fuel)%nat ->
  jitdump_records fuel (List.concat rs) = rs.
Proof.
  induction rs as [|r rs IH]; intros fuel Hall Hfuel.
  - destruct fuel; reflexivity.
  - destruct fuel as [|fuel]; [cbn in Hfuel; lia|].
    apply Forall_cons_iff in Hall. destruct Hall as [[H16 Hsize] Hall].
    unfold zlength in H16.
    cbn [List.concat jitdump_records].
    destruct (r ++ List.concat rs) as [|x l] eqn:E.
    { destruct r; [cbn in H16; lia|discriminate]. }
    rewrite <- E. clear E x l.
    assert (field 4 4 (r ++ List.concat rs) = zlength r) as Hf.
    { rewrite field_app by lia. exact Hsize. }
    rewrite Hf. unfold zlength. rewrite Nat2Z.id.
    assert ((List.length r <? 16)%nat = false) as -> by (apply Nat.ltb_ge; lia).
    assert ((List.length (r ++ List.concat rs) <? List.length r)%nat = false) as ->.
    { apply Nat.ltb_ge. rewrite length_app. lia. }
    cbn [orb]. rewrite firstn_app, Nat.sub_diag, firstn_all. cbn [firstn].
    rewrite app_nil_r. rewrite skipn_app, Nat.sub_diag, skipn_all. cbn [skipn app].
    f_equal. apply IH; [assumption|]. cbn in Hfuel. lia.
Qed.

Lemma length_concat_ge (rs : list (list Z)) :
  Forall well_framed rs -> (List.length rs <= List.length (List.concat rs))%nat.
Proof.
  induction 1 as [|r rs [H16 _] _ IH]; cbn; [lia|].
  rewrite length_app. unfold zlength in H16. lia.
Qed.

Section CodeIds.
Variable arch : target_arch.

Lemma run_writes_open ws : forall rt c,
  perf_map (perf_jit_map_state rt) = FILE_open ->
  code_id (perf_jit_map_state rt) = c ->
  0 <= c ->
  c + Z.of_nat (List.length ws) < 2 ^ 31 ->
  Forall fits_record ws ->
  exists rt',
    run_writes arch ws rt = Done rt' /\
    jit_dump rt'
    = jit_dump rt ++ List.concat (expected_records arch ws c (memory rt)) /\
    code_id (perf_jit_map_state rt') = c + Z.of_nat (List.length ws).
Proof.
  induction ws as [|w ws IH]; intros rt c Hopen Hc H0 Hlt Hall.
  - exists rt. cbn. rewrite app_nil_r. split; [reflexivity|]. split; [reflexivity|lia].
  - subst c. apply Forall_cons_iff in Hall. destruct Hall as [(Hm & _ & _) Hall].
    cbn [run_writes]. rewrite jit_write_entry_open by exact Hopen.
    destruct (jit_write_records_open arch (wc_os w) (wc_code_addr w) (wc_code_size w)
                (wc_co w) rt Hopen Hm)
      as (rt1 & E1 & Hd1 & Ho1 & Hc1 & Hm1).
    rewrite E1. cbn [bind].
    cbn [List.length] in Hlt.
    rewrite (to_int32_small (code_id (perf_jit_map_state rt) + 1)) in Hd1, Hc1
      by (unfold is_int32; lia).
    destruct (IH rt1 (code_id (perf_jit_map_state rt) + 1) Ho1 Hc1 ltac:(lia) ltac:(lia) Hall)
      as (rt' & E & Hd & Hc').
    exists rt'. split; [exact E|]. split.
    + rewrite Hd, Hd1, Hm1. cbn [expected_records List.concat].
      rewrite <- !app_assoc. reflexivity.
    + rewrite Hc'. cbn [List.length]. lia.
Qed.

Lemma expected_records_well_framed ws : forall c mem,
  Forall fits_record ws ->
  Forall well_framed (expected_records arch ws c mem).
Proof.
  induction ws as [|w ws IH]; intros c mem Hall; cbn [expected_records].
  - constructor.
  - apply Forall_cons_iff in Hall. destruct Hall as [(_ & Hu & Hfit) Hall].
    constructor; [|constructor; [|apply IH; assumption]].
    + destruct (unwinding_record_size arch (wc_os w) (wc_code_size w))
        as (_ & Hs & _ & Hr).
      split; [lia|exact Hs].
    + destruct (code_load_record_size (wc_os w) (wc_code_addr w) (wc_code_size w)
                  (perf_map_entry_of (wc_co w)) (c + 1) mem) as (Hl & _ & Hs & _).
      rewrite to_uint64_small in Hl by (unfold is_uint32 in Hu; lia).
      unfold sizeof_CodeLoadEvent in Hfit.
      assert (0 <= strlen (perf_map_entry_of (wc_co w))) by (unfold strlen; lia).
      unfold is_uint32 in Hu.
      split; [lia|]. rewrite Hs. apply Z.mod_small. lia.
Qed.

Lemma expected_records_code_ids ws : forall c mem,
  0 <= c ->
  c + Z.of_nat (List.length ws) < 2 ^ 31 ->
  map record_code_id
    (filter (fun r => record_kind r =? PerfLoad) (expected_records arch ws c mem))
  = map (fun i => c + Z.of_nat i) (seq 1 (List.length ws)).
Proof.
  induction ws as [|w ws IH]; intros c mem H0 Hlt; cbn [expected_records].
  - reflexivity.
  - cbn [List.length] in *. cbn [filter].
    destruct (unwinding_record_size arch (wc_os w) (wc_code_size w)) as (Hk & _).
    rewrite Hk. change (PerfUnwindingInfo =? PerfLoad) with false. cbn iota.
    destruct (code_load_record_size (wc_os w) (wc_code_addr w) (wc_code_size w)
                (perf_map_entry_of (wc_co w)) (c + 1) mem) as (_ & Hk' & _ & Hi).
    rewrite Hk'. change (PerfLoad =? PerfLoad) with true. cbn iota.
    cbn [map seq]. rewrite Hi, to_uint64_small by lia.
    f_equal; try lia.
    rewrite IH by lia. rewrite <- (seq_shift (List.length ws) 1), map_map.
    apply map_ext. intros i. lia.
Qed.

Lemma write_fully_open buffer rt :
  buffer <> [] ->
  perf_map (perf_jit_map_state rt) = FILE_open ->
  perf_map_jit_write_fully buffer rt
  = Done (set_jit_dump (jit_dump rt ++ buffer) rt).
Proof.
  intros Hne Hopen. unfold perf_map_jit_write_fully. rewrite Hopen.
  destruct buffer; [contradiction|reflexivity].
Qed.

Lemma Header_bytes_nonempty h : Header_bytes h <> [].
Proof.
  intros E. apply (f_equal zlength) in E.
  rewrite zlength_Header_bytes in E. discriminate.
Qed.

(** What a successful [perf_map_jit_init] leaves: the dump open, holding
    the header only, and the counter at 0. *)
Lemma jit_init_success os rt0 rt :
  perf_map_jit_init os rt0 = Done (state_jit, rt) ->
  perf_map (perf_jit_map_state rt) = FILE_open /\
  code_id (perf_jit_map_state rt) = 0 /\
  exists h, h_size h = sizeof_Header /\ jit_dump rt = Header_bytes h.
Proof.
  unfold perf_map_jit_init. intros H.
  destruct (os_open os =? -1); [discriminate|].
  destruct (os_sysconf_pagesize os =? -1); [discriminate|].
  destruct (mapped_buffer _ =? NULL); [discriminate|].
  destruct (os_fdopen os); cbn [perf_map perf_jit_map_state set_jit_perf_map
                                  set_perf_jit_map_state] in H; [|discriminate].
  unfold perf_map_jit_write_header in H.
  rewrite write_fully_open in H by (auto using Header_bytes_nonempty).
  cbn [bind] in H.
  destruct (os_allocate_lock os);
    cbn [map_lock perf_jit_map_state set_jit_map_lock set_perf_jit_map_state negb] in H;
    [|discriminate].
  inv H. cbn. split; [reflexivity|]. split; [reflexivity|].
  eexists. split; [|reflexivity]. reflexivity.
Qed.

(** C7: after a successful [perf_map_jit_init], any sequence of fewer
    than [2^31] writes that emit (their records fitting the 32-bit size
    field) completes, and the [code_id]s read back from the code-load
    records of the dump, in file order, are [1, 2, ..., N]: each is the
    number of code-load records before it plus one, so they increase
    strictly. *)
Theorem code_ids_count_emissions os0 rt0 rt ws :
  perf_map_jit_init os0 rt0 = Done (state_jit, rt) ->
  Forall fits_record ws ->
  Z.of_nat (List.length ws) < 2 ^ 31 ->
  exists rt',
    run_writes arch ws rt = Done rt' /\
    code_ids (jit_dump rt') = map Z.of_nat (seq 1 (List.length ws)) /\
    StronglySorted Z.lt (code_ids (jit_dump rt')).
Proof.
  intros Hinit Hall Hlt.
  destruct (jit_init_success os0 rt0 rt Hinit) as (Hopen & Hc & h & Hh & Hd).
  destruct (run_writes_open ws rt 0 Hopen Hc ltac:(lia) ltac:(lia) Hall)
    as (rt' & E & Hd' & _).
  exists rt'. split; [exact E|].
  assert (code_ids (jit_dump rt') = map Z.of_nat (seq 1 (List.length ws))) as Hids.
  { unfold code_ids, jitdump_parse. rewrite Hd', Hd.
    rewrite header_size_field, Hh. change (sizeof_Header mod 2 ^ 32) with 40.
    pose proof (expected_records_well_framed ws 0 (memory rt) Hall) as Hwf.
    assert (skipn (Z.to_nat 40)
              (Header_bytes h ++ List.concat (expected_records arch ws 0 (memory rt)))
            = List.concat (expected_records arch ws 0 (memory rt))) as ->.
    { rewrite skipn_app.
      assert (List.length (Header_bytes h) = Z.to_nat 40) as Hl by reflexivity.
      rewrite <- Hl, skipn_all, Nat.sub_diag. reflexivity. }
    rewrite jitdump_records_concat; [|exact Hwf|].
    - apply expected_records_code_ids; lia.
    - rewrite length_app. pose proof (length_concat_ge _ Hwf). lia. }
  split; [exact Hids|].
  rewrite Hids. clear. generalize 1%nat.
  induction (List.length ws) as [|n IH]; intros s; cbn [seq map]; constructor.
  - apply IH.
  - apply Forall_forall. intros x Hx. apply in_map_iff in Hx.
    destruct Hx as (i & <- & Hi). apply in_seq in Hi. lia.
Qed.
End CodeIds.

Lemma three_writes_fit : Forall fits_record three_writes.
Proof.
  unfold three_writes.
  repeat (apply Forall_cons; [unfold fits_record, is_uint32; repeat split|]).
  all: try apply Forall_nil.
  all: try reflexivity.
  all: vm_compute.
  all: try reflexivity; try discriminate.
Qed.


Lemma code_ids_count_emissions_witness :
  let opened := result_of (perf_map_jit_init jit_init_ok default_runtime)
                  (state_NULL, default_runtime) in
  exists rt',
    run_writes X86_64 three_writes (snd opened) = Done rt' /\
    code_ids (jit_dump rt') = map Z.of_nat (seq 1 (List.length three_writes)) /\
    StronglySorted Z.lt (code_ids (jit_dump rt')).
Proof.
  exact (code_ids_count_emissions X86_64 jit_init_ok default_runtime
           (snd (result_of (perf_map_jit_init jit_init_ok default_runtime)
                   (state_NULL, default_runtime)))
           three_writes
           (eq_trans
              (done_pair (perf_map_jit_init jit_init_ok default_runtime)
                 (state_NULL, default_runtime) ltac:(vm_compute; reflexivity))
              (f_equal
                 (fun p =>
                    Done (p, snd (result_of
                                    (perf_map_jit_init jit_init_ok default_runtime)
                                    (state_NULL, default_runtime))))
                 (ltac:(vm_compute; reflexivity)
                   : fst (result_of (perf_map_jit_init jit_init_ok default_runtime)
                            (state_NULL, default_runtime)) = state_jit)))
           three_writes_fit
           ltac:(vm_compute; reflexivity)).
Defined.


Example three_writes_dump :
  let dump :=
    jit_dump
      (result_of
         (run_writes X86_64 three_writes
            (snd (result_of (perf_map_jit_init jit_init_ok default_runtime)
                    (state_NULL, default_runtime))))
         default_runtime) in
  code_ids dump = [1; 2; 3] /\
  records_view dump
  = [(4, 112, 112, 0); (0, 163, 163, 3);
     (4, 112, 112, 0); (0, 163, 163, 3);
     (4, 112, 112, 0); (0, 158, 158, 6)].
Proof. vm_compute. split; reflexivity. Qed.

(* ===================================================================== *)
(** * Part III: further properties of the code                           *)
(* ===================================================================== *)

(** ** Arenas are filled with the template *)

Lemma chunk_size_of_bounds cs pad :
  0 <= cs -> 0 <= pad -> 0 < cs + pad < 2 ^ 62 ->
  cs + pad <= chunk_size_of cs pad < cs + pad + 16 /\
  chunk_size_of cs pad mod 16 = 0.
Proof.
  intros Hcs Hpad Hsum. unfold chunk_size_of.
  rewrite to_size_t_small by lia.
  rewrite to_int64_small by (unfold is_int64; lia).
  rewrite round_up_nonneg by lia.
  pose proof (Z.div_mod (cs + pad + 16 - 1) 16 ltac:(lia)).
  pose proof (Z.mod_pos_bound (cs + pad + 16 - 1) 16 ltac:(lia)).
  split; [lia|]. rewrite Z.mul_comm. apply Z.mod_mul. lia.
Qed.

Lemma read_memory_ext mem1 mem2 p n :
  (forall j, 0 <= j < n -> mem1 (p + j) = mem2 (p + j)) ->
  read_memory mem1 p n = read_memory mem2 p n.
Proof.
  intros H. unfold read_memory. apply map_ext_in.
  intros i Hi. apply in_seq in Hi. apply H. lia.
Qed.

Lemma read_memory_memcpy mem p (T : list Z) :
  read_memory (memcpy mem p T) p (zlength T) = T.
Proof.
  unfold read_memory, zlength. rewrite Nat2Z.id.
  apply nth_ext with (d := 0) (d' := 0).
  - rewrite length_map, length_seq. reflexivity.
  - intros n Hn. rewrite length_map, length_seq in Hn.
    rewrite (nth_indep _ 0 (memcpy mem p T (p + Z.of_nat 0))) by
      (rewrite length_map, length_seq; exact Hn).
    rewrite (map_nth (fun i => memcpy mem p T (p + Z.of_nat i))).
    rewrite seq_nth by exact Hn. cbn [Nat.add].
    unfold memcpy, zlength.
    destruct (Z.leb_spec p (p + Z.of_nat n)); [|lia].
    destruct (Z.ltb_spec (p + Z.of_nat n) (p + Z.of_nat (List.length T))); [|lia].
    cbn [andb]. f_equal. lia.
Qed.

Lemma memcpy_outside mem dst src a :
  a < dst \/ dst + zlength src <= a -> memcpy mem dst src a = mem a.
Proof.
  intros H. unfold memcpy.
  destruct (Z.leb_spec dst a); destruct (Z.ltb_spec a (dst + zlength src));
    cbn [andb]; try reflexivity; lia.
Qed.

(** The loop of [new_code_arena]: after [n] copies at the stride [c],
    each of the [n] chunks starts with the template and nothing outside
    them was written. *)
Lemma copies_laid (T : list Z) m c : zlength T <= c -> forall n mem,
  let mem' :=
    fold_left (fun mem i => memcpy mem (m + Z.of_nat i * c) T) (seq 0 n) mem in
  (forall i, 0 <= i < Z.of_nat n ->
             read_memory mem' (m + i * c) (zlength T) = T) /\
  (forall a, a < m \/ m + Z.of_nat n * c <= a -> mem' a = mem a).
Proof.
  intros Hc. pose proof (zlength_nonneg T) as HT.
  induction n as [|n IH]; intros mem; cbv zeta.
  - split; [intros i Hi; lia|reflexivity].
  - rewrite seq_S, fold_left_app. cbn [fold_left Nat.add].
    destruct (IH mem) as [IHc IHo]. cbv zeta in IHc, IHo.
    set (mem1 := fold_left _ (seq 0 n) mem) in *.
    split.
    + intros i Hi.
      destruct (Z.eq_dec i (Z.of_nat n)) as [->|Hne].
      * apply read_memory_memcpy.
      * transitivity (read_memory mem1 (m + i * c) (zlength T));
          [|apply IHc; lia].
        apply read_memory_ext. intros j Hj.
        apply memcpy_outside. left. nia.
    + intros a Ha. rewrite memcpy_outside by nia. apply IHo. nia.
Qed.

Section ArenaLayout.
Variable T : list Z.

(** What a successful [new_code_arena] leaves in memory. *)
Lemma new_code_arena_layout os rt rt' :
  0 <= code_padding (trampoline_api rt) ->
  0 < zlength T + code_padding (trampoline_api rt) < 2 ^ 62 ->
  new_code_arena T os rt = Done (0, rt') ->
  exists m,
    os_mmap os = Some m /\
    perf_code_arena rt' = fresh_arena T m :: perf_code_arena rt /\
    trampoline_api rt' = trampoline_api rt /\
    (forall i,
       0 <= i < mem_size
                / chunk_size_of (template_code_size T)
                    (code_padding (trampoline_api rt)) ->
       read_memory (memory rt')
         (m + i * chunk_size_of (template_code_size T)
                    (code_padding (trampoline_api rt)))
         (zlength T) = T) /\
    (forall a, a < m \/ m + mem_size <= a -> memory rt' a = memory rt a).
Proof.
  intros Hpad Hsum H.
  destruct (chunk_size_of_bounds (zlength T) (code_padding (trampoline_api rt))
              (zlength_nonneg T) Hpad Hsum) as [Hc Hc16].
  unfold new_code_arena in H.
  destruct (os_mmap os) as [m|] eqn:Em; [|discriminate].
  cbn [trampoline_api set_memory record_call set_history memory] in H.
  unfold template_code_size in *.
  set (c := chunk_size_of (zlength T) (code_padding (trampoline_api rt))) in *.
  destruct (Z.eqb_spec c 0); [lia|].
  destruct (os_mprotect os =? -1); [discriminate|].
  destruct (os_calloc os); cbn [negb] in H; [|discriminate].
  inv H. exists m. split; [reflexivity|].
  cbn [perf_code_arena set_perf_code_arena set_memory trampoline_api memory
       set_history].
  split; [reflexivity|]. split; [reflexivity|].
  destruct (copies_laid T m c ltac:(lia) (Z.to_nat (mem_size / c))
              (mmap_anonymous (memory rt) m mem_size)) as [Hcopies Hout].
  cbv zeta in Hcopies, Hout.
  assert (0 <= mem_size / c) as Hn by (apply Z.div_pos; [vm_compute; discriminate|lia]).
  rewrite Z2Nat.id in Hcopies, Hout by exact Hn.
  split; [exact Hcopies|].
  intros a Ha. rewrite Hout.
  - unfold mmap_anonymous.
    destruct (Z.leb_spec m a); destruct (Z.ltb_spec a (m + mem_size));
      cbn [andb]; try reflexivity; lia.
  - pose proof (Z.mul_div_le mem_size c ltac:(lia)). nia.
Qed.

Lemma fresh_arena_laid_out m mem c0 c :
  0 < c0 -> (c0 | c) ->
  (forall i, 0 <= i < mem_size / c0 ->
             read_memory mem (m + i * c0) (zlength T) = T) ->
  arena_laid_out T c0 c mem (fresh_arena T m).
Proof.
  intros Hc Hdiv Hcopies. unfold arena_laid_out, fresh_arena.
  cbn [code_size size current_addr start_addr size_left].
  split; [reflexivity|]. split; [reflexivity|].
  split; [exact Hc|]. split; [exact Hdiv|].
  split; [exists 0; lia|]. split; [vm_compute; discriminate|exact Hcopies].
Qed.

(** The arena a successful [new_code_arena] puts in front is laid out
    with the stride of the padding of that moment, for every stride of
    handing out that is a multiple of it. *)
Lemma new_code_arena_laid_out os rt rt' :
  0 <= code_padding (trampoline_api rt) ->
  0 < zlength T + code_padding (trampoline_api rt) < 2 ^ 62 ->
  new_code_arena T os rt = Done (0, rt') ->
  exists head prev,
    perf_code_arena rt' = head :: prev /\
    trampoline_api rt' = trampoline_api rt /\
    forall c,
      (chunk_size_of (template_code_size T) (code_padding (trampoline_api rt))
       | c) ->
      arena_laid_out T
        (chunk_size_of (template_code_size T) (code_padding (trampoline_api rt)))
        c (memory rt') head.
Proof.
  intros Hpad Hsum H.
  destruct (new_code_arena_layout os rt rt' Hpad Hsum H)
    as (m & _ & Ha & Hapi & Hcopies & _).
  do 2 eexists. split; [exact Ha|]. split; [exact Hapi|].
  intros c Hdiv.
  apply fresh_arena_laid_out; [|exact Hdiv|exact Hcopies].
  pose proof (chunk_size_of_bounds (zlength T) (code_padding (trampoline_api rt))
                (zlength_nonneg T) Hpad Hsum).
  unfold template_code_size. lia.
Qed.

(** X1: a successful [new_code_arena] puts the new arena at the head
    of the list and fills its mapping with copies of the template: every
    chunk that fits the 64 KiB, at the stride
    [round_up(code_size + code_padding, 16)], starts with the bytes of
    the template; memory outside the mapping is as it was. *)
Theorem new_code_arena_fills_arena os rt rt' :
  let c := chunk_size_of (template_code_size T)
             (code_padding (trampoline_api rt)) in
  0 <= code_padding (trampoline_api rt) ->
  0 < zlength T + code_padding (trampoline_api rt) < 2 ^ 62 ->
  new_code_arena T os rt = Done (0, rt') ->
  exists m,
    os_mmap os = Some m /\
    perf_code_arena rt' = fresh_arena T m :: perf_code_arena rt /\
    (forall i, 0 <= i < mem_size / c ->
               read_memory (memory rt') (m + i * c) (zlength T) = T) /\
    (forall a, a < m \/ m + mem_size <= a -> memory rt' a = memory rt a).
Proof.
  intros c Hpad Hsum H.
  destruct (new_code_arena_layout os rt rt' Hpad Hsum H)
    as (m & Em & Ha & _ & Hcopies & Hout).
  exists m. repeat split; assumption.
Qed.

(** One stub taken from an arena that is laid out. *)
Lemma code_arena_new_code_laid_out pad mem c0 a :
  let c := chunk_size_of (template_code_size T) pad in
  0 < c ->
  arena_laid_out T c0 c mem a ->
  c <= size_left a ->
  let '(p, a') := code_arena_new_code pad a in
  p = current_addr a /\
  arena_laid_out T c0 c mem a' /\
  start_addr a' = start_addr a /\ size a' = size a /\
  start_addr a <= p /\ p + c <= start_addr a + size a /\
  read_memory mem p (zlength T) = T /\
  size_left a' <= size a'.
Proof.
  intros c Hc (Hcs & Hsz & Hc0 & (m & Hm) & (k & Hk & Hcur & Hleft) & Hl0 & Hcopies)
    Hfit.
  unfold code_arena_new_code. rewrite Hcs. fold c.
  assert (size a = 65536) as Hsz' by (rewrite Hsz; reflexivity).
  assert (1 <= m) as Hm1 by nia.
  rewrite to_size_t_small by lia.
  split; [reflexivity|].
  split; [|split; [reflexivity|split; [reflexivity|]]].
  - unfold arena_laid_out.
    cbn [code_size size current_addr start_addr size_left].
    split; [first [exact Hcs|reflexivity]|]. split; [exact Hsz|].
    split; [exact Hc0|]. split; [exists m; exact Hm|].
    split; [exists (k + 1); lia|]. split; [lia|exact Hcopies].
  - cbn [size size_left].
    split; [nia|]. split; [nia|]. split; [|lia].
    rewrite Hcur. replace (k * c) with (k * m * c0) by (rewrite Hm; ring).
    apply Hcopies.
    assert (k * m + 1 <= size a / c0) by (apply Z.div_le_lower_bound; nia).
    nia.
Qed.

(** X2: every stub is a copy of the template inside its arena.  When
    the head arena is laid out (filled with the template at a stride
    that divides the chunk size now in force, its cursor a whole number
    of chunks past its start), a pointer [compile_trampoline] returns
    that is not NULL has its whole chunk inside the head arena of the
    list it leaves, the template's bytes are at it, and that arena is
    laid out again; this holds as well when the call had to map a new
    arena. *)
Theorem compile_trampoline_stub_is_template_copy os rt p rt' :
  let pad := code_padding (trampoline_api rt) in
  let c := chunk_size_of (template_code_size T) pad in
  0 <= pad -> 0 < zlength T + pad < 2 ^ 62 -> c <= mem_size ->
  (exists head prev c0,
     perf_code_arena rt = head :: prev /\
     arena_laid_out T c0 c (memory rt) head) ->
  compile_trampoline T os rt = Done (p, rt') ->
  p <> NULL ->
  exists head' prev' c0',
    perf_code_arena rt' = head' :: prev' /\
    arena_laid_out T c0' c (memory rt') head' /\
    start_addr head' <= p /\
    p + c <= start_addr head' + size head' /\
    read_memory (memory rt') p (zlength T) = T /\
    size_left head' <= size head'.
Proof.
  intros pad c Hpad Hsum Hcm (head & prev & c0 & Ea & Hlay) H Hp.
  destruct (chunk_size_of_bounds (zlength T) pad (zlength_nonneg T) Hpad Hsum)
    as [Hc _].
  assert (0 < c) as Hc0 by (subst c; unfold template_code_size; lia).
  pose proof Hlay as (Hcs & Hsz & _ & _ & (k & Hk & Hcur & Hleft) & Hl0 & Hcopies).
  destruct (Z.leb_spec (size_left head) (chunk_size_of (code_size head) pad))
    as [Hle|Hgt].
  - rewrite (compile_trampoline_needs_arena T os rt head prev Ea Hle) in H.
    unfold bind in H.
    destruct (new_code_arena T os rt) as [[res rt1]|] eqn:En; [|discriminate].
    destruct (Z.ltb_spec res 0) as [Hneg|Hpos]; [inv H; contradiction|].
    pose proof (new_code_arena_effect T os rt res rt1 En)
      as (_ & _ & Hapi & _ & Hcase).
    destruct Hcase as [(-> & _ & _)|(-> & _)]; [|lia].
    destruct (new_code_arena_laid_out os rt rt1 Hpad Hsum En)
      as (h1 & p1 & Ea1 & _ & Hlay1).
    specialize (Hlay1 c (Z.divide_refl _)). fold pad in Hlay1. fold c in Hlay1.
    rewrite Ea1 in H. rewrite Hapi in H. fold pad in H.
    pose proof (code_arena_new_code_laid_out pad (memory rt1) c h1 Hc0 Hlay1) as Hnew.
    assert (c <= size_left h1) as Hfit.
    { destruct (new_code_arena_layout os rt rt1 Hpad Hsum En) as (m & _ & Ea1' & _).
      rewrite Ea1 in Ea1'. inv Ea1'. cbn. exact Hcm. }
    specialize (Hnew Hfit).
    destruct (code_arena_new_code pad h1) as [q h1'] eqn:Eq.
    destruct Hnew as (-> & Hlay' & Hst & Hsz' & Hlo & Hhi & Hcopy & Hassert).
    inv H. exists h1', p1, c. split; [reflexivity|].
    cbn [memory set_perf_code_arena]. rewrite Hst, Hsz'.
    split; [exact Hlay'|]. split; [exact Hlo|]. split; [exact Hhi|].
    split; [exact Hcopy|lia].
  - rewrite (compile_trampoline_from_head T os rt head prev Ea Hgt) in H.
    fold pad in H.
    rewrite Hcs in Hgt. fold c in Hgt.
    pose proof (code_arena_new_code_laid_out pad (memory rt) c0 head Hc0 Hlay
                  ltac:(lia)) as Hnew.
    destruct (code_arena_new_code pad head) as [q h'] eqn:Eq.
    destruct Hnew as (-> & Hlay' & Hst & Hsz' & Hlo & Hhi & Hcopy & Hassert).
    inv H. exists h', prev, c0. split; [reflexivity|].
    cbn [memory set_perf_code_arena snd]. rewrite Hst, Hsz'.
    split; [exact Hlay'|]. split; [exact Hlo|]. split; [exact Hhi|].
    split; [exact Hcopy|lia].
Qed.

End ArenaLayout.

Lemma new_code_arena_fills_arena_witness :
  let rt := fresh_runtime (Some perfmap_sink) in
  let rt' :=
    snd (result_of (new_code_arena (nop_template 96) (arena_ok 0x10000) rt)
           (0, default_runtime)) in
  let c := chunk_size_of (template_code_size (nop_template 96))
             (code_padding (trampoline_api rt)) in
  exists m,
    os_mmap (arena_ok 0x10000) = Some m /\
    perf_code_arena rt' = fresh_arena (nop_template 96) m :: perf_code_arena rt /\
    (forall i, 0 <= i < mem_size / c ->
               read_memory (memory rt') (m + i * c) (zlength (nop_template 96))
               = nop_template 96) /\
    (forall a, a < m \/ m + mem_size <= a -> memory rt' a = memory rt a).
Proof.
  exact (new_code_arena_fills_arena (nop_template 96) (arena_ok 0x10000)
           (fresh_runtime (Some perfmap_sink))
           (snd (result_of
                   (new_code_arena (nop_template 96) (arena_ok 0x10000)
                      (fresh_runtime (Some perfmap_sink)))
                   (0, default_runtime)))
           ltac:(vm_compute; discriminate)
           ltac:(split; vm_compute; reflexivity)
           (eq_trans
              (done_pair
                 (new_code_arena (nop_template 96) (arena_ok 0x10000)
                    (fresh_runtime (Some perfmap_sink)))
                 (0, default_runtime) ltac:(vm_compute; reflexivity))
              (f_equal
                 (fun r =>
                    Done (r, snd (result_of
                                    (new_code_arena (nop_template 96)
                                       (arena_ok 0x10000)
                                       (fresh_runtime (Some perfmap_sink)))
                                    (0, default_runtime))))
                 (ltac:(vm_compute; reflexivity)
                   : fst (result_of
                            (new_code_arena (nop_template 96) (arena_ok 0x10000)
                               (fresh_runtime (Some perfmap_sink)))
                            (0, default_runtime)) = 0)))).
Defined.

Section InitLayout.
Variable T : list Z.

(** After a successful [_PyPerfTrampoline_Init(1)] the first arena is laid
    out with the stride of the padding [Init] found, whatever padding the
    sink's [init_state] set afterwards. *)
Lemma Init_laid_out os rt rt' c :
  0 <= code_padding (trampoline_api rt) ->
  0 < zlength T + code_padding (trampoline_api rt) < 2 ^ 62 ->
  (chunk_size_of (template_code_size T) (code_padding (trampoline_api rt)) | c) ->
  _PyPerfTrampoline_Init T os 1 rt = Done (0, rt') ->
  exists head prev c0,
    perf_code_arena rt' = head :: prev /\
    arena_laid_out T c0 c (memory rt') head.
Proof.
  intros Hpad Hsum Hdiv H. unfold _PyPerfTrampoline_Init, bind in H.
  destruct (negb (is_eval_NULL (eval_frame rt))
            && negb (is_py_trampoline_evaluator (eval_frame rt)));
    [inv H|].
  cbn [Z.eqb] in H.
  set (rt0 := _PyInterpreterState_SetEvalFrameFunc eval_py_trampoline_evaluator rt)
    in *.
  destruct (new_code_arena T (i_arena os) rt0) as [[res rt1]|] eqn:En; [|discriminate].
  destruct (Z.ltb_spec res 0); [inv H|].
  assert (res = 0) as ->.
  { apply new_code_arena_effect in En.
    destruct En as (_ & _ & _ & _ & [(-> & _)|(-> & _)]); [reflexivity|lia]. }
  destruct (new_code_arena_laid_out T (i_arena os) rt0 rt1 Hpad Hsum En)
    as (head & prev & Ea & _ & Hlay).
  specialize (Hlay c Hdiv).
  cbn [extra_code_index set_extra_code_index] in H.
  destruct (i_extra_index os =? -1); [inv H|].
  destruct (_ && _).
  - destruct (call_init (i_sink os) (set_extra_code_index (i_extra_index os) rt1))
      as [[p rt2]|] eqn:Ei; [|discriminate].
    inv H. exists head, prev. eexists.
    assert (perf_code_arena rt2 = perf_code_arena rt1 /\ memory rt2 = memory rt1)
      as [Ha2 Hm2].
    { unfold call_init in Ei.
      destruct (init_state _) as [[]|]; [| |discriminate].
      - inv Ei. split; reflexivity.
      - apply jit_init_frame in Ei. destruct Ei. cbn in *. split; congruence. }
    cbn. rewrite Ha2, Hm2. split; [exact Ea|exact Hlay].
  - inv H. exists head, prev. eexists. cbn. split; [exact Ea|exact Hlay].
Qed.
End InitLayout.

Lemma compile_trampoline_stub_is_template_copy_witness :
  let rt :=
    snd (result_of
           (_PyPerfTrampoline_Init (nop_template 11)
              (init_with (arena_ok 0x10000)) 1
              (fresh_runtime (Some jitdump_sink)))
           (0, default_runtime)) in
  let got :=
    result_of (compile_trampoline (nop_template 11) (arena_ok 0x20000) rt)
      (NULL, default_runtime) in
  let c :=
    chunk_size_of (template_code_size (nop_template 11))
      (code_padding (trampoline_api rt)) in
  exists head' prev' c0',
    perf_code_arena (snd got) = head' :: prev' /\
    arena_laid_out (nop_template 11) c0' c (memory (snd got)) head' /\
    start_addr head' <= fst got /\
    fst got + c <= start_addr head' + size head' /\
    read_memory (memory (snd got)) (fst got) (zlength (nop_template 11))
    = nop_template 11 /\
    size_left head' <= size head'.
Proof.
  exact (compile_trampoline_stub_is_template_copy (nop_template 11)
           (arena_ok 0x20000)
           (snd (result_of
                   (_PyPerfTrampoline_Init (nop_template 11)
                      (init_with (arena_ok 0x10000)) 1
                      (fresh_runtime (Some jitdump_sink)))
                   (0, default_runtime)))
           (fst (result_of
                   (compile_trampoline (nop_template 11) (arena_ok 0x20000)
                      (snd (result_of
                              (_PyPerfTrampoline_Init (nop_template 11)
                                 (init_with (arena_ok 0x10000)) 1
                                 (fresh_runtime (Some jitdump_sink)))
                              (0, default_runtime))))
                   (NULL, default_runtime)))
           (snd (result_of
                   (compile_trampoline (nop_template 11) (arena_ok 0x20000)
                      (snd (result_of
                              (_PyPerfTrampoline_Init (nop_template 11)
                                 (init_with (arena_ok 0x10000)) 1
                                 (fresh_runtime (Some jitdump_sink)))
                              (0, default_runtime))))
                   (NULL, default_runtime)))
           ltac:(vm_compute; discriminate)
           ltac:(split; vm_compute; reflexivity)
           ltac:(vm_compute; discriminate)
           (Init_laid_out (nop_template 11) (init_with (arena_ok 0x10000))
              (fresh_runtime (Some jitdump_sink))
              (snd (result_of
                      (_PyPerfTrampoline_Init (nop_template 11)
                         (init_with (arena_ok 0x10000)) 1
                         (fresh_runtime (Some jitdump_sink)))
                      (0, default_runtime)))
              (chunk_size_of (template_code_size (nop_template 11))
                 (code_padding
                    (trampoline_api
                       (snd (result_of
                               (_PyPerfTrampoline_Init (nop_template 11)
                                  (init_with (arena_ok 0x10000)) 1
                                  (fresh_runtime (Some jitdump_sink)))
                               (0, default_runtime))))))
              ltac:(vm_compute; discriminate)
              ltac:(split; vm_compute; reflexivity)
              ltac:(exists 17; vm_compute; reflexivity)
              (eq_trans
                 (done_pair
                    (_PyPerfTrampoline_Init (nop_template 11)
                       (init_with (arena_ok 0x10000)) 1
                       (fresh_runtime (Some jitdump_sink)))
                    (0, default_runtime) ltac:(vm_compute; reflexivity))
                 (f_equal
                    (fun r =>
                       Done (r, snd (result_of
                                       (_PyPerfTrampoline_Init (nop_template 11)
                                          (init_with (arena_ok 0x10000)) 1
                                          (fresh_runtime (Some jitdump_sink)))
                                       (0, default_runtime))))
                    (ltac:(vm_compute; reflexivity)
                      : fst (result_of
                               (_PyPerfTrampoline_Init (nop_template 11)
                                  (init_with (arena_ok 0x10000)) 1
                                  (fresh_runtime (Some jitdump_sink)))
                               (0, default_runtime)) = 0))))
           (done_pair
              (compile_trampoline (nop_template 11) (arena_ok 0x20000)
                 (snd (result_of
                         (_PyPerfTrampoline_Init (nop_template 11)
                            (init_with (arena_ok 0x10000)) 1
                            (fresh_runtime (Some jitdump_sink)))
                         (0, default_runtime))))
              (NULL, default_runtime) ltac:(vm_compute; reflexivity))
           ltac:(vm_compute; discriminate)).
Defined.

(** ** Mappings and status over the calls of the entry points *)

Lemma mapped_addrs_app h1 h2 :
  mapped_addrs (h1 ++ h2) = mapped_addrs h1 ++ mapped_addrs h2.
Proof. apply flat_map_app. Qed.

Lemma unmapped_addrs_app h1 h2 :
  unmapped_addrs (h1 ++ h2) = unmapped_addrs h1 ++ unmapped_addrs h2.
Proof. apply flat_map_app. Qed.

Lemma quiet_step_refl rt : quiet_step rt rt.
Proof. repeat split; auto. Qed.

Lemma quiet_step_trans a b c : quiet_step a b -> quiet_step b c -> quiet_step a c.
Proof. intros (H1 & H2 & H3) (H4 & H5 & H6). repeat split; auto. Qed.

(** A step that adds to the history no mapping and no unmapping, and
    leaves the starts of the arenas and the status alone. *)
Lemma quiet_step_frame rt rt' es :
  history rt' = history rt ++ es ->
  mapped_addrs es = [] -> unmapped_addrs es = [] ->
  map start_addr (perf_code_arena rt') = map start_addr (perf_code_arena rt) ->
  (perf_status rt' = PERF_STATUS_OK -> perf_status rt = PERF_STATUS_OK) ->
  quiet_step rt rt'.
Proof.
  intros Hh Hm Hu Ha Hs. split; [|split; [|exact Hs]].
  - unfold mappings_accounted. rewrite Hh, Ha, mapped_addrs_app, unmapped_addrs_app.
    rewrite Hm, Hu, !app_nil_r. auto.
  - intros Hne E. rewrite E in Ha. destruct (perf_code_arena rt); [contradiction|discriminate].
Qed.

Lemma quiet_step_same rt rt' :
  history rt' = history rt ->
  map start_addr (perf_code_arena rt') = map start_addr (perf_code_arena rt) ->
  (perf_status rt' = PERF_STATUS_OK -> perf_status rt = PERF_STATUS_OK) ->
  quiet_step rt rt'.
Proof.
  intros Hh Ha Hs. apply (quiet_step_frame rt rt' []); auto.
  rewrite app_nil_r. exact Hh.
Qed.

Section Quiet.
Variable T : list Z.
Variable arch : target_arch.
Variable ev : Z -> _PyInterpreterFrame -> Z -> Z.

Lemma new_code_arena_quiet os rt res rt' :
  new_code_arena T os rt = Done (res, rt') -> quiet_step rt rt'.
Proof.
  unfold new_code_arena. intros H.
  destruct (os_mmap os) as [m|].
  - cbn [trampoline_api set_memory record_call set_history memory] in H.
    destruct (_ =? 0); [discriminate|].
    assert (forall A U M : list Z,
              Permutation M (U ++ A) -> Permutation (M ++ [m]) ((U ++ [m]) ++ A))
      as Hfail.
    { intros A U M HP. rewrite <- app_assoc. cbn [app].
      apply Permutation_trans with (m :: M); [apply Permutation_sym, Permutation_cons_append|].
      apply Permutation_cons_app. exact HP. }
    destruct (os_mprotect os =? -1); [|destruct (os_calloc os); cbn [negb] in H];
      inv H; (split; [|split]);
      unfold mappings_accounted;
      cbn [history perf_code_arena perf_status set_perf_code_arena set_memory
           set_history record_call map start_addr];
      try (intros HP; rewrite ?mapped_addrs_app, ?unmapped_addrs_app;
           cbn [mapped_addrs unmapped_addrs flat_map app];
           rewrite ?app_nil_r; auto); auto; try discriminate.
    apply Permutation_trans with (m :: mapped_addrs (history rt));
      [apply Permutation_sym, Permutation_cons_append|].
    apply Permutation_cons_app. exact HP.
  - inv H. split; [|split]; unfold mappings_accounted;
      cbn [history perf_code_arena perf_status set_perf_status set_history record_call];
      auto; try discriminate.
    intros HP. rewrite mapped_addrs_app, unmapped_addrs_app.
    cbn [mapped_addrs unmapped_addrs flat_map app]. rewrite ?app_nil_r. exact HP.
Qed.

Lemma compile_trampoline_quiet os rt p rt' :
  compile_trampoline T os rt = Done (p, rt') -> quiet_step rt rt'.
Proof.
  unfold compile_trampoline, bind. intros H.
  destruct (perf_code_arena rt) as [|head prev] eqn:Ea; [discriminate|].
  assert (forall rt1,
            quiet_step rt rt1 ->
            match perf_code_arena rt1 with
            | [] => Fault NullDereference
            | head0 :: prev0 =>
                let '(trampoline, head1) :=
                  code_arena_new_code (code_padding (trampoline_api rt1)) head0 in
                Done (trampoline, set_perf_code_arena (head1 :: prev0) rt1)
            end = Done (p, rt') ->
            quiet_step rt rt') as Hfin.
  { intros rt1 Hq Hm. eapply quiet_step_trans; [exact Hq|].
    destruct (perf_code_arena rt1) as [|h1 p1] eqn:Ea1; [discriminate|].
    unfold code_arena_new_code in Hm. inv Hm.
    apply quiet_step_same; cbn; auto.
    rewrite Ea1. reflexivity. }
  destruct (is_NULL_arena (head :: prev)
            || (size_left head <=? chunk_size_of (code_size head)
                                     (code_padding (trampoline_api rt)))).
  - destruct (new_code_arena T os rt) as [[res rt1]|] eqn:En; [|discriminate].
    apply new_code_arena_quiet in En.
    destruct (res <? 0); [inv H; exact En|].
    apply (Hfin rt1); assumption.
  - apply (Hfin rt); [apply quiet_step_refl|exact H].
Qed.

Lemma call_write_quiet os a sz co rt rt' :
  call_write arch os a sz co rt = Done rt' -> quiet_step rt rt'.
Proof.
  intros H. apply call_write_effect in H.
  destruct H as (s & _ & Hh & Hs & _ & Ha & _).
  apply (quiet_step_frame _ _ _ Hh); try reflexivity; congruence.
Qed.

Lemma call_free_quiet rt r rt' :
  call_free rt = Done (r, rt') -> quiet_step rt rt'.
Proof.
  unfold call_free, perf_map_jit_fini, perf_map_free_state, bind. intros H.
  destruct (free_state (trampoline_api rt)) as [[]|]; [| |discriminate].
  - inv H. apply (quiet_step_frame _ _ [call_free_state perfmap_sink]);
      cbn; auto.
  - cbn [perf_map perf_jit_map_state record_call set_history] in H.
    destruct (perf_map (perf_jit_map_state rt)); inv H;
      apply (quiet_step_frame _ _ [call_free_state jitdump_sink]); cbn; auto.
Qed.

Lemma call_init_quiet os rt p rt' :
  call_init os rt = Done (p, rt') -> quiet_step rt rt'.
Proof.
  unfold call_init. intros H.
  destruct (init_state (trampoline_api rt)) as [[]|]; [| |discriminate].
  - inv H. apply (quiet_step_frame _ _ [call_init_state perfmap_sink]);
      cbn; auto.
  - apply jit_init_frame in H. destruct H.
    apply (quiet_step_frame _ _ [call_init_state jitdump_sink]);
      cbn in *; try reflexivity; congruence.
Qed.

Lemma Fini_quiet rt r rt' :
  _PyPerfTrampoline_Fini rt = Done (r, rt') ->
  quiet_step rt rt' /\ perf_status rt' <> PERF_STATUS_OK \/ rt' = rt.
Proof.
  unfold _PyPerfTrampoline_Fini, bind. intros H.
  destruct (perf_status rt) eqn:Es; [inv H; auto|inv H; auto|].
  left.
  set (rt0 := if is_py_trampoline_evaluator (eval_frame rt)
              then _PyInterpreterState_SetEvalFrameFunc eval_NULL rt else rt) in *.
  assert (quiet_step rt rt0) as H0.
  { subst rt0. destruct (is_py_trampoline_evaluator (eval_frame rt));
      [|apply quiet_step_refl].
    apply quiet_step_same; cbn; auto. }
  destruct (call_free rt0) as [[r1 rt1]|] eqn:Ef; [|discriminate].
  apply call_free_quiet in Ef. inv H. split; [|cbn; discriminate].
  eapply quiet_step_trans; [exact H0|]. eapply quiet_step_trans; [exact Ef|].
  apply quiet_step_same; cbn; auto; discriminate.
Qed.

Lemma Fini_quiet_step rt r rt' :
  _PyPerfTrampoline_Fini rt = Done (r, rt') -> quiet_step rt rt'.
Proof.
  intros H. destruct (Fini_quiet rt r rt' H) as [[Hq _]| ->];
    [exact Hq|apply quiet_step_refl].
Qed.

Lemma SetCallbacks_quiet callbacks rt r rt' :
  _PyPerfTrampoline_SetCallbacks callbacks rt = Done (r, rt') -> quiet_step rt rt'.
Proof.
  unfold _PyPerfTrampoline_SetCallbacks, bind. intros H.
  destruct callbacks as [cb|]; [|inv H; apply quiet_step_refl].
  assert (forall rt1, quiet_step rt rt1 ->
            quiet_step rt
              (set_api_state state_NULL
                 (set_api_free_state (Some cb)
                    (set_api_write_state (Some cb)
                       (set_api_init_state (Some cb) rt1))))) as Hset.
  { intros rt1 Hq. eapply quiet_step_trans; [exact Hq|].
    apply quiet_step_same; cbn; auto. }
  destruct (is_state_NULL (state (trampoline_api rt))).
  - inv H. apply Hset, quiet_step_refl.
  - destruct (_PyPerfTrampoline_Fini rt) as [[r1 rt1]|] eqn:Ef; [|discriminate].
    inv H. apply Hset. eapply Fini_quiet_step; eassumption.
Qed.

(** [_PyPerfTrampoline_Init] is the one call that sets
    [PERF_STATUS_OK], and it does so with an arena in the list. *)
Lemma Init_ready os activate rt r rt' :
  _PyPerfTrampoline_Init T os activate rt = Done (r, rt') ->
  (mappings_accounted rt -> mappings_accounted rt') /\
  (dispatch_ready rt -> dispatch_ready rt').
Proof.
  unfold _PyPerfTrampoline_Init, bind. intros H.
  destruct (negb (is_eval_NULL (eval_frame rt))
            && negb (is_py_trampoline_evaluator (eval_frame rt)));
    [inv H; auto|].
  destruct (activate =? 0).
  { inv H. split; [auto|]. intros _ E. discriminate E. }
  set (rt0 := _PyInterpreterState_SetEvalFrameFunc eval_py_trampoline_evaluator rt) in *.
  assert (quiet_step rt rt0) as H0.
  { apply quiet_step_same; cbn; auto. }
  destruct (new_code_arena T (i_arena os) rt0) as [[res rt1]|] eqn:En; [|discriminate].
  pose proof (new_code_arena_quiet _ _ _ _ En) as H1.
  pose proof (quiet_step_trans _ _ _ H0 H1) as H01.
  assert (forall rt2, quiet_step rt rt2 ->
            (mappings_accounted rt -> mappings_accounted rt2) /\
            (dispatch_ready rt -> dispatch_ready rt2)) as Hquiet.
  { intros rt2 (Q1 & Q2 & Q3). split; [exact Q1|].
    intros Hr E. apply Q2, Hr, Q3, E. }
  destruct (Z.ltb_spec res 0) as [Hneg|Hpos]; [inv H; apply Hquiet, H01|].
  assert (perf_code_arena rt1 <> []) as Hne1.
  { apply new_code_arena_effect in En.
    destruct En as (_ & _ & _ & _ & [(_ & _ & a & ->)|(-> & _)]); [discriminate|lia]. }
  set (rt2 := set_extra_code_index (i_extra_index os) rt1) in *.
  assert (quiet_step rt1 rt2) as H12.
  { apply quiet_step_same; cbn; auto. }
  destruct (extra_code_index rt2 =? -1).
  { inv H. apply Hquiet. eapply quiet_step_trans; eassumption. }
  assert (forall rt3, quiet_step rt2 rt3 ->
            (mappings_accounted rt -> mappings_accounted (set_perf_status PERF_STATUS_OK rt3)) /\
            (dispatch_ready rt -> dispatch_ready (set_perf_status PERF_STATUS_OK rt3)))
    as Hok.
  { intros rt3 H23.
    pose proof (quiet_step_trans _ _ _ H01 (quiet_step_trans _ _ _ H12 H23))
      as (Q1 & _ & _).
    destruct (quiet_step_trans _ _ _ H12 H23) as (_ & Q2 & _).
    split; [exact Q1|]. intros _ _. cbn. apply Q2, Hne1. }
  destruct (is_state_NULL (state (trampoline_api rt2))
            && match init_state (trampoline_api rt2) with
               | Some _ => true
               | None => false
               end).
  - destruct (call_init (i_sink os) rt2) as [[p rt3]|] eqn:Ei; [|discriminate].
    inv H. apply call_init_quiet in Ei.
    destruct (Hok rt3 Ei) as [Q1 Q2].
    split.
    + intros HP. specialize (Q1 HP). exact Q1.
    + intros Hr. specialize (Q2 Hr). intros _. cbn.
      destruct Ei as (_ & Q & _). destruct H12 as (_ & Q' & _). auto.
  - inv H. apply Hok, quiet_step_refl.
Qed.

Lemma evaluator_quiet os ts frame throw rt v rt' :
  py_trampoline_evaluator T arch ev os ts frame throw rt = Done (v, rt') ->
  quiet_step rt rt'.
Proof.
  unfold py_trampoline_evaluator, bind. intros H.
  destruct (perf_status rt); [inv H; apply quiet_step_refl|inv H; apply quiet_step_refl|].
  unfold _PyCode_GetExtra in H.
  assert (forall f rt1, quiet_step rt rt1 ->
            quiet_step rt (snd (run_stub f ts frame throw ev rt1))) as Hstub.
  { intros f rt1 Hq. eapply quiet_step_trans; [exact Hq|].
    apply (quiet_step_frame _ _ [call_stub f (co_addr (f_code frame))]); cbn; auto. }
  destruct (negb (0 =? 0) || (co_extra rt (co_addr (_PyFrame_GetCode frame))
                                (extra_code_index rt) =? NULL)).
  - destruct (compile_trampoline T (d_arena os) rt) as [[p rt1]|] eqn:Ec; [|discriminate].
    apply compile_trampoline_quiet in Ec.
    destruct (p =? NULL); [inv H; exact Ec|].
    destruct (perf_code_arena rt1) as [|head prev] eqn:Ea; [discriminate|].
    destruct (call_write arch (d_write os) p (code_size head) (_PyFrame_GetCode frame) rt1)
      as [rt2|] eqn:Ew; [|discriminate].
    apply call_write_quiet in Ew.
    unfold _PyCode_SetExtra in H.
    destruct (d_set_extra os); inv H.
    + apply (Hstub p). eapply quiet_step_trans; [exact Ec|].
      eapply quiet_step_trans; [exact Ew|].
      apply quiet_step_same; cbn; auto.
    + apply (Hstub p). eapply quiet_step_trans; eassumption.
  - inv H. apply (Hstub _ rt), quiet_step_refl.
Qed.

Lemma CompileCode_quiet os co rt r rt' :
  PyUnstable_PerfTrampoline_CompileCode T arch os co rt = Done (r, rt') ->
  quiet_step rt rt'.
Proof.
  unfold PyUnstable_PerfTrampoline_CompileCode, bind, _PyCode_GetExtra. intros H.
  destruct (negb (0 =? 0) || (co_extra rt (co_addr co) (extra_code_index rt) =? NULL));
    [|inv H; apply quiet_step_refl].
  destruct (compile_trampoline T (d_arena os) rt) as [[p rt1]|] eqn:Ec; [|discriminate].
  apply compile_trampoline_quiet in Ec.
  destruct (p =? NULL); [inv H; exact Ec|].
  destruct (perf_code_arena rt1) as [|head prev] eqn:Ea; [discriminate|].
  destruct (call_write arch (d_write os) p (code_size head) co rt1)
    as [rt2|] eqn:Ew; [|discriminate].
  apply call_write_quiet in Ew.
  unfold _PyCode_SetExtra in H.
  destruct (d_set_extra os); inv H.
  - eapply quiet_step_trans; [exact Ec|].
    eapply quiet_step_trans; [exact Ew|].
    apply quiet_step_same; cbn; auto.
  - eapply quiet_step_trans; eassumption.
Qed.

Lemma quiet_step_keeps rt rt' :
  quiet_step rt rt' ->
  (mappings_accounted rt -> mappings_accounted rt') /\
  (dispatch_ready rt -> dispatch_ready rt').
Proof.
  intros (Q1 & Q2 & Q3). split; [exact Q1|].
  intros Hr E. apply Q2, Hr, Q3, E.
Qed.

Lemma AfterFork_Child_keeps os rt st rt' :
  _PyPerfTrampoline_AfterFork_Child T os rt = Done (st, rt') ->
  (mappings_accounted rt -> mappings_accounted rt') /\
  (dispatch_ready rt -> dispatch_ready rt').
Proof.
  unfold _PyPerfTrampoline_AfterFork_Child, bind. intros H.
  destruct (negb (persist_after_fork rt =? 0)).
  - destruct (negb (is_TYPE_MAP (perf_trampoline_type rt))); [inv H; auto|].
    destruct (_PyPerfTrampoline_Fini rt) as [[r1 rt1]|] eqn:Ef; [|discriminate].
    apply Fini_quiet_step in Ef.
    destruct (negb (fk_copy_perf_map_file os =? 0)); inv H;
      apply quiet_step_keeps, Ef.
  - destruct (_PyPerfTrampoline_Fini rt) as [[r1 rt1]|] eqn:Ef; [|discriminate].
    apply Fini_quiet_step, quiet_step_keeps in Ef. destruct Ef as [F1 F2].
    destruct (negb (_PyIsPerfTrampolineActive rt =? 0)).
    + destruct (_PyPerfTrampoline_Init T (fk_init os) 1 rt1) as [[r2 rt2]|] eqn:Ei;
        [|discriminate].
      inv H. apply Init_ready in Ei. destruct Ei as [I1 I2]. auto.
    + inv H. auto.
Qed.

Lemma api_call_keeps rt rt' :
  api_call T arch ev rt rt' ->
  (mappings_accounted rt -> mappings_accounted rt') /\
  (dispatch_ready rt -> dispatch_ready rt').
Proof.
  intros [os activate rt0 r rt1 H|rt0 r rt1 H|cb rt0 r rt1 H|enable rt0 r rt1 H
         |os rt0 st rt1 H|os ts frame throw rt0 v rt1 H|os co rt0 r rt1 H].
  - eapply Init_ready; eassumption.
  - eapply quiet_step_keeps, Fini_quiet_step; eassumption.
  - eapply quiet_step_keeps, SetCallbacks_quiet; eassumption.
  - unfold PyUnstable_PerfTrampoline_SetPersistAfterFork in H. inv H.
    apply quiet_step_keeps.
    apply quiet_step_same; cbn; auto.
  - eapply AfterFork_Child_keeps; eassumption.
  - eapply quiet_step_keeps, evaluator_quiet; eassumption.
  - eapply quiet_step_keeps, CompileCode_quiet; eassumption.
Qed.

End Quiet.

(** ** Unmapping the arenas *)

Lemma fold_munmap l : forall rt,
  fold_left (fun rt a => record_call (call_munmap (start_addr a)) rt) l rt
  = set_history
      (history rt ++ map (fun a => call_munmap (start_addr a)) l) rt.
Proof.
  induction l as [|a l IH]; intros rt; cbn [fold_left map].
  - destruct rt. cbn. rewrite app_nil_r. reflexivity.
  - rewrite IH. destruct rt. cbn. rewrite <- app_assoc. reflexivity.
Qed.

Lemma free_code_arenas_eq rt :
  free_code_arenas rt
  = set_history
      (history rt ++ map (fun a => call_munmap (start_addr a)) (perf_code_arena rt))
      (set_perf_code_arena [] rt).
Proof. unfold free_code_arenas. rewrite fold_munmap. reflexivity. Qed.

(** X3: [_PyPerfTrampoline_FreeArenas] unmaps every arena of the list
    once, the head of the list first, and leaves the list empty; the
    status, the evaluator hook and the stub addresses stored in the code
    objects stay as they were; a second call changes nothing. *)
Theorem free_arenas_unmaps_each_arena_once rt :
  let rt' := _PyPerfTrampoline_FreeArenas rt in
  perf_code_arena rt' = [] /\
  history rt'
  = history rt ++ map (fun a => call_munmap (start_addr a)) (perf_code_arena rt) /\
  perf_status rt' = perf_status rt /\
  eval_frame rt' = eval_frame rt /\
  co_extra rt' = co_extra rt /\
  _PyPerfTrampoline_FreeArenas rt' = rt'.
Proof.
  cbv zeta. unfold _PyPerfTrampoline_FreeArenas.
  rewrite !free_code_arenas_eq. cbn. rewrite app_nil_r. repeat split.
Qed.

Lemma unmapped_addrs_munmap (l : list code_arena_t) :
  unmapped_addrs (map (fun a => call_munmap (start_addr a)) l) = map start_addr l.
Proof. induction l as [|a l IH]; cbn; [reflexivity|]. f_equal. exact IH. Qed.

Lemma mapped_addrs_munmap (l : list code_arena_t) :
  mapped_addrs (map (fun a => call_munmap (start_addr a)) l) = [].
Proof. induction l as [|a l IH]; cbn; [reflexivity|exact IH]. Qed.

Lemma FreeArenas_accounted rt :
  mappings_accounted rt ->
  mappings_accounted (_PyPerfTrampoline_FreeArenas rt) /\
  Permutation (mapped_addrs (history (_PyPerfTrampoline_FreeArenas rt)))
    (unmapped_addrs (history (_PyPerfTrampoline_FreeArenas rt))).
Proof.
  unfold mappings_accounted, _PyPerfTrampoline_FreeArenas. intros HP.
  rewrite free_code_arenas_eq. cbn.
  rewrite mapped_addrs_app, unmapped_addrs_app, mapped_addrs_munmap,
    unmapped_addrs_munmap, !app_nil_r.
  split; exact HP.
Qed.

Section Runs2.
Variable T : list Z.
Variable arch : target_arch.
Variable ev : Z -> _PyInterpreterFrame -> Z -> Z.

Lemma api_step_accounted rt rt' :
  api_step T arch ev rt rt' -> mappings_accounted rt -> mappings_accounted rt'.
Proof.
  intros [rt0 rt1 H|rt0] HP.
  - apply (api_call_keeps T arch ev) in H. apply H, HP.
  - apply FreeArenas_accounted, HP.
Qed.

(** X4: no arena mapping is lost or unmapped twice.  Over any sequence
    of calls of the entry points, every address that [mmap] returned for
    an arena is either unmapped again or the start of an arena of the
    list, once each; after [_PyPerfTrampoline_FreeArenas] the addresses
    mapped and the addresses unmapped are the same, each counted as
    often. *)
Theorem arena_mappings_stay_accounted rt rt' :
  mappings_accounted rt ->
  run_of (api_step T arch ev) rt rt' ->
  mappings_accounted rt' /\
  Permutation
    (mapped_addrs (history (_PyPerfTrampoline_FreeArenas rt')))
    (unmapped_addrs (history (_PyPerfTrampoline_FreeArenas rt'))).
Proof.
  intros HP Hrun.
  assert (mappings_accounted rt') as HP'.
  { induction Hrun as [rt|rt rt1 rt2 Hrun IH Hstep]; [exact HP|].
    eapply api_step_accounted; [exact Hstep|]. apply IH, HP. }
  split; [exact HP'|]. apply FreeArenas_accounted, HP'.
Qed.

(** *** No path of the sinks reads through a NULL stream *)

Lemma write_fully_keeps b rt rt' :
  perf_map_jit_write_fully b rt = Done rt' ->
  perf_map (perf_jit_map_state rt') = perf_map (perf_jit_map_state rt).
Proof.
  unfold perf_map_jit_write_fully. intros H.
  destruct b; [inv H; reflexivity|].
  destruct (perf_map (perf_jit_map_state rt)) eqn:E; inv H.
  cbn. congruence.
Qed.

Lemma write_all_no_null bs : forall rt,
  perf_map (perf_jit_map_state rt) <> FILE_NULL ->
  write_all bs rt <> Fault NullDereference /\
  forall rt', write_all bs rt = Done rt' ->
              perf_map (perf_jit_map_state rt') <> FILE_NULL.
Proof.
  induction bs as [|b bs IH]; intros rt Hn; cbn [write_all].
  - split; [discriminate|]. intros rt' H. inv H. exact Hn.
  - destruct (perf_map_jit_write_fully b rt) as [rt1|f] eqn:E; cbn [bind].
    + apply IH. rewrite (write_fully_keeps _ _ _ E). exact Hn.
    + split; [|discriminate].
      unfold perf_map_jit_write_fully in E.
      destruct b; [discriminate|].
      destruct (perf_map (perf_jit_map_state rt)); [contradiction|discriminate|].
      inv E. discriminate.
Qed.

Lemma jit_write_records_no_null os a sz co rt :
  perf_map (perf_jit_map_state rt) <> FILE_NULL ->
  jit_write_records arch os a sz co rt <> Fault NullDereference.
Proof.
  intros Hn. unfold jit_write_records.
  destruct (negb (wr_malloc os)); [discriminate|].
  destruct (write_all_no_null (unwinding_record arch os sz) rt Hn) as [H1 H2].
  destruct (write_all (unwinding_record arch os sz) rt) as [rt1|f] eqn:E; cbn [bind].
  - apply write_all_no_null. cbn. apply H2. reflexivity.
  - exact H1.
Qed.

Lemma jit_init_returns os rt :
  exists p rt', perf_map_jit_init os rt = Done (p, rt').
Proof.
  destruct (perf_map_jit_init os rt) as [[p rt']|f] eqn:E; [eauto|].
  exfalso. unfold perf_map_jit_init, perf_map_jit_write_header,
    perf_map_jit_write_fully, bind in E.
  repeat (break_match; try discriminate).
Qed.

Lemma jit_write_entry_no_null os a sz co rt :
  perf_map_jit_write_entry arch os a sz co rt <> Fault NullDereference.
Proof.
  unfold perf_map_jit_write_entry.
  destruct (perf_map (perf_jit_map_state rt)) eqn:Ep.
  - destruct (jit_init_returns (wr_init os) rt) as (p & rt1 & E).
    rewrite E. cbn [bind]. destruct p; [discriminate|].
    apply jit_write_records_no_null.
    destruct (jit_init_success _ _ _ E) as (Ho & _). rewrite Ho. discriminate.
  - apply jit_write_records_no_null. rewrite Ep. discriminate.
  - apply jit_write_records_no_null. rewrite Ep. discriminate.
Qed.

Lemma call_write_no_null os a sz co rt :
  call_write arch os a sz co rt <> Fault NullDereference.
Proof.
  unfold call_write.
  destruct (write_state (trampoline_api rt)) as [[]|]; try discriminate.
  apply jit_write_entry_no_null.
Qed.

Lemma new_code_arena_no_null os rt :
  new_code_arena T os rt <> Fault NullDereference.
Proof.
  unfold new_code_arena. repeat (break_match; try discriminate).
Qed.

Lemma compile_trampoline_no_null os rt :
  perf_code_arena rt <> [] ->
  compile_trampoline T os rt <> Fault NullDereference.
Proof.
  intros Hne. unfold compile_trampoline.
  destruct (perf_code_arena rt) as [|head prev] eqn:Ea; [contradiction|].
  cbn [is_NULL_arena orb].
  destruct (size_left head <=? _).
  - destruct (new_code_arena T os rt) as [[res rt1]|f] eqn:En; cbn [bind].
    + destruct (Z.ltb_spec res 0); [discriminate|].
      apply new_code_arena_effect in En.
      destruct En as (_ & _ & _ & _ & [(_ & _ & a & ->)|(-> & _)]); [|lia].
      unfold code_arena_new_code. discriminate.
    + intros E. inv E. eapply new_code_arena_no_null. exact En.
  - cbn [bind]. rewrite Ea. unfold code_arena_new_code. discriminate.
Qed.

Lemma evaluator_no_null os ts frame throw rt :
  dispatch_ready rt ->
  py_trampoline_evaluator T arch ev os ts frame throw rt
  <> Fault NullDereference.
Proof.
  intros Hr. unfold py_trampoline_evaluator.
  destruct (perf_status rt) eqn:Es; try discriminate.
  specialize (Hr Es). unfold _PyCode_GetExtra.
  destruct (negb (0 =? 0) || _); [|discriminate].
  destruct (compile_trampoline T (d_arena os) rt) as [[p rt1]|f] eqn:Ec; cbn [bind].
  - destruct (Z.eqb_spec p NULL); [discriminate|].
    destruct (compile_trampoline_arena T (d_arena os) rt p rt1 Ec n)
      as (head & prev & ->).
    destruct (call_write arch (d_write os) p (code_size head)
                (_PyFrame_GetCode frame) rt1) as [rt2|f] eqn:Ew; cbn [bind].
    + destruct (_PyCode_SetExtra _ _ _ _ _). discriminate.
    + intros E. inv E. eapply call_write_no_null. exact Ew.
  - intros E. inv E. eapply compile_trampoline_no_null; eassumption.
Qed.

(** X5: the status shields the evaluator.  In every state reached
    through calls of the entry points other than
    [_PyPerfTrampoline_FreeArenas], from a state in which
    [PERF_STATUS_OK] comes with an arena, [PERF_STATUS_OK] still comes
    with an arena, and the evaluator hook never reads through a NULL
    arena or a NULL stream, whatever the operating system answers. *)
Theorem evaluator_finds_its_arena rt rt' :
  dispatch_ready rt ->
  run_of (api_call T arch ev) rt rt' ->
  dispatch_ready rt' /\
  forall os ts frame throw,
    py_trampoline_evaluator T arch ev os ts frame throw rt'
    <> Fault NullDereference.
Proof.
  intros Hr Hrun.
  assert (dispatch_ready rt') as Hr'.
  { induction Hrun as [rt|rt rt1 rt2 Hrun IH Hstep]; [exact Hr|].
    apply (api_call_keeps T arch ev) in Hstep. apply Hstep, IH, Hr. }
  split; [exact Hr'|]. intros os ts frame throw.
  apply evaluator_no_null, Hr'.
Qed.

End Runs2.

Lemma arena_mappings_stay_accounted_witness :
  let T := nop_template 96 in
  let rt0 := fresh_runtime (Some perfmap_sink) in
  let rt1 :=
    snd (result_of
           (_PyPerfTrampoline_Init T (init_with (arena_ok 0x10000)) 1 rt0)
           (0, default_runtime)) in
  let rt2 :=
    snd (result_of
           (py_trampoline_evaluator T X86_64 eval_stub os_ok 1 (frame_of code_f)
              0 rt1)
           (0, default_runtime)) in
  let rt3 := _PyPerfTrampoline_FreeArenas rt2 in
  mappings_accounted rt3 /\
  Permutation
    (mapped_addrs (history (_PyPerfTrampoline_FreeArenas rt3)))
    (unmapped_addrs (history (_PyPerfTrampoline_FreeArenas rt3))).
Proof.
  intros T rt0 rt1 rt2 rt3.
  exact (arena_mappings_stay_accounted T X86_64 eval_stub rt0 rt3
           (perm_nil Z)
           (run_then _ rt0 rt2 rt3
              (run_then _ rt0 rt1 rt2
                 (run_then _ rt0 rt0 rt1
                    (run_done _ rt0)
                    (step_call T X86_64 eval_stub rt0 rt1
                       (call_Init T X86_64 eval_stub
                          (init_with (arena_ok 0x10000)) 1 rt0 _ rt1
                          (done_pair
                             (_PyPerfTrampoline_Init T
                                (init_with (arena_ok 0x10000)) 1 rt0)
                             (0, default_runtime)
                             ltac:(vm_compute; reflexivity)))))
                 (step_call T X86_64 eval_stub rt1 rt2
                    (call_evaluator T X86_64 eval_stub os_ok 1
                       (frame_of code_f) 0 rt1 _ rt2
                       (done_pair
                          (py_trampoline_evaluator T X86_64 eval_stub os_ok 1
                             (frame_of code_f) 0 rt1)
                          (0, default_runtime)
                          ltac:(vm_compute; reflexivity)))))
              (step_FreeArenas T X86_64 eval_stub rt2))).
Defined.

Lemma evaluator_finds_its_arena_witness :
  let T := nop_template 96 in
  let rt0 := fresh_runtime (Some perfmap_sink) in
  let rt1 :=
    snd (result_of
           (_PyPerfTrampoline_Init T (init_with (arena_ok 0x10000)) 1 rt0)
           (0, default_runtime)) in
  let rt2 :=
    snd (result_of
           (py_trampoline_evaluator T X86_64 eval_stub os_mmap_fails 1
              (frame_of code_f) 0 rt1)
           (0, default_runtime)) in
  dispatch_ready rt2 /\
  forall os ts frame throw,
    py_trampoline_evaluator T X86_64 eval_stub os ts frame throw rt2
    <> Fault NullDereference.
Proof.
  intros T rt0 rt1 rt2.
  exact (evaluator_finds_its_arena T X86_64 eval_stub rt0 rt2
           (fun H : perf_status rt0 = PERF_STATUS_OK =>
              ltac:(vm_compute in H; discriminate H))
           (run_then _ rt0 rt1 rt2
              (run_then _ rt0 rt0 rt1
                 (run_done _ rt0)
                 (call_Init T X86_64 eval_stub
                    (init_with (arena_ok 0x10000)) 1 rt0 _ rt1
                    (done_pair
                       (_PyPerfTrampoline_Init T
                          (init_with (arena_ok 0x10000)) 1 rt0)
                       (0, default_runtime)
                       ltac:(vm_compute; reflexivity))))
              (call_evaluator T X86_64 eval_stub os_mmap_fails 1
                 (frame_of code_f) 0 rt1 _ rt2
                 (done_pair
                    (py_trampoline_evaluator T X86_64 eval_stub os_mmap_fails 1
                       (frame_of code_f) 0 rt1)
                    (0, default_runtime)
                    ltac:(vm_compute; reflexivity))))).
Defined.

(** ** Reading fields back *)

Lemma field_at (a : list Z) n v rest off :
  off = List.length a ->
  field off n (a ++ le_bytes n v ++ rest) = v mod 2 ^ (8 * Z.of_nat n).
Proof.
  intros ->. unfold field.
  rewrite skipn_app, skipn_all, Nat.sub_diag. cbn [skipn app].
  rewrite firstn_app, length_le_bytes, Nat.sub_diag.
  rewrite <- (length_le_bytes n v) at 1. rewrite firstn_all.
  cbn [firstn]. rewrite app_nil_r. apply le_value_le_bytes.
Qed.

Lemma field_at_0 n v rest :
  field 0 n (le_bytes n v ++ rest) = v mod 2 ^ (8 * Z.of_nat n).
Proof. exact (field_at [] n v rest 0%nat eq_refl). Qed.

Lemma field_at_end (a : list Z) n v off :
  off = List.length a ->
  field off n (a ++ le_bytes n v) = v mod 2 ^ (8 * Z.of_nat n).
Proof.
  intros H. rewrite <- (app_nil_r (le_bytes n v)). apply field_at. exact H.
Qed.

(** ** The header of the dump *)

Lemma jit_init_dump os rt0 rt :
  perf_map_jit_init os rt0 = Done (state_jit, rt) ->
  jit_dump rt
  = Header_bytes
      {| h_magic := 0x4A695444; h_version := 1; h_size := sizeof_Header;
         h_elf_mach_target := GetElfMachineArchitecture;
         h_reserved := os_header_reserved os;
         h_process_id := os_getpid os;
         h_time_stamp := os_time_microseconds os;
         h_flags := 0 |} /\
  code_padding (trampoline_api rt) = PERF_JIT_CODE_PADDING /\
  perf_trampoline_type rt = perf_trampoline_type rt0 /\
  mapped_buffer (perf_jit_map_state rt) = os_mmap_file os /\
  mapped_size (perf_jit_map_state rt) = os_sysconf_pagesize os.
Proof.
  unfold perf_map_jit_init. intros H.
  destruct (os_open os =? -1); [discriminate|].
  destruct (os_sysconf_pagesize os =? -1); [discriminate|].
  destruct (mapped_buffer _ =? NULL); [discriminate|].
  destruct (os_fdopen os); cbn [perf_map perf_jit_map_state set_jit_perf_map
                                  set_perf_jit_map_state] in H; [|discriminate].
  unfold perf_map_jit_write_header in H.
  rewrite write_fully_open in H by (auto using Header_bytes_nonempty).
  cbn [bind] in H.
  destruct (os_allocate_lock os);
    cbn [map_lock perf_jit_map_state set_jit_map_lock set_perf_jit_map_state negb] in H;
    [|discriminate].
  inv H. cbn. repeat split.
Qed.

(** X6: after a successful [perf_map_jit_init] the dump holds the
    header and nothing else, 40 bytes; read back in little-endian order
    they give the magic number [0x4A695444] at offset 0, the version 1
    at 4, the size 40 at 8, the machine 0 at 12 (every [TARGET_ARCH_*]
    macro is 0), the process id at 20, the time stamp at 24 and the
    flags 0 at 32.  [code_id] is 0, [code_padding] is
    [PERF_JIT_CODE_PADDING], and the trampoline type is as it was. *)
Theorem jitdump_header_reads_back os rt0 rt :
  perf_map_jit_init os rt0 = Done (state_jit, rt) ->
  let dump := jit_dump rt in
  zlength dump = sizeof_Header /\
  field 0 4 dump = 0x4A695444 /\
  field 4 4 dump = 1 /\
  field 8 4 dump = sizeof_Header /\
  field 12 4 dump = 0 /\
  field 20 4 dump = to_uint32 (os_getpid os) /\
  field 24 8 dump = to_uint64 (os_time_microseconds os) /\
  field 32 8 dump = 0 /\
  code_id (perf_jit_map_state rt) = 0 /\
  code_padding (trampoline_api rt) = PERF_JIT_CODE_PADDING /\
  perf_trampoline_type rt = perf_trampoline_type rt0.
Proof.
  intros H. cbv zeta.
  destruct (jit_init_dump os rt0 rt H) as (Hd & Hp & Ht & _).
  destruct (jit_init_success os rt0 rt H) as (_ & Hc & _).
  rewrite Hd. set (h := Build_Header _ _ _ _ _ _ _ _).
  split; [apply zlength_Header_bytes|].
  repeat split; try assumption.
  - change (field 20 4 (Header_bytes h))
      with (le_value (le_bytes 4 (h_process_id h))).
    rewrite le_value_le_bytes. reflexivity.
  - change (field 24 8 (Header_bytes h))
      with (le_value (le_bytes 8 (h_time_stamp h))).
    rewrite le_value_le_bytes. reflexivity.
Qed.

Lemma jitdump_header_reads_back_witness :
  let dump :=
    jit_dump
      (snd (result_of (perf_map_jit_init jit_init_ok default_runtime)
              (state_NULL, default_runtime))) in
  zlength dump = sizeof_Header /\
  field 0 4 dump = 0x4A695444 /\
  field 4 4 dump = 1 /\
  field 8 4 dump = sizeof_Header /\
  field 12 4 dump = 0 /\
  field 20 4 dump = to_uint32 (os_getpid jit_init_ok) /\
  field 24 8 dump = to_uint64 (os_time_microseconds jit_init_ok) /\
  field 32 8 dump = 0 /\
  code_id
    (perf_jit_map_state
       (snd (result_of (perf_map_jit_init jit_init_ok default_runtime)
               (state_NULL, default_runtime)))) = 0 /\
  code_padding
    (trampoline_api
       (snd (result_of (perf_map_jit_init jit_init_ok default_runtime)
               (state_NULL, default_runtime)))) = PERF_JIT_CODE_PADDING /\
  perf_trampoline_type
    (snd (result_of (perf_map_jit_init jit_init_ok default_runtime)
            (state_NULL, default_runtime)))
  = perf_trampoline_type default_runtime.
Proof.
  exact (jitdump_header_reads_back jit_init_ok default_runtime
           (snd (result_of (perf_map_jit_init jit_init_ok default_runtime)
                   (state_NULL, default_runtime)))
           (eq_trans
              (done_pair (perf_map_jit_init jit_init_ok default_runtime)
                 (state_NULL, default_runtime) ltac:(vm_compute; reflexivity))
              (f_equal
                 (fun p =>
                    Done (p, snd (result_of
                                    (perf_map_jit_init jit_init_ok default_runtime)
                                    (state_NULL, default_runtime))))
                 (ltac:(vm_compute; reflexivity)
                   : fst (result_of (perf_map_jit_init jit_init_ok default_runtime)
                            (state_NULL, default_runtime)) = state_jit)))).
Defined.

(** ** The [.eh_frame] section *)

Lemma align_up_mod x : (x + (- x) mod 8) mod 8 = 0.
Proof.
  rewrite Z.add_mod_idemp_r by lia. rewrite Z.add_opp_diag_r. reflexivity.
Qed.

Lemma cie_body_shape arch p :
  exists tail,
    cie_body arch p = le_bytes 4 0 ++ le_bytes 1 DWRF_CIE_VERSION ++ tail.
Proof.
  unfold cie_body. cbv zeta. eexists.
  rewrite <- !app_assoc. reflexivity.
Qed.

Lemma fde_body_shape arch framep p code_size :
  exists tail,
    fde_body arch framep p code_size
    = le_bytes 4 (to_uint32 (p - framep)) ++ le_bytes 4 (- 0x30)
        ++ le_bytes 4 code_size ++ tail.
Proof.
  unfold fde_body. cbv zeta. eexists.
  rewrite <- !app_assoc. reflexivity.
Qed.

(** X7: what [elf_init_ehframe] writes is one CIE followed by one FDE,
    each a 4-byte length and as many bytes as it says, and nothing
    else.  Both end at an address that is a multiple of 8;
    [eh_frame_p] points just past the CIE; the CIE has id 0 and version
    [DWRF_CIE_VERSION]; the first word of the FDE is its distance back
    to the start of the section, the second is the constant [-0x30] and
    the third the size of the code. *)
Theorem eh_frame_is_a_cie_then_its_fde arch startp code_size :
  let ctx :=
    elf_init_ehframe arch
      {| ctx_startp := startp; ctx_written := []; ctx_eh_frame_p := 0;
         ctx_code_size := code_size |} in
  let w := ctx_written ctx in
  let cie := 4 + field 0 4 w in
  let fde := 4 + field (Z.to_nat cie) 4 w in
  cie + fde = zlength w /\
  ctx_eh_frame_p ctx = startp + cie /\
  ctx_p ctx = startp + zlength w /\
  (startp + cie) mod 8 = 0 /\
  (startp + zlength w) mod 8 = 0 /\
  field 4 4 w = 0 /\
  field 8 1 w = DWRF_CIE_VERSION /\
  field (Z.to_nat cie + 4) 4 w = cie + 4 /\
  field (Z.to_nat cie + 8) 4 w = to_uint32 (- 0x30) /\
  field (Z.to_nat cie + 12) 4 w = to_uint32 code_size.
Proof.
  cbv zeta. unfold elf_init_ehframe, ctx_p.
  cbn [ctx_startp ctx_written ctx_eh_frame_p ctx_code_size app].
  change (zlength []) with 0. rewrite !Z.add_0_r.
  set (Lc := cie_body arch (startp + 4)).
  assert (zlength (DWRF_SECTION Lc) = 4 + zlength Lc) as HsecC
    by apply zlength_section.
  rewrite HsecC.
  set (Lf := fde_body arch startp (startp + (4 + zlength Lc) + 4) code_size).
  pose proof (zlength_cie_body arch (startp + 4)) as HLc. fold Lc in HLc.
  pose proof (zlength_fde_body arch startp (startp + (4 + zlength Lc) + 4) code_size)
    as HLf. cbv zeta in HLf. fold Lf in HLf.
  set (n := 13 + match arch with X86_64 => 6 | AArch64 => 12 end) in HLf.
  assert (19 <= n <= 25) as Hn by (subst n; destruct arch; lia).
  pose proof (Z.mod_pos_bound (- (startp + 4 + 18)) 8 ltac:(lia)) as Hp1.
  pose proof (Z.mod_pos_bound (- (startp + (4 + zlength Lc) + 4 + n)) 8 ltac:(lia))
    as Hp2.
  assert (List.length Lc = Z.to_nat (zlength Lc)) as HlenC
    by (unfold zlength; rewrite Nat2Z.id; reflexivity).
  assert (List.length Lf = Z.to_nat (zlength Lf)) as HlenF
    by (unfold zlength; rewrite Nat2Z.id; reflexivity).
  assert (Z.of_nat (List.length Lc) = zlength Lc) as HzC by reflexivity.
  assert (Z.of_nat (List.length Lf) = zlength Lf) as HzF by reflexivity.
  destruct (cie_body_shape arch (startp + 4)) as (tc & Hc). fold Lc in Hc.
  destruct (fde_body_shape arch startp (startp + (4 + zlength Lc) + 4) code_size)
    as (tf & Hf). fold Lf in Hf.
  unfold DWRF_SECTION, DWRF_U32. rewrite HzC, HzF.
  assert (to_uint32 (startp + (4 + zlength Lc) + 4 - startp) = 4 + zlength Lc + 4)
    as Hptr.
  { replace (startp + (4 + zlength Lc) + 4 - startp) with (4 + zlength Lc + 4) by lia.
    apply to_uint32_small. unfold is_uint32. lia. }
  rewrite Hptr in Hf.
  assert (Z.to_nat (4 + zlength Lc)
          = List.length (le_bytes 4 (zlength Lc) ++ Lc)) as Hoff.
  { rewrite length_app, length_le_bytes. lia. }
  clearbody Lf. clearbody Lc.
  set (zc := zlength Lc) in *. set (zf := zlength Lf) in *.
  clearbody zc zf.
  assert (zlength ((le_bytes 4 zc ++ Lc) ++ le_bytes 4 zf ++ Lf)
          = 4 + zc + (4 + zf)) as Hw.
  { rewrite !zlength_app, !zlength_le_bytes.
    unfold zlength. rewrite HlenC, HlenF. lia. }
  rewrite Hw.
  assert (field 0 4 ((le_bytes 4 zc ++ Lc) ++ le_bytes 4 zf ++ Lf) = zc) as F0.
  { rewrite <- app_assoc. rewrite field_at_0. apply Z.mod_small. lia. }
  rewrite F0.
  assert (field (Z.to_nat (4 + zc)) 4 ((le_bytes 4 zc ++ Lc) ++ le_bytes 4 zf ++ Lf)
          = zf) as F1.
  { rewrite (field_at _ 4 zf) by exact Hoff. apply Z.mod_small. lia. }
  rewrite F1.
  split; [lia|]. split; [lia|]. split; [lia|].
  split.
  { rewrite HLc. replace (startp + (4 + (18 + (- (startp + 4 + 18)) mod 8)))
      with ((startp + 4 + 18) + (- (startp + 4 + 18)) mod 8) by lia.
    apply align_up_mod. }
  split.
  { rewrite HLf.
    replace (startp + (4 + zc + (4 + (n + (- (startp + (4 + zc) + 4 + n)) mod 8))))
      with ((startp + (4 + zc) + 4 + n)
            + (- (startp + (4 + zc) + 4 + n)) mod 8) by lia.
    apply align_up_mod. }
  split.
  { rewrite Hc. rewrite <- !app_assoc.
    rewrite (field_at (le_bytes 4 zc) 4 0) by reflexivity.
    reflexivity. }
  split.
  { rewrite Hc. rewrite <- !app_assoc.
    rewrite (app_assoc (le_bytes 4 zc) (le_bytes 4 0)).
    rewrite (field_at (le_bytes 4 zc ++ le_bytes 4 0) 1 DWRF_CIE_VERSION)
      by reflexivity.
    reflexivity. }
  rewrite Hoff.
  set (A := le_bytes 4 zc ++ Lc) in *. clearbody A.
  rewrite Hf.
  split; [|split].
  - rewrite (app_assoc A).
    rewrite (field_at _ 4 (4 + zc + 4)).
    + apply Z.mod_small. lia.
    + rewrite length_app, length_le_bytes. reflexivity.
  - rewrite (app_assoc A).
    rewrite (app_assoc _ (le_bytes 4 (4 + zc + 4))).
    rewrite (field_at _ 4 (- 0x30)).
    + reflexivity.
    + rewrite !length_app, !length_le_bytes. lia.
  - rewrite (app_assoc A).
    rewrite (app_assoc _ (le_bytes 4 (4 + zc + 4))).
    rewrite (app_assoc _ (le_bytes 4 (- 0x30))).
    rewrite (field_at _ 4 code_size).
    + reflexivity.
    + rewrite !length_app, !length_le_bytes. lia.
Qed.

(** ** The unwinding record *)

Section Unwind.
Variable arch : target_arch.

(** The values [perf_map_jit_write_entry] computes for the unwinding
    record, with the conversions that change nothing taken out. *)
Lemma unwinding_info_values os code_size :
  let ctx :=
    elf_init_ehframe arch
      {| ctx_startp := wr_buffer os; ctx_written := []; ctx_eh_frame_p := 0;
         ctx_code_size := to_uint32 code_size |} in
  let up := unwinding_info arch os code_size in
  let E := zlength (ctx_written ctx) in
  45 <= E <= 65 /\
  22 <= ctx_eh_frame_p ctx - wr_buffer os <= 29 /\
  up_eh_frame up = ctx_written ctx /\
  ui_unwind_data_size (up_ev2 up) = 20 + E /\
  ui_eh_frame_hdr_size (up_ev2 up) = 20 /\
  ui_mapped_size (up_ev2 up) = 16 * ((20 + E + 16 - 1) / 16) /\
  up_padding_size up = 8 * ((60 + E + 8 - 1) / 8) - (60 + E) /\
  base_size (ui_base (up_ev2 up)) = 60 + E + up_padding_size up /\
  eh_frame_ptr (up_f up) = - (E + 4) /\
  eh_fde_count (up_f up) = 1 /\
  eh_to (up_f up) = - (E - (ctx_eh_frame_p ctx - wr_buffer os)) /\
  eh_from (up_f up) = to_int32 (- (round_up code_size 8 + E)).
Proof.
  cbv zeta. unfold unwinding_info.
  destruct (eh_frame_size_bounds arch (wr_buffer os) (to_uint32 code_size))
    as (Hstart & HE & Hcie & Hlen).
  cbv zeta in Hstart, HE, Hcie, Hlen.
  set (ctx := elf_init_ehframe arch _) in *.
  rewrite Hstart in *. rewrite Hlen in *.
  set (E := zlength (ctx_written ctx)) in *.
  cbn [up_ev2 up_eh_frame up_f up_padding_size ui_unwind_data_size
       ui_eh_frame_hdr_size ui_mapped_size ui_base base_size eh_frame_ptr
       eh_fde_count eh_to eh_from].
  unfold sizeof_EhFrameHeader, sizeof_CodeUnwindingInfoEvent.
  rewrite (to_int32_small E) by (unfold is_int32; lia).
  rewrite (to_int32_small (40 + 20 + E)) by (unfold is_int32; lia).
  rewrite (to_uint64_small (20 + E)) by lia.
  rewrite (to_int64_small (20 + E)) by (unfold is_int64; lia).
  rewrite (round_up_nonneg (40 + 20 + E) 8) by lia.
  rewrite (round_up_nonneg (20 + E) 16) by lia.
  pose proof (Z.div_mod (40 + 20 + E + 8 - 1) 8 ltac:(lia)).
  pose proof (Z.mod_pos_bound (40 + 20 + E + 8 - 1) 8 ltac:(lia)).
  rewrite (to_int32_small (8 * ((40 + 20 + E + 8 - 1) / 8) - (40 + 20 + E)))
    by (unfold is_int32; lia).
  rewrite to_uint32_small by (unfold is_uint32; lia).
  rewrite (to_int32_small (ctx_eh_frame_p ctx - wr_buffer os))
    by (unfold is_int32; lia).
  rewrite (to_int32_small (- (E + 4 * 1))) by (unfold is_int32; lia).
  rewrite (to_int32_small (- (E - (ctx_eh_frame_p ctx - wr_buffer os))))
    by (unfold is_int32; lia).
  replace (40 + 20 + E) with (60 + E) by lia.
  repeat split; try lia.
  subst E. unfold zlength. rewrite Nat2Z.id. apply firstn_all.
Qed.

(** X8: the assertion of [perf_map_jit_write_entry] holds for every
    architecture and every code size.  The [.eh_frame] data is between
    45 and 65 bytes long, so [unwind_data_size], the 20 bytes of the
    header more, is at most [PERF_JIT_CODE_PADDING]; [mapped_size] is a
    multiple of 16 that covers it and is at most the padding as well;
    the record is padded by fewer than 8 bytes. *)
Theorem unwind_data_fits_code_padding os code_size :
  let up := unwinding_info arch os code_size in
  let E := zlength (up_eh_frame up) in
  45 <= E <= 65 /\
  ui_unwind_data_size (up_ev2 up) = sizeof_EhFrameHeader + E /\
  ui_unwind_data_size (up_ev2 up) <= PERF_JIT_CODE_PADDING /\
  ui_mapped_size (up_ev2 up) mod 16 = 0 /\
  ui_unwind_data_size (up_ev2 up) <= ui_mapped_size (up_ev2 up) /\
  ui_mapped_size (up_ev2 up) <= PERF_JIT_CODE_PADDING /\
  0 <= up_padding_size up < 8.
Proof.
  cbv zeta.
  destruct (unwinding_info_values os code_size)
    as (HE & _ & -> & -> & _ & -> & -> & _).
  set (E := zlength _) in *.
  unfold sizeof_EhFrameHeader, PERF_JIT_CODE_PADDING.
  pose proof (Z.div_mod (20 + E + 16 - 1) 16 ltac:(lia)).
  pose proof (Z.mod_pos_bound (20 + E + 16 - 1) 16 ltac:(lia)).
  pose proof (Z.div_mod (60 + E + 8 - 1) 8 ltac:(lia)).
  pose proof (Z.mod_pos_bound (60 + E + 8 - 1) 8 ltac:(lia)).
  repeat split; try lia.
  rewrite Z.mul_comm. apply Z.mod_mul. lia.
Qed.
End Unwind.

Lemma field_skip (a : list Z) off n b :
  field (List.length a + off) n (a ++ b) = field off n b.
Proof.
  unfold field. rewrite skipn_app.
  rewrite skipn_all2 by lia.
  replace (List.length a + off - List.length a)%nat with off by lia.
  reflexivity.
Qed.

Lemma to_int32_mod z : to_int32 (z mod 2 ^ 32) = to_int32 z.
Proof.
  unfold to_int32. rewrite Zplus_mod_idemp_l. reflexivity.
Qed.

Lemma EhFrameHeader_fields f rest :
  field 0 1 (EhFrameHeader_bytes f ++ rest) = eh_version f mod 2 ^ 8 /\
  field 4 4 (EhFrameHeader_bytes f ++ rest) = eh_frame_ptr f mod 2 ^ 32 /\
  field 8 4 (EhFrameHeader_bytes f ++ rest) = eh_fde_count f mod 2 ^ 32 /\
  field 12 4 (EhFrameHeader_bytes f ++ rest) = eh_from f mod 2 ^ 32 /\
  field 16 4 (EhFrameHeader_bytes f ++ rest) = eh_to f mod 2 ^ 32.
Proof.
  repeat split.
  - change (field 0 1 (EhFrameHeader_bytes f ++ rest))
      with (le_value (le_bytes 1 (eh_version f))).
    apply le_value_le_bytes.
  - change (field 4 4 (EhFrameHeader_bytes f ++ rest))
      with (le_value (le_bytes 4 (eh_frame_ptr f))).
    apply le_value_le_bytes.
  - change (field 8 4 (EhFrameHeader_bytes f ++ rest))
      with (le_value (le_bytes 4 (eh_fde_count f))).
    apply le_value_le_bytes.
  - change (field 12 4 (EhFrameHeader_bytes f ++ rest))
      with (le_value (le_bytes 4 (eh_from f))).
    apply le_value_le_bytes.
  - change (field 16 4 (EhFrameHeader_bytes f ++ rest))
      with (le_value (le_bytes 4 (eh_to f))).
    apply le_value_le_bytes.
Qed.

Lemma CodeUnwindingInfoEvent_fields ev rest :
  field 16 8 (CodeUnwindingInfoEvent_bytes ev ++ rest)
  = ui_unwind_data_size ev mod 2 ^ 64 /\
  field 24 8 (CodeUnwindingInfoEvent_bytes ev ++ rest)
  = ui_eh_frame_hdr_size ev mod 2 ^ 64 /\
  field 32 8 (CodeUnwindingInfoEvent_bytes ev ++ rest)
  = ui_mapped_size ev mod 2 ^ 64.
Proof.
  repeat split.
  - change (field 16 8 (CodeUnwindingInfoEvent_bytes ev ++ rest))
      with (le_value (le_bytes 8 (ui_unwind_data_size ev))).
    apply le_value_le_bytes.
  - change (field 24 8 (CodeUnwindingInfoEvent_bytes ev ++ rest))
      with (le_value (le_bytes 8 (ui_eh_frame_hdr_size ev))).
    apply le_value_le_bytes.
  - change (field 32 8 (CodeUnwindingInfoEvent_bytes ev ++ rest))
      with (le_value (le_bytes 8 (ui_mapped_size ev))).
    apply le_value_le_bytes.
Qed.

Lemma In_firstn {A : Type} (x : A) n : forall l, In x (firstn n l) -> In x l.
Proof.
  induction n as [|n IH]; intros [|y l] H; cbn in H; try contradiction.
  destruct H as [->|H]; [left; reflexivity|right; apply IH, H].
Qed.

Section UnwindRecord.
Variable arch : target_arch.

(** X9: the unwinding record read back from its bytes, for a code
    size below [2^31 - 2^8].  After the 16 bytes of the framing come
    [unwind_data_size], the [.eh_frame] length and 20, the header size
    20 and [mapped_size]; at offset 40 the [.eh_frame] bytes as
    [elf_init_ehframe] wrote them; after them the header with version 1,
    [eh_frame_ptr = -(eh_frame_size + 4)], one FDE,
    [from = -(round_up(code_size, 8) + eh_frame_size)] and
    [to = -(eh_frame_size - cie_size)], none of them wrapped; what
    follows is zero bytes only. *)
Theorem unwinding_record_reads_back os code_size :
  0 <= code_size < 2 ^ 31 - 2 ^ 8 ->
  let ctx :=
    elf_init_ehframe arch
      {| ctx_startp := wr_buffer os; ctx_written := []; ctx_eh_frame_p := 0;
         ctx_code_size := to_uint32 code_size |} in
  let r := List.concat (unwinding_record arch os code_size) in
  let E := zlength (ctx_written ctx) in
  let hdr := (40 + Z.to_nat E)%nat in
  field 16 8 r = sizeof_EhFrameHeader + E /\
  field 24 8 r = sizeof_EhFrameHeader /\
  field 32 8 r = round_up (sizeof_EhFrameHeader + E) 16 /\
  firstn (Z.to_nat E) (skipn 40 r) = ctx_written ctx /\
  field hdr 1 r = 1 /\
  to_int32 (field (hdr + 4) 4 r) + (E + 4) = 0 /\
  field (hdr + 8) 4 r = 1 /\
  to_int32 (field (hdr + 12) 4 r) + E + round_up code_size 8 = 0 /\
  to_int32 (field (hdr + 16) 4 r) + E = ctx_eh_frame_p ctx - wr_buffer os /\
  Forall (fun b => b = 0) (skipn (hdr + 20) r).
Proof.
  intros Hcs. cbv zeta.
  destruct (unwinding_info_values arch os code_size)
    as (HE & Hcie & Heh & Hud & Hhs & Hms & Hpad & _ & Hptr & Hcnt & Hto & Hfrom).
  cbv zeta in HE, Hcie, Heh, Hud, Hhs, Hms, Hpad, Hptr, Hcnt, Hto, Hfrom.
  unfold unwinding_record. cbv zeta. cbn [List.concat].
  set (up := unwinding_info arch os code_size) in *.
  set (ctx := elf_init_ehframe arch _) in *.
  set (E := zlength (ctx_written ctx)) in *.
  rewrite Heh. rewrite app_nil_r.
  set (EV := CodeUnwindingInfoEvent_bytes (up_ev2 up)).
  set (HB := EhFrameHeader_bytes (up_f up)).
  set (PAD := firstn (Z.to_nat (up_padding_size up)) padding_bytes).
  assert (List.length EV = 40%nat) as HlEV by reflexivity.
  assert (List.length HB = 20%nat) as HlHB by reflexivity.
  assert (List.length (ctx_written ctx) = Z.to_nat E) as HlE
    by (subst E; unfold zlength; rewrite Nat2Z.id; reflexivity).
  unfold sizeof_EhFrameHeader.
  destruct (CodeUnwindingInfoEvent_fields (up_ev2 up) (ctx_written ctx ++ HB ++ PAD))
    as (F16 & F24 & F32).
  fold EV in F16, F24, F32.
  rewrite F16, F24, F32, Hud, Hhs, Hms.
  rewrite (round_up_nonneg (20 + E) 16) by lia.
  pose proof (Z.div_mod (20 + E + 16 - 1) 16 ltac:(lia)).
  pose proof (Z.mod_pos_bound (20 + E + 16 - 1) 16 ltac:(lia)).
  split; [apply Z.mod_small; lia|].
  split; [reflexivity|].
  split; [apply Z.mod_small; lia|].
  split.
  { rewrite <- HlEV. rewrite skipn_app, skipn_all, Nat.sub_diag. cbn [skipn app].
    rewrite <- HlE. rewrite firstn_app, firstn_all, Nat.sub_diag. cbn [firstn].
    apply app_nil_r. }
  assert (forall off n,
            field (40 + Z.to_nat E + off) n (EV ++ ctx_written ctx ++ HB ++ PAD)
            = field off n (HB ++ PAD)) as Hskip.
  { intros off n. rewrite (app_assoc EV).
    replace (40 + Z.to_nat E + off)%nat
      with (List.length (EV ++ ctx_written ctx) + off)%nat
      by (rewrite length_app, HlEV, HlE; reflexivity).
    apply field_skip. }
  destruct (EhFrameHeader_fields (up_f up) PAD) as (G0 & G4 & G8 & G12 & G16).
  fold HB in G0, G4, G8, G12, G16.
  rewrite <- (Nat.add_0_r (40 + Z.to_nat E)) at 1.
  rewrite !Hskip, G0, G4, G8, G12, G16, Hptr, Hcnt, Hto, Hfrom.
  rewrite !to_int32_mod.
  assert (0 <= round_up code_size 8 < 2 ^ 31 - 2 ^ 8 + 8) as Hru.
  { rewrite round_up_nonneg by lia.
    pose proof (Z.div_mod (code_size + 8 - 1) 8 ltac:(lia)).
    pose proof (Z.mod_pos_bound (code_size + 8 - 1) 8 ltac:(lia)). lia. }
  rewrite (to_int32_small (- (E + 4))) by (unfold is_int32; lia).
  rewrite (to_int32_small (- (E - (ctx_eh_frame_p ctx - wr_buffer os))))
    by (unfold is_int32; lia).
  rewrite (to_int32_small (to_int32 (- (round_up code_size 8 + E))))
    by (rewrite to_int32_small; unfold is_int32; lia).
  rewrite (to_int32_small (- (round_up code_size 8 + E))) by (unfold is_int32; lia).
  split; [reflexivity|]. split; [lia|]. split; [reflexivity|].
  split; [lia|]. split; [lia|].
  replace (40 + Z.to_nat E + 20)%nat
    with (List.length (EV ++ ctx_written ctx ++ HB))
    by (rewrite !length_app, HlEV, HlE, HlHB; lia).
  replace (EV ++ ctx_written ctx ++ HB ++ PAD)
    with ((EV ++ ctx_written ctx ++ HB) ++ PAD)
    by (rewrite <- !app_assoc; reflexivity).
  rewrite skipn_app, skipn_all, Nat.sub_diag. cbn [skipn app].
  subst PAD. unfold padding_bytes.
  apply Forall_forall. intros b Hb.
  apply In_firstn in Hb. apply repeat_spec in Hb. exact Hb.
Qed.
End UnwindRecord.

Lemma unwinding_record_reads_back_witness :
  let ctx :=
    elf_init_ehframe X86_64
      {| ctx_startp := wr_buffer jit_write_ok; ctx_written := [];
         ctx_eh_frame_p := 0; ctx_code_size := to_uint32 96 |} in
  let r := List.concat (unwinding_record X86_64 jit_write_ok 96) in
  let E := zlength (ctx_written ctx) in
  let hdr := (40 + Z.to_nat E)%nat in
  field 16 8 r = sizeof_EhFrameHeader + E /\
  field 24 8 r = sizeof_EhFrameHeader /\
  field 32 8 r = round_up (sizeof_EhFrameHeader + E) 16 /\
  firstn (Z.to_nat E) (skipn 40 r) = ctx_written ctx /\
  field hdr 1 r = 1 /\
  to_int32 (field (hdr + 4) 4 r) + (E + 4) = 0 /\
  field (hdr + 8) 4 r = 1 /\
  to_int32 (field (hdr + 12) 4 r) + E + round_up 96 8 = 0 /\
  to_int32 (field (hdr + 16) 4 r) + E
  = ctx_eh_frame_p ctx - wr_buffer jit_write_ok /\
  Forall (fun b => b = 0) (skipn (hdr + 20) r).
Proof.
  exact (unwinding_record_reads_back X86_64 jit_write_ok 96 ltac:(lia)).
Defined.

(** ** The code-load record *)

Lemma c_str_nonzero bs : Forall (fun b => b <> 0) (c_str bs).
Proof.
  induction bs as [|b bs IH]; cbn [c_str]; [constructor|].
  destruct (Z.eqb_spec b 0); constructor; assumption.
Qed.

Lemma c_str_app (a b : list Z) :
  Forall (fun x => x <> 0) a -> c_str (a ++ b) = a ++ c_str b.
Proof.
  induction 1 as [|x a Hx _ IH]; cbn [app c_str]; [reflexivity|].
  destruct (Z.eqb_spec x 0); [contradiction|]. f_equal. exact IH.
Qed.

Lemma c_str_all (a : list Z) : Forall (fun x => x <> 0) a -> c_str a = a.
Proof.
  intros H. rewrite <- (app_nil_r a) at 1. rewrite c_str_app by exact H.
  cbn. apply app_nil_r.
Qed.

Lemma perf_map_entry_of_nonzero co :
  Forall (fun x => x <> 0) (perf_map_entry_of co).
Proof.
  unfold perf_map_entry_of. cbv zeta.
  repeat (apply Forall_app; split); try apply c_str_nonzero.
  - repeat constructor; vm_compute; discriminate.
  - repeat constructor; vm_compute; discriminate.
Qed.

Lemma CodeLoadEvent_fields ev rest :
  field 16 4 (CodeLoadEvent_bytes ev ++ rest) = cl_process_id ev mod 2 ^ 32 /\
  field 20 4 (CodeLoadEvent_bytes ev ++ rest) = cl_thread_id ev mod 2 ^ 32 /\
  field 24 8 (CodeLoadEvent_bytes ev ++ rest) = cl_vma ev mod 2 ^ 64 /\
  field 32 8 (CodeLoadEvent_bytes ev ++ rest) = cl_code_address ev mod 2 ^ 64 /\
  field 40 8 (CodeLoadEvent_bytes ev ++ rest) = cl_code_size ev mod 2 ^ 64.
Proof.
  repeat split.
  - change (field 16 4 (CodeLoadEvent_bytes ev ++ rest))
      with (le_value (le_bytes 4 (cl_process_id ev))).
    apply le_value_le_bytes.
  - change (field 20 4 (CodeLoadEvent_bytes ev ++ rest))
      with (le_value (le_bytes 4 (cl_thread_id ev))).
    apply le_value_le_bytes.
  - change (field 24 8 (CodeLoadEvent_bytes ev ++ rest))
      with (le_value (le_bytes 8 (cl_vma ev))).
    apply le_value_le_bytes.
  - change (field 32 8 (CodeLoadEvent_bytes ev ++ rest))
      with (le_value (le_bytes 8 (cl_code_address ev))).
    apply le_value_le_bytes.
  - change (field 40 8 (CodeLoadEvent_bytes ev ++ rest))
      with (le_value (le_bytes 8 (cl_code_size ev))).
    apply le_value_le_bytes.
Qed.

(** X10: the code-load record read back from its bytes.  After the 16
    bytes of the framing come the process id and the thread id, the
    address of the stub twice ([vma] and [code_address]) and its size;
    at offset 56 the name [py::<qualname>:<filename>], which holds no
    zero byte, then its terminating zero, and after it the bytes of
    memory at the stub, to the end of the record. *)
Theorem code_load_record_reads_back os code_addr code_size co id mem :
  let name := perf_map_entry_of co in
  let r := List.concat (code_load_record os code_addr code_size name id mem) in
  field 16 4 r = to_uint32 (wr_getpid os) /\
  field 20 4 r = to_uint32 (wr_gettid os) /\
  field 24 8 r = to_uint64 code_addr /\
  field 32 8 r = to_uint64 code_addr /\
  field 40 8 r = to_uint64 code_size /\
  c_str (skipn 56 r) = name /\
  nth (56 + List.length name) r 1 = 0 /\
  skipn (56 + S (List.length name)) r
  = read_memory mem (to_uint64 code_addr) (to_uint64 code_size).
Proof.
  cbv zeta. unfold code_load_record. cbv zeta. cbn [List.concat].
  pose proof (perf_map_entry_of_nonzero co) as Hnz.
  set (name := perf_map_entry_of co) in *.
  assert (strlen name = Z.of_nat (List.length name)) as Hlen
    by (unfold strlen; rewrite c_str_all by exact Hnz; reflexivity).
  rewrite Hlen.
  replace (Z.to_nat (Z.of_nat (List.length name) + 1))
    with (List.length (name ++ [0]))
    by (rewrite length_app; cbn [List.length]; lia).
  rewrite firstn_all, app_nil_r.
  set (ev := code_load_event _ _ _ _ _).
  set (code := read_memory _ _ _).
  destruct (CodeLoadEvent_fields ev ((name ++ [0]) ++ code))
    as (F16 & F20 & F24 & F32 & F40).
  rewrite F16, F20, F24, F32, F40.
  subst ev. unfold code_load_event.
  cbn [cl_process_id cl_thread_id cl_vma cl_code_address cl_code_size].
  unfold to_uint32, to_uint64. rewrite !Z.mod_mod by lia.
  split; [reflexivity|]. split; [reflexivity|]. split; [reflexivity|].
  split; [reflexivity|]. split; [reflexivity|].
  set (EV := CodeLoadEvent_bytes _).
  assert (List.length EV = 56%nat) as HlEV by reflexivity.
  split; [|split].
  - rewrite <- HlEV. rewrite skipn_app, skipn_all, Nat.sub_diag. cbn [skipn app].
    rewrite <- app_assoc. rewrite c_str_app by exact Hnz.
    cbn [app c_str Z.eqb]. apply app_nil_r.
  - rewrite <- HlEV. rewrite app_nth2 by lia.
    replace (List.length EV + List.length name - List.length EV)%nat
      with (List.length name) by lia.
    rewrite <- app_assoc. rewrite app_nth2 by lia.
    rewrite Nat.sub_diag. reflexivity.
  - rewrite (app_assoc EV).
    replace (56 + S (List.length name))%nat
      with (List.length (EV ++ name ++ [0]))
      by (rewrite !length_app, HlEV; cbn [List.length]; lia).
    rewrite skipn_app, skipn_all, Nat.sub_diag.
    reflexivity.
Qed.

(** ** The sink after a failed or a finished initialisation *)

Section SinkEdges.
Variable arch : target_arch.

Lemma unwinding_record_first_nonempty os code_size :
  exists b bs, unwinding_record arch os code_size = (b :: bs) /\ b <> [].
Proof.
  unfold unwinding_record. cbv zeta. do 2 eexists. split; [reflexivity|].
  intros E. apply (f_equal zlength) in E.
  rewrite zlength_CodeUnwindingInfoEvent_bytes in E. discriminate.
Qed.

Lemma jit_write_records_closed os a s co rt :
  perf_map (perf_jit_map_state rt) = FILE_closed ->
  wr_malloc os = true ->
  jit_write_records arch os a s co rt = Fault StreamClosed.
Proof.
  intros Hc Hm. unfold jit_write_records. rewrite Hm. cbn [negb].
  destruct (unwinding_record_first_nonempty os s) as (b & bs & -> & Hb).
  cbn [write_all]. unfold perf_map_jit_write_fully. rewrite Hc.
  destruct b; [contradiction|reflexivity].
Qed.

(** X11: when [PyThread_allocate_lock] fails, [perf_map_jit_init]
    closes the stream it opened, returns NULL and leaves
    [perf_jit_map_state.perf_map] pointing at the closed stream.  The
    next [perf_map_jit_write_entry] finds the pointer not NULL, does not
    initialise again and writes to the closed stream. *)
Theorem failed_lock_leaves_a_closed_stream os rt :
  os_open os <> -1 ->
  os_sysconf_pagesize os <> -1 ->
  os_mmap_file os <> NULL ->
  os_fdopen os = true ->
  os_allocate_lock os = false ->
  exists rt',
    perf_map_jit_init os rt = Done (state_NULL, rt') /\
    perf_map (perf_jit_map_state rt') = FILE_closed /\
    (forall wos a s co,
       wr_malloc wos = true ->
       perf_map_jit_write_entry arch wos a s co rt' = Fault StreamClosed).
Proof.
  intros Ho Hp Hm Hf Hl. unfold perf_map_jit_init.
  destruct (Z.eqb_spec (os_open os) (-1)); [contradiction|].
  destruct (Z.eqb_spec (os_sysconf_pagesize os) (-1)); [contradiction|].
  cbn [mapped_buffer perf_jit_map_state set_jit_mapped_buffer set_perf_jit_map_state].
  destruct (Z.eqb_spec (os_mmap_file os) NULL); [contradiction|].
  rewrite Hf.
  cbn [perf_map perf_jit_map_state set_jit_perf_map set_perf_jit_map_state].
  unfold perf_map_jit_write_header.
  rewrite write_fully_open by (auto using Header_bytes_nonempty).
  cbn [bind]. rewrite Hl.
  cbn [map_lock perf_jit_map_state set_jit_map_lock set_perf_jit_map_state negb].
  eexists. split; [reflexivity|]. split; [reflexivity|].
  intros wos a s co Hmalloc. unfold perf_map_jit_write_entry.
  cbn [perf_map perf_jit_map_state set_jit_perf_map set_perf_jit_map_state].
  apply jit_write_records_closed; [reflexivity|exact Hmalloc].
Qed.

(** X12: [perf_map_jit_fini] on an open dump returns 0, sets the stream
    and [trampoline_api.state] to NULL and leaves the bytes written.  A
    [perf_map_jit_write_entry] after it initialises the sink again: the
    dump starts over with a new header, followed by the two records of
    this write, and the code load carries the id 1. *)
Theorem write_reopens_a_finished_dump os a s co rt :
  perf_map (perf_jit_map_state rt) = FILE_open ->
  os_open (wr_init os) <> -1 ->
  os_sysconf_pagesize (wr_init os) <> -1 ->
  os_mmap_file (wr_init os) <> NULL ->
  os_fdopen (wr_init os) = true ->
  os_allocate_lock (wr_init os) = true ->
  wr_malloc os = true ->
  exists rt1 rt2 h,
    perf_map_jit_fini rt = Done (0, rt1) /\
    perf_map (perf_jit_map_state rt1) = FILE_NULL /\
    state (trampoline_api rt1) = state_NULL /\
    jit_dump rt1 = jit_dump rt /\
    perf_map_jit_write_entry arch os a s co rt1 = Done rt2 /\
    jit_dump rt2
    = Header_bytes h
        ++ List.concat (unwinding_record arch os s)
        ++ List.concat
             (code_load_record os a s (perf_map_entry_of co) 1 (memory rt)) /\
    code_id (perf_jit_map_state rt2) = 1.
Proof.
  intros Hopen Ho Hp Hm Hf Hl Hmalloc.
  unfold perf_map_jit_fini. rewrite Hopen. cbn [bind].
  set (rt1 := set_api_state state_NULL _).
  assert (perf_map (perf_jit_map_state rt1) = FILE_NULL) as Hn by reflexivity.
  assert (exists rti,
            perf_map_jit_init (wr_init os) rt1 = Done (state_jit, rti)) as (rti & Ei).
  { unfold perf_map_jit_init.
    destruct (Z.eqb_spec (os_open (wr_init os)) (-1)); [contradiction|].
    destruct (Z.eqb_spec (os_sysconf_pagesize (wr_init os)) (-1)); [contradiction|].
    cbn [mapped_buffer perf_jit_map_state set_jit_mapped_buffer set_perf_jit_map_state].
    destruct (Z.eqb_spec (os_mmap_file (wr_init os)) NULL); [contradiction|].
    rewrite Hf.
    cbn [perf_map perf_jit_map_state set_jit_perf_map set_perf_jit_map_state].
    unfold perf_map_jit_write_header.
    rewrite write_fully_open by (auto using Header_bytes_nonempty).
    cbn [bind]. rewrite Hl.
    cbn [map_lock perf_jit_map_state set_jit_map_lock set_perf_jit_map_state negb].
    eexists. reflexivity. }
  destruct (jit_init_success _ _ _ Ei) as (Hoi & Hci & h & _ & Hdi).
  destruct (jit_write_records_open arch os a s co rti Hoi Hmalloc)
    as (rt2 & E2 & Hd2 & _ & Hc2 & _).
  exists rt1, rt2, h.
  split; [reflexivity|]. split; [exact Hn|]. split; [reflexivity|].
  split; [reflexivity|]. split.
  - unfold perf_map_jit_write_entry. rewrite Hn, Ei. cbn [bind]. exact E2.
  - rewrite Hd2, Hc2, Hci, Hdi.
    assert (memory rti = memory rt) as ->.
    { apply jit_init_frame in Ei. exact (sf_memory _ _ Ei). }
    split; reflexivity.
Qed.
End SinkEdges.

Lemma failed_lock_leaves_a_closed_stream_witness :
  exists rt',
    perf_map_jit_init jit_init_no_lock default_runtime = Done (state_NULL, rt') /\
    perf_map (perf_jit_map_state rt') = FILE_closed /\
    (forall wos a s co,
       wr_malloc wos = true ->
       perf_map_jit_write_entry X86_64 wos a s co rt' = Fault StreamClosed).
Proof.
  exact (failed_lock_leaves_a_closed_stream X86_64 jit_init_no_lock
           default_runtime
           ltac:(vm_compute; discriminate) ltac:(vm_compute; discriminate)
           ltac:(vm_compute; discriminate) ltac:(reflexivity) ltac:(reflexivity)).
Defined.

Lemma write_reopens_a_finished_dump_witness :
  exists rt1 rt2 h,
    perf_map_jit_fini started_jit = Done (0, rt1) /\
    perf_map (perf_jit_map_state rt1) = FILE_NULL /\
    state (trampoline_api rt1) = state_NULL /\
    jit_dump rt1 = jit_dump started_jit /\
    perf_map_jit_write_entry X86_64 jit_write_ok 0x10000 96 code_f rt1 = Done rt2 /\
    jit_dump rt2
    = Header_bytes h
        ++ List.concat (unwinding_record X86_64 jit_write_ok 96)
        ++ List.concat
             (code_load_record jit_write_ok 0x10000 96 (perf_map_entry_of code_f)
                1 (memory started_jit)) /\
    code_id (perf_jit_map_state rt2) = 1.
Proof.
  exact (write_reopens_a_finished_dump X86_64 jit_write_ok 0x10000 96 code_f
           started_jit
           ltac:(vm_compute; reflexivity)
           ltac:(vm_compute; discriminate) ltac:(vm_compute; discriminate)
           ltac:(vm_compute; discriminate) ltac:(reflexivity) ltac:(reflexivity)
           ltac:(reflexivity)).
Defined.

(** ** Callbacks *)

(** X13: [_PyPerfTrampoline_GetCallbacks] gives back what
    [_PyPerfTrampoline_SetCallbacks] stored.  Setting the callbacks of a
    sink returns 0 and leaves [trampoline_api.state] NULL; getting them
    afterwards fills the struct with the three functions of that sink,
    whatever it held; with a NULL pointer the getter writes nothing and
    the setter returns -1 and changes nothing. *)
Theorem set_then_get_callbacks s c0 rt r rt' :
  _PyPerfTrampoline_SetCallbacks (Some s) rt = Done (r, rt') ->
  r = 0 /\
  state (trampoline_api rt') = state_NULL /\
  _PyPerfTrampoline_GetCallbacks (Some c0) rt' = Some (callbacks_of s) /\
  _PyPerfTrampoline_GetCallbacks None rt' = None /\
  _PyPerfTrampoline_SetCallbacks None rt' = Done (-1, rt').
Proof.
  unfold _PyPerfTrampoline_SetCallbacks, bind. intros H.
  destruct (is_state_NULL (state (trampoline_api rt))).
  - inv H. destruct s; repeat split.
  - destruct (_PyPerfTrampoline_Fini rt) as [[r1 rt1]|]; [|discriminate].
    inv H. destruct s; repeat split.
Qed.

Lemma set_then_get_callbacks_witness :
  fst (result_of
         (_PyPerfTrampoline_SetCallbacks (Some jitdump_sink) started_perfmap)
         (0, default_runtime)) = 0 /\
  state
    (trampoline_api
       (snd (result_of
               (_PyPerfTrampoline_SetCallbacks (Some jitdump_sink) started_perfmap)
               (0, default_runtime)))) = state_NULL /\
  _PyPerfTrampoline_GetCallbacks (Some _Py_perfmap_callbacks)
    (snd (result_of
            (_PyPerfTrampoline_SetCallbacks (Some jitdump_sink) started_perfmap)
            (0, default_runtime)))
  = Some (callbacks_of jitdump_sink) /\
  _PyPerfTrampoline_GetCallbacks None
    (snd (result_of
            (_PyPerfTrampoline_SetCallbacks (Some jitdump_sink) started_perfmap)
            (0, default_runtime)))
  = None /\
  _PyPerfTrampoline_SetCallbacks None
    (snd (result_of
            (_PyPerfTrampoline_SetCallbacks (Some jitdump_sink) started_perfmap)
            (0, default_runtime)))
  = Done (-1,
          snd (result_of
                 (_PyPerfTrampoline_SetCallbacks (Some jitdump_sink) started_perfmap)
                 (0, default_runtime))).
Proof.
  exact (set_then_get_callbacks jitdump_sink _Py_perfmap_callbacks started_perfmap
           (fst (result_of
                   (_PyPerfTrampoline_SetCallbacks (Some jitdump_sink)
                      started_perfmap)
                   (0, default_runtime)))
           (snd (result_of
                   (_PyPerfTrampoline_SetCallbacks (Some jitdump_sink)
                      started_perfmap)
                   (0, default_runtime)))
           (done_pair
              (_PyPerfTrampoline_SetCallbacks (Some jitdump_sink) started_perfmap)
              (0, default_runtime) ltac:(vm_compute; reflexivity))).
Defined.

(** ** The evaluator hook is transparent *)

Section Transparent.
Variable T : list Z.
Variable arch : target_arch.
Variable ev : Z -> _PyInterpreterFrame -> Z -> Z.

Lemma evaluator_result os ts frame throw rt v rt' :
  py_trampoline_evaluator T arch ev os ts frame throw rt = Done (v, rt') ->
  v = ev ts frame throw.
Proof.
  unfold py_trampoline_evaluator, bind, run_stub. intros H.
  destruct (perf_status rt); [inv H; reflexivity|inv H; reflexivity|].
  destruct (_PyCode_GetExtra _ _ _) as [ret f].
  destruct (negb (ret =? 0) || (f =? NULL)); [|inv H; reflexivity].
  destruct (compile_trampoline T (d_arena os) rt) as [[p rt1]|]; [|discriminate].
  destruct (p =? NULL); [inv H; reflexivity|].
  destruct (perf_code_arena rt1); [discriminate|].
  destruct (call_write _ _ _ _ _ _); [|discriminate].
  destruct (_PyCode_SetExtra _ _ _ _ _). inv H. reflexivity.
Qed.

(** X14: the hook is transparent.  Whatever its status, whether the
    stub is compiled, found or could not be made, every dispatch that
    returns gives the value [_PyEval_EvalFrameDefault] gives for the
    same thread state, frame and throw flag (a stub being a tail call
    of the evaluator it is given). *)
Theorem dispatch_returns_what_the_evaluator_returns calls : forall rt vs rt',
  run_dispatches T arch ev calls rt = Done (vs, rt') ->
  vs = map (fun c => ev (dc_ts c) (dc_frame c) (dc_throw c)) calls.
Proof.
  induction calls as [|d calls IH]; intros rt vs rt' H.
  - inv H. reflexivity.
  - cbn [run_dispatches] in H. unfold bind in H.
    destruct (py_trampoline_evaluator T arch ev (dc_os d) (dc_ts d) (dc_frame d)
                (dc_throw d) rt) as [[v rt1]|] eqn:E1; [|discriminate].
    destruct (run_dispatches T arch ev calls rt1) as [[vs1 rt2]|] eqn:E2;
      [|discriminate].
    inv H. cbn [map]. f_equal.
    + eapply evaluator_result. exact E1.
    + eapply IH. exact E2.
Qed.

(** X15: a failed [_PyPerfTrampoline_Init] leaves an interpreter that
    still evaluates.  From a status other than [PERF_STATUS_OK], a call
    that does not return 0 returns -1 and leaves a status other than
    [PERF_STATUS_OK]; unless a foreign evaluator was installed, the hook
    stays installed ([_PyIsPerfTrampolineActive] is 1), and every
    dispatch through it is a plain call of [_PyEval_EvalFrameDefault]
    that changes nothing. *)
Theorem failed_init_falls_back os activate rt r rt' :
  perf_status rt <> PERF_STATUS_OK ->
  _PyPerfTrampoline_Init T os activate rt = Done (r, rt') ->
  r <> 0 ->
  r = -1 /\
  perf_status rt' <> PERF_STATUS_OK /\
  (eval_frame rt <> eval_foreign -> _PyIsPerfTrampolineActive rt' = 1) /\
  forall dos ts frame throw,
    py_trampoline_evaluator T arch ev dos ts frame throw rt'
    = Done (ev ts frame throw, rt').
Proof.
  intros Hs H Hr.
  assert (r = -1 /\ perf_status rt' <> PERF_STATUS_OK /\
          (eval_frame rt <> eval_foreign -> _PyIsPerfTrampolineActive rt' = 1))
    as (H1 & H2 & H3).
  { unfold _PyPerfTrampoline_Init, bind in H.
    destruct (eval_frame rt) eqn:Eev; cbn [is_eval_NULL is_py_trampoline_evaluator
                                           negb andb] in H.
    3: { inv H. repeat split; auto. intros; contradiction. }
    all: destruct (activate =? 0); [inv H; contradiction|].
    all: set (rt0 := _PyInterpreterState_SetEvalFrameFunc
                       eval_py_trampoline_evaluator rt) in *.
    all: destruct (new_code_arena T (i_arena os) rt0) as [[res rt1]|] eqn:En;
      [|discriminate].
    all: assert (perf_status rt1 <> PERF_STATUS_OK /\
                 eval_frame rt1 = eval_py_trampoline_evaluator) as [Hs1 Hev1]
      by (unfold new_code_arena in En;
          repeat (break_match; try discriminate); inv En; cbn; split;
          solve [discriminate|reflexivity|exact Hs]).
    all: destruct (res <? 0);
      [inv H; unfold _PyIsPerfTrampolineActive; rewrite Hev1; repeat split; auto|].
    all: cbn [extra_code_index set_extra_code_index] in H.
    all: destruct (i_extra_index os =? -1);
      [inv H; unfold _PyIsPerfTrampolineActive; cbn; rewrite Hev1;
       repeat split; auto|].
    all: destruct (_ && _);
      [destruct (call_init _ _) as [[p rt2]|]; [|discriminate]|];
      inv H; contradiction. }
  repeat split; auto.
  intros dos ts frame throw. apply dispatch_when_not_ok. exact H2.
Qed.
End Transparent.

Lemma dispatch_returns_what_the_evaluator_returns_witness :
  fst (result_of
         (run_dispatches (nop_template 96) X86_64 eval_stub three_calls
            started_perfmap)
         ([], default_runtime))
  = map (fun c => eval_stub (dc_ts c) (dc_frame c) (dc_throw c)) three_calls.
Proof.
  exact (dispatch_returns_what_the_evaluator_returns (nop_template 96) X86_64
           eval_stub three_calls started_perfmap
           (fst (result_of
                   (run_dispatches (nop_template 96) X86_64 eval_stub three_calls
                      started_perfmap)
                   ([], default_runtime)))
           (snd (result_of
                   (run_dispatches (nop_template 96) X86_64 eval_stub three_calls
                      started_perfmap)
                   ([], default_runtime)))
           (done_pair
              (run_dispatches (nop_template 96) X86_64 eval_stub three_calls
                 started_perfmap)
              ([], default_runtime) three_calls_done)).
Defined.

Lemma failed_init_falls_back_witness :
  let failed :=
    result_of
      (_PyPerfTrampoline_Init (nop_template 96) (init_with arena_mmap_fails) 1
         (fresh_runtime (Some perfmap_sink)))
      (0, default_runtime) in
  fst failed = -1 /\
  perf_status (snd failed) <> PERF_STATUS_OK /\
  (eval_frame (fresh_runtime (Some perfmap_sink)) <> eval_foreign ->
   _PyIsPerfTrampolineActive (snd failed) = 1) /\
  forall dos ts frame throw,
    py_trampoline_evaluator (nop_template 96) X86_64 eval_stub dos ts frame throw
      (snd failed)
    = Done (eval_stub ts frame throw, snd failed).
Proof.
  exact (failed_init_falls_back (nop_template 96) X86_64 eval_stub
           (init_with arena_mmap_fails) 1 (fresh_runtime (Some perfmap_sink))
           (fst (result_of
                   (_PyPerfTrampoline_Init (nop_template 96)
                      (init_with arena_mmap_fails) 1
                      (fresh_runtime (Some perfmap_sink)))
                   (0, default_runtime)))
           (snd (result_of
                   (_PyPerfTrampoline_Init (nop_template 96)
                      (init_with arena_mmap_fails) 1
                      (fresh_runtime (Some perfmap_sink)))
                   (0, default_runtime)))
           ltac:(vm_compute; discriminate)
           (done_pair
              (_PyPerfTrampoline_Init (nop_template 96)
                 (init_with arena_mmap_fails) 1
                 (fresh_runtime (Some perfmap_sink)))
              (0, default_runtime) ltac:(vm_compute; reflexivity))
           ltac:(vm_compute; discriminate)).
Defined.

(** ** Finalisation *)

Lemma call_free_keeps rt r rt' :
  call_free rt = Done (r, rt') ->
  r = 0 /\
  perf_status rt' = perf_status rt /\
  perf_code_arena rt' = perf_code_arena rt /\
  co_extra rt' = co_extra rt /\
  eval_frame rt' = eval_frame rt.
Proof.
  unfold call_free, perf_map_jit_fini, perf_map_free_state, bind. intros H.
  destruct (free_state (trampoline_api rt)) as [[]|]; [| |discriminate].
  - inv H. repeat split.
  - cbn [perf_map perf_jit_map_state record_call set_history] in H.
    destruct (perf_map (perf_jit_map_state rt)); inv H; repeat split.
Qed.

(** X16: [_PyPerfTrampoline_Fini] returns 0 whenever it returns, keeps
    the arenas and the stub addresses stored in the code objects, and
    leaves a state in which a second call returns 0 and changes
    nothing.  From [PERF_STATUS_OK] it leaves [PERF_STATUS_NO_INIT], the
    hook removed, the index -1 and the type unset; from any other
    status it changes nothing. *)
Theorem fini_twice_is_fini_once rt r rt' :
  _PyPerfTrampoline_Fini rt = Done (r, rt') ->
  r = 0 /\
  perf_status rt' <> PERF_STATUS_OK /\
  _PyPerfTrampoline_Fini rt' = Done (0, rt') /\
  perf_code_arena rt' = perf_code_arena rt /\
  co_extra rt' = co_extra rt /\
  (perf_status rt = PERF_STATUS_OK ->
     perf_status rt' = PERF_STATUS_NO_INIT /\
     _PyIsPerfTrampolineActive rt' = 0 /\
     extra_code_index rt' = -1 /\
     perf_trampoline_type rt' = PERF_TRAMPOLINE_UNSET) /\
  (perf_status rt <> PERF_STATUS_OK -> rt' = rt).
Proof.
  intros H.
  assert (perf_status rt' <> PERF_STATUS_OK ->
          _PyPerfTrampoline_Fini rt' = Done (0, rt')) as Hagain.
  { intros Hs. unfold _PyPerfTrampoline_Fini.
    destruct (perf_status rt'); [reflexivity|reflexivity|contradiction]. }
  unfold _PyPerfTrampoline_Fini, bind in H.
  destruct (perf_status rt) eqn:Es.
  - inv H.
    assert (perf_status rt' <> PERF_STATUS_OK) as Hne by (rewrite Es; discriminate).
    split; [reflexivity|]. split; [exact Hne|]. split; [apply Hagain, Hne|].
    split; [reflexivity|]. split; [reflexivity|].
    split; [intros C; congruence|reflexivity].
  - inv H.
    assert (perf_status rt' <> PERF_STATUS_OK) as Hne by (rewrite Es; discriminate).
    split; [reflexivity|]. split; [exact Hne|]. split; [apply Hagain, Hne|].
    split; [reflexivity|]. split; [reflexivity|].
    split; [intros C; congruence|reflexivity].
  - set (rt0 := if is_py_trampoline_evaluator (eval_frame rt)
                then _PyInterpreterState_SetEvalFrameFunc eval_NULL rt else rt) in *.
    assert (perf_code_arena rt0 = perf_code_arena rt /\
            co_extra rt0 = co_extra rt /\
            is_py_trampoline_evaluator (eval_frame rt0) = false)
      as (Ha0 & He0 & Hev0).
    { subst rt0. destruct (is_py_trampoline_evaluator (eval_frame rt)) eqn:E;
        cbn; auto. }
    destruct (call_free rt0) as [[r1 rt1]|] eqn:Ef; [|discriminate].
    apply call_free_keeps in Ef. destruct Ef as (_ & _ & Ha1 & He1 & Hev1).
    inv H. cbn.
    split; [reflexivity|]. split; [discriminate|].
    split; [reflexivity|]. split; [congruence|]. split; [congruence|].
    split; [|intros C; contradiction].
    intros _. unfold _PyIsPerfTrampolineActive. cbn. rewrite Hev1, Hev0.
    repeat split.
Qed.

Lemma fini_twice_is_fini_once_witness :
  let done :=
    result_of (_PyPerfTrampoline_Fini started_jit) (0, default_runtime) in
  fst done = 0 /\
  perf_status (snd done) <> PERF_STATUS_OK /\
  _PyPerfTrampoline_Fini (snd done) = Done (0, snd done) /\
  perf_code_arena (snd done) = perf_code_arena started_jit /\
  co_extra (snd done) = co_extra started_jit /\
  (perf_status started_jit = PERF_STATUS_OK ->
     perf_status (snd done) = PERF_STATUS_NO_INIT /\
     _PyIsPerfTrampolineActive (snd done) = 0 /\
     extra_code_index (snd done) = -1 /\
     perf_trampoline_type (snd done) = PERF_TRAMPOLINE_UNSET) /\
  (perf_status started_jit <> PERF_STATUS_OK -> snd done = started_jit).
Proof.
  exact (fini_twice_is_fini_once started_jit
           (fst (result_of (_PyPerfTrampoline_Fini started_jit)
                   (0, default_runtime)))
           (snd (result_of (_PyPerfTrampoline_Fini started_jit)
                   (0, default_runtime)))
           (done_pair (_PyPerfTrampoline_Fini started_jit) (0, default_runtime)
              ltac:(vm_compute; reflexivity))).
Defined.

(** ** The write loop and the clocks *)

(** X17: the loop of [perf_map_jit_write_fully] against an [fwrite]
    that may take fewer bytes than asked.  What reaches the stream is
    always a prefix of the buffer, in order; it is the whole buffer when
    [fwrite] takes at least one byte of every request that is not empty;
    it is nothing when the first [fwrite] takes nothing. *)
Theorem write_fully_loop_writes_a_prefix fwrite buffer :
  (exists rest, buffer = write_fully_loop fwrite buffer ++ rest) /\
  ((forall ptr, ptr <> [] -> (0 < fwrite ptr)%nat) ->
   write_fully_loop fwrite buffer = buffer) /\
  (fwrite buffer = 0%nat -> write_fully_loop fwrite buffer = []).
Proof.
  funelim (write_fully_loop fwrite buffer).
  - split; [exists []; reflexivity|]. split; reflexivity.
  - split; [exists (b :: bs); reflexivity|]. split.
    + intros Hp. specialize (Hp (b :: bs) ltac:(discriminate)).
      cbn [List.length] in Heq. lia.
    + reflexivity.
  - destruct H as ((rest & Hrest) & Hall & _).
    split; [|split].
    + exists rest. rewrite <- app_assoc, <- Hrest. symmetry. apply firstn_skipn.
    + intros Hp. rewrite (Hall Hp). apply firstn_skipn.
    + intros H0. rewrite H0 in Heq. discriminate.
Qed.

Lemma write_fully_loop_writes_a_prefix_witness :
  write_fully_loop (fun _ => 3%nat) [1; 2; 3; 4; 5; 6; 7] = [1; 2; 3; 4; 5; 6; 7].
Proof.
  exact (proj1 (proj2 (write_fully_loop_writes_a_prefix (fun _ => 3%nat)
                         [1; 2; 3; 4; 5; 6; 7]))
           (fun _ _ => Nat.lt_0_succ 2)).
Defined.

(** X18: the clocks of the dump do not wrap.  For seconds below
    9223372036 and nanoseconds below a second,
    [get_current_monotonic_ticks] is [tv_sec * 10^9 + tv_nsec], so a
    later reading of the clock gives a larger time stamp; it is 0 when
    [clock_gettime] fails.  [get_current_time_microseconds] is
    [tv_sec * 10^6 + tv_usec], and 0 when [gettimeofday] fails. *)
Theorem jitdump_clocks_keep_the_order s1 n1 s2 n2 :
  0 <= s1 -> 0 <= s2 < 9223372036 ->
  0 <= n1 < nanoseconds_per_second ->
  0 <= n2 < nanoseconds_per_second ->
  s1 < s2 \/ (s1 = s2 /\ n1 < n2) ->
  get_current_monotonic_ticks 0 s1 n1
  = s1 * nanoseconds_per_second + n1 /\
  get_current_monotonic_ticks 0 s1 n1 < get_current_monotonic_ticks 0 s2 n2 /\
  (forall r, r <> 0 -> get_current_monotonic_ticks r s1 n1 = 0) /\
  (forall r u, 0 <= r -> 0 <= u < 1000000 ->
               get_current_time_microseconds r s1 u = s1 * 1000000 + u) /\
  (forall r u, r < 0 -> get_current_time_microseconds r s1 u = 0).
Proof.
  unfold get_current_monotonic_ticks, get_current_time_microseconds,
    nanoseconds_per_second.
  intros H1 H2 Hn1 Hn2 Hlt. cbn [Z.eqb negb].
  rewrite !(to_int64_small s1), !(to_int64_small s2) by (unfold is_int64; lia).
  rewrite !(to_int64_small (s1 * 1000000000)),
    !(to_int64_small (s2 * 1000000000)) by (unfold is_int64; lia).
  rewrite !(to_int64_small (s1 * 1000000)) by (unfold is_int64; lia).
  rewrite !to_int64_small by (unfold is_int64; lia).
  split; [reflexivity|]. split; [lia|]. split; [|split].
  - intros r Hr. destruct (Z.eqb_spec r 0); [contradiction|reflexivity].
  - intros r u Hr Hu. destruct (Z.ltb_spec r 0); [lia|].
    apply to_int64_small. unfold is_int64. lia.
  - intros r u Hr. destruct (Z.ltb_spec r 0); [reflexivity|lia].
Qed.

Lemma jitdump_clocks_keep_the_order_witness :
  get_current_monotonic_ticks 0 1700000000 999999999
  = 1700000000 * nanoseconds_per_second + 999999999 /\
  get_current_monotonic_ticks 0 1700000000 999999999
  < get_current_monotonic_ticks 0 1700000001 0 /\
  (forall r, r <> 0 -> get_current_monotonic_ticks r 1700000000 999999999 = 0) /\
  (forall r u, 0 <= r -> 0 <= u < 1000000 ->
               get_current_time_microseconds r 1700000000 u
               = 1700000000 * 1000000 + u) /\
  (forall r u, r < 0 -> get_current_time_microseconds r 1700000000 u = 0).
Proof.
  exact (jitdump_clocks_keep_the_order 1700000000 999999999 1700000001 0
           ltac:(lia) ltac:(lia) ltac:(unfold nanoseconds_per_second; lia)
           ltac:(unfold nanoseconds_per_second; lia) ltac:(lia)).
Defined.

(** ** After a fork, with the perf map kept *)

Section ForkPersist.
Variable T : list Z.

(** X19: in the child of a fork, with [persist_after_fork] set, the
    perf-map type and the trampoline running,
    [_PyPerfTrampoline_AfterFork_Child] finalises the trampoline: the
    status becomes [PERF_STATUS_NO_INIT], the hook is removed and the
    sink's [free_state] is called once, while the arenas and the stub
    addresses stored in the code objects are kept.  The result is the
    error of [_PyPerfTrampoline_CopyPerfMapFile] when the copy fails and
    [PyStatus_Ok] otherwise. *)
Theorem after_fork_persist_finalises os rt :
  persist_after_fork rt <> 0 ->
  perf_trampoline_type rt = PERF_TRAMPOLINE_TYPE_MAP ->
  perf_status rt = PERF_STATUS_OK ->
  free_state (trampoline_api rt) = Some perfmap_sink ->
  exists rt',
    _PyPerfTrampoline_AfterFork_Child T os rt
    = Done (if fk_copy_perf_map_file os =? 0 then PyStatus_Ok
            else PyStatus_Error "Failed to copy perf map file.",
            rt') /\
    perf_status rt' = PERF_STATUS_NO_INIT /\
    _PyIsPerfTrampolineActive rt' = 0 /\
    perf_code_arena rt' = perf_code_arena rt /\
    co_extra rt' = co_extra rt /\
    history rt' = history rt ++ [call_free_state perfmap_sink].
Proof.
  intros Hp Ht Hs Hf. unfold _PyPerfTrampoline_AfterFork_Child.
  destruct (Z.eqb_spec (persist_after_fork rt) 0); [contradiction|].
  rewrite Ht. cbn [negb is_TYPE_MAP].
  destruct (Fini_effect rt perfmap_sink Hs Hf ltac:(discriminate))
    as (rt1 & E & Hs1 & _ & _ & Hev1 & Ha1 & He1 & _ & _ & _ & Hh1 & _).
  rewrite E. cbn [bind]. exists rt1.
  split; [destruct (fk_copy_perf_map_file os =? 0); reflexivity|].
  split; [exact Hs1|]. split; [|auto].
  unfold _PyIsPerfTrampolineActive. rewrite Hev1.
  destruct (eval_frame rt); reflexivity.
Qed.
End ForkPersist.

Lemma after_fork_persist_finalises_witness :
  exists rt',
    _PyPerfTrampoline_AfterFork_Child (nop_template 96)
      (fork_with (arena_ok 0x30000)) forked_perfmap_persist
    = Done (if fk_copy_perf_map_file (fork_with (arena_ok 0x30000)) =? 0
            then PyStatus_Ok
            else PyStatus_Error "Failed to copy perf map file.",
            rt') /\
    perf_status rt' = PERF_STATUS_NO_INIT /\
    _PyIsPerfTrampolineActive rt' = 0 /\
    perf_code_arena rt' = perf_code_arena forked_perfmap_persist /\
    co_extra rt' = co_extra forked_perfmap_persist /\
    history rt' = history forked_perfmap_persist ++ [call_free_state perfmap_sink].
Proof.
  exact (after_fork_persist_finalises (nop_template 96)
           (fork_with (arena_ok 0x30000)) forked_perfmap_persist
           ltac:(vm_compute; discriminate) ltac:(vm_compute; reflexivity)
           ltac:(vm_compute; reflexivity) ltac:(vm_compute; reflexivity)).
Defined.

(** ** The LEB128 encodings are the shortest ones *)

Lemma to_uint8_range z : 0 <= to_uint8 z < 256.
Proof. unfold to_uint8. apply Z.mod_pos_bound. lia. Qed.

Lemma pow2_lt_exp a b x : 0 <= a -> 0 <= b -> 2 ^ a <= x -> x < 2 ^ b -> a < b.
Proof.
  intros Ha Hb H1 H2. apply (Z.pow_lt_mono_r_iff 2); lia.
Qed.

Lemma zlength_cons (x : Z) l : zlength (x :: l) = zlength l + 1.
Proof. unfold zlength. cbn [List.length]. lia. Qed.

Lemma uleb128_shortest v :
  0 <= v ->
  let n := zlength (uleb128_bytes v) in
  1 <= n /\
  v < 2 ^ (7 * n) /\
  (1 < n -> 2 ^ (7 * (n - 1)) <= v) /\
  Forall (fun b => 0 <= b < 256) (uleb128_bytes v).
Proof.
  funelim (uleb128_bytes v); intros Hv; cbv zeta.
  - clear Heqcall.
    assert (0 <= Z.shiftr v 7) as Hv' by (apply Z.shiftr_nonneg; lia).
    specialize (H Hv'). cbv zeta in H.
    destruct H as (Hn & Hub & Hlb & Hall).
    rewrite zlength_cons.
    set (n := zlength (uleb128_bytes (Z.shiftr v 7))) in *.
    rewrite Z.shiftr_div_pow2 in Hub, Hlb by lia. change (2 ^ 7) with 128 in *.
    pose proof (Z.div_mod v 128 ltac:(lia)).
    pose proof (Z.mod_pos_bound v 128 ltac:(lia)).
    split; [lia|]. split; [|split].
    + replace (7 * (n + 1)) with (7 + 7 * n) by lia.
      rewrite Z.pow_add_r by lia. change (2 ^ 7) with 128. lia.
    + intros _. replace (n + 1 - 1) with n by lia.
      destruct (Z.eq_dec n 1) as [->|Hne]; [change (2 ^ (7 * 1)) with 128; lia|].
      specialize (Hlb ltac:(lia)).
      replace (7 * n) with (7 + 7 * (n - 1)) by lia.
      rewrite Z.pow_add_r by lia. change (2 ^ 7) with 128. lia.
    + constructor; [apply to_uint8_range|exact Hall].
  - clear Heqcall. change (zlength [to_uint8 v]) with 1.
    split; [lia|]. split; [change (2 ^ (7 * 1)) with 128; lia|].
    split; [lia|]. constructor; [apply to_uint8_range|constructor].
Qed.

Lemma sleb128_loop_condition v :
  is_int32 v -> (0x80 <= to_uint32 (v + 0x40) <-> ~ (-64 <= v < 64)).
Proof.
  unfold is_int32, to_uint32. intros Hv.
  destruct (Z_lt_le_dec (v + 64) 0).
  - replace ((v + 64) mod 2 ^ 32) with (v + 64 + 2 ^ 32)
      by (apply Z.mod_unique with (q := -1); lia).
    lia.
  - rewrite Z.mod_small by lia. lia.
Qed.

Lemma sleb128_shortest v :
  is_int32 v ->
  let n := zlength (sleb128_bytes v) in
  1 <= n /\
  - 2 ^ (7 * n - 1) <= v < 2 ^ (7 * n - 1) /\
  (1 < n -> ~ (- 2 ^ (7 * (n - 1) - 1) <= v < 2 ^ (7 * (n - 1) - 1))) /\
  Forall (fun b => 0 <= b < 256) (sleb128_bytes v).
Proof.
  funelim (sleb128_bytes v); intros Hv; cbv zeta.
  - clear Heqcall Heq.
    pose proof (proj1 (sleb128_loop_condition v Hv) l) as Hout.
    assert (is_int32 (Z.shiftr v 7)) as Hv'.
    { unfold is_int32 in *. rewrite Z.shiftr_div_pow2 by lia. change (2 ^ 7) with 128.
      pose proof (Z.div_mod v 128 ltac:(lia)).
      pose proof (Z.mod_pos_bound v 128 ltac:(lia)). lia. }
    specialize (H Hv'). cbv zeta in H.
    destruct H as (Hn & Hb & Hmin & Hall).
    rewrite zlength_cons.
    set (n := zlength (sleb128_bytes (Z.shiftr v 7))) in *.
    rewrite Z.shiftr_div_pow2 in Hb, Hmin by lia. change (2 ^ 7) with 128 in *.
    pose proof (Z.div_mod v 128 ltac:(lia)).
    pose proof (Z.mod_pos_bound v 128 ltac:(lia)).
    assert (2 ^ (7 * (n + 1) - 1) = 128 * 2 ^ (7 * n - 1)) as Hp.
    { replace (7 * (n + 1) - 1) with (7 + (7 * n - 1)) by lia.
      rewrite Z.pow_add_r by lia. reflexivity. }
    split; [lia|]. split; [rewrite Hp; lia|]. split.
    + intros _. replace (n + 1 - 1) with n by lia.
      destruct (Z.eq_dec n 1) as [->|Hne]; [change (2 ^ (7 * 1 - 1)) with 64; lia|].
      specialize (Hmin ltac:(lia)).
      assert (2 ^ (7 * n - 1) = 128 * 2 ^ (7 * (n - 1) - 1)) as Hq.
      { replace (7 * n - 1) with (7 + (7 * (n - 1) - 1)) by lia.
        rewrite Z.pow_add_r by lia. reflexivity. }
      rewrite Hq. intros Hin. apply Hmin. lia.
    + constructor; [apply to_uint8_range|exact Hall].
  - clear Heqcall Heq.
    assert (-64 <= v < 64) as Hr.
    { destruct (Z_lt_le_dec v (-64)) as [Hlo|Hlo];
        [exfalso; apply n, sleb128_loop_condition; [exact Hv|lia]|].
      destruct (Z_lt_le_dec v 64) as [Hhi|Hhi]; [lia|].
      exfalso. apply n, sleb128_loop_condition; [exact Hv|lia]. }
    change (zlength [to_uint8 (Z.land v 127)]) with 1.
    split; [lia|]. split; [change (2 ^ (7 * 1 - 1)) with 64; lia|].
    split; [lia|]. constructor; [apply to_uint8_range|constructor].
Qed.

(** X20: [elfctx_append_uleb128] and [elfctx_append_sleb128] write the
    shortest encoding.  For a 32-bit value the encoding has between 1
    and 5 bytes, each below 256; with [n] bytes the value fits [7 n]
    bits (unsigned), or [7 n] bits with the sign (signed), and it does
    not fit [7 (n - 1)] bits. *)
Theorem leb128_encodings_are_shortest v :
  (is_uint32 v ->
   let n := zlength (uleb128_bytes v) in
   1 <= n <= 5 /\
   v < 2 ^ (7 * n) /\
   (1 < n -> 2 ^ (7 * (n - 1)) <= v) /\
   Forall (fun b => 0 <= b < 256) (uleb128_bytes v)) /\
  (is_int32 v ->
   let n := zlength (sleb128_bytes v) in
   1 <= n <= 5 /\
   - 2 ^ (7 * n - 1) <= v < 2 ^ (7 * n - 1) /\
   (1 < n -> ~ (- 2 ^ (7 * (n - 1) - 1) <= v < 2 ^ (7 * (n - 1) - 1))) /\
   Forall (fun b => 0 <= b < 256) (sleb128_bytes v)).
Proof.
  split.
  - intros [Hv Hv']. cbv zeta.
    destruct (uleb128_shortest v Hv) as (Hn & Hub & Hlb & Hall).
    cbv zeta in Hn, Hub, Hlb. set (n := zlength (uleb128_bytes v)) in *.
    repeat split; try assumption.
    destruct (Z_le_gt_dec n 1); [lia|].
    specialize (Hlb ltac:(lia)).
    pose proof (pow2_lt_exp (7 * (n - 1)) 32 v ltac:(lia) ltac:(lia) Hlb Hv'). lia.
  - intros Hv. cbv zeta.
    destruct (sleb128_shortest v Hv) as (Hn & Hb & Hmin & Hall).
    cbv zeta in Hn, Hb, Hmin. set (n := zlength (sleb128_bytes v)) in *.
    repeat split; try assumption; try lia.
    destruct (Z_le_gt_dec n 5); [assumption|exfalso].
    apply Hmin; [lia|]. unfold is_int32 in Hv.
    assert (2 ^ 31 <= 2 ^ (7 * (n - 1) - 1)) by (apply Z.pow_le_mono_r; lia).
    lia.
Qed.

Lemma leb128_encodings_are_shortest_witness :
  (let n := zlength (uleb128_bytes 624485) in
   1 <= n <= 5 /\
   624485 < 2 ^ (7 * n) /\
   (1 < n -> 2 ^ (7 * (n - 1)) <= 624485) /\
   Forall (fun b => 0 <= b < 256) (uleb128_bytes 624485)) /\
  (let n := zlength (sleb128_bytes (-8)) in
   1 <= n <= 5 /\
   - 2 ^ (7 * n - 1) <= -8 < 2 ^ (7 * n - 1) /\
   (1 < n -> ~ (- 2 ^ (7 * (n - 1) - 1) <= -8 < 2 ^ (7 * (n - 1) - 1))) /\
   Forall (fun b => 0 <= b < 256) (sleb128_bytes (-8))).
Proof.
  exact (conj
           (proj1 (leb128_encodings_are_shortest 624485)
              ltac:(unfold is_uint32; lia))
           (proj2 (leb128_encodings_are_shortest (-8))
              ltac:(unfold is_int32; lia))).
Defined.

(** ** The perf map *)

Lemma perfmap_writes_app h1 h2 :
  perfmap_writes (h1 ++ h2) = perfmap_writes h1 ++ perfmap_writes h2.
Proof. apply flat_map_app. Qed.

Lemma lines_step_refl rt : lines_step rt rt.
Proof.
  exists [], []. rewrite !app_nil_r. repeat split. constructor.
Qed.

Lemma lines_step_trans a b c : lines_step a b -> lines_step b c -> lines_step a c.
Proof.
  intros (es1 & n1 & Hh1 & Hl1 & Hm1 & Hf1) (es2 & n2 & Hh2 & Hl2 & Hm2 & Hf2).
  exists (es1 ++ es2), (n1 ++ n2).
  rewrite Hh2, Hh1, Hl2, Hl1, !app_assoc, map_app, perfmap_writes_app, Hm1, Hm2.
  repeat split. apply Forall_app. split; assumption.
Qed.

(** A step that writes no line and adds no perf-map write to the
    history. *)
Lemma lines_step_quiet rt rt' es :
  history rt' = history rt ++ es ->
  perfmap_writes es = [] ->
  perf_map_lines rt' = perf_map_lines rt ->
  lines_step rt rt'.
Proof.
  intros Hh He Hl. exists es, []. rewrite Hl, He, app_nil_r.
  repeat split; [exact Hh|constructor].
Qed.

Lemma write_fully_lines b rt rt' :
  perf_map_jit_write_fully b rt = Done rt' ->
  perf_map_lines rt' = perf_map_lines rt /\ history rt' = history rt.
Proof.
  unfold perf_map_jit_write_fully. intros H.
  destruct b; [inv H; split; reflexivity|].
  destruct (perf_map (perf_jit_map_state rt)); inv H. split; reflexivity.
Qed.

Lemma write_all_lines bs : forall rt rt',
  write_all bs rt = Done rt' ->
  perf_map_lines rt' = perf_map_lines rt /\ history rt' = history rt.
Proof.
  induction bs as [|b bs IH]; cbn [write_all]; intros rt rt' H.
  - inv H. split; reflexivity.
  - destruct (perf_map_jit_write_fully b rt) as [rt1|] eqn:E; [|discriminate].
    cbn [bind] in H. apply write_fully_lines in E. apply IH in H.
    destruct E, H. split; congruence.
Qed.

Lemma jit_init_lines os rt p rt' :
  perf_map_jit_init os rt = Done (p, rt') ->
  perf_map_lines rt' = perf_map_lines rt /\ history rt' = history rt.
Proof.
  unfold perf_map_jit_init, perf_map_jit_write_header. intros H.
  unfold bind in H.
  repeat (break_match; try discriminate); inv H; try (split; reflexivity).
  all: match goal with
       | Hw : perf_map_jit_write_fully _ _ = Done _ |- _ =>
           apply write_fully_lines in Hw; destruct Hw; cbn in *; split; congruence
       end.
Qed.

Section Lines.
Variable T : list Z.
Variable arch : target_arch.
Variable ev : Z -> _PyInterpreterFrame -> Z -> Z.

Lemma jit_write_records_lines os a sz co rt rt' :
  jit_write_records arch os a sz co rt = Done rt' ->
  perf_map_lines rt' = perf_map_lines rt /\ history rt' = history rt.
Proof.
  unfold jit_write_records, bind. intros H.
  destruct (negb (wr_malloc os)); [inv H; split; reflexivity|].
  destruct (write_all (unwinding_record arch os sz) rt) as [rt1|] eqn:E1;
    [|discriminate].
  apply write_all_lines in E1. apply write_all_lines in H.
  cbn in H. destruct E1, H. split; congruence.
Qed.

Lemma jit_write_entry_lines os a sz co rt rt' :
  perf_map_jit_write_entry arch os a sz co rt = Done rt' ->
  perf_map_lines rt' = perf_map_lines rt /\ history rt' = history rt.
Proof.
  unfold perf_map_jit_write_entry, bind. intros H.
  destruct (perf_map (perf_jit_map_state rt));
    try (eapply jit_write_records_lines; eassumption).
  destruct (perf_map_jit_init (wr_init os) rt) as [[p rt1]|] eqn:E; [|discriminate].
  apply jit_init_lines in E. destruct E as [El Eh].
  destruct p; [inv H; split; assumption|].
  apply jit_write_records_lines in H. destruct H. split; congruence.
Qed.

Lemma call_write_lines os a sz co rt rt' :
  wr_malloc os = true ->
  call_write arch os a sz co rt = Done rt' ->
  lines_step rt rt'.
Proof.
  intros Hm H. unfold call_write in H.
  destruct (write_state (trampoline_api rt)) as [[]|]; [| |discriminate].
  - inv H. unfold perf_map_write_entry, PyUnstable_WritePerfMapEntry.
    rewrite Hm. cbn [negb].
    exists [call_write_state perfmap_sink a (to_uint32 sz) (co_addr co)],
           [(a, to_uint32 sz, perf_map_entry_of co)].
    cbn. repeat split. constructor; [eexists; reflexivity|constructor].
  - apply jit_write_entry_lines in H. destruct H as [Hl Hh].
    apply (lines_step_quiet _ _
             [call_write_state jitdump_sink a (to_uint32 sz) (co_addr co)]);
      cbn in *; auto.
Qed.

Lemma new_code_arena_lines os rt res rt' :
  new_code_arena T os rt = Done (res, rt') -> lines_step rt rt'.
Proof.
  unfold new_code_arena. intros H.
  repeat (break_match; try discriminate); inv H;
    match goal with
    | |- lines_step ?a ?b =>
        first
          [ apply (lines_step_quiet a b [call_mmap None]); cbn;
            first [reflexivity|rewrite <- app_assoc; reflexivity]
          | apply (lines_step_quiet a b [call_mmap (Some z)]); cbn;
            first [reflexivity|rewrite <- app_assoc; reflexivity]
          | apply (lines_step_quiet a b [call_mmap (Some z); call_munmap z]); cbn;
            first [reflexivity|rewrite <- app_assoc; reflexivity] ]
    end.
Qed.

Lemma compile_trampoline_lines os rt p rt' :
  compile_trampoline T os rt = Done (p, rt') -> lines_step rt rt'.
Proof.
  unfold compile_trampoline, bind. intros H.
  destruct (perf_code_arena rt) as [|head prev] eqn:Ea; [discriminate|].
  assert (forall rt1,
            lines_step rt rt1 ->
            match perf_code_arena rt1 with
            | [] => Fault NullDereference
            | head0 :: prev0 =>
                let '(trampoline, head1) :=
                  code_arena_new_code (code_padding (trampoline_api rt1)) head0 in
                Done (trampoline, set_perf_code_arena (head1 :: prev0) rt1)
            end = Done (p, rt') ->
            lines_step rt rt') as Hfin.
  { intros rt1 Hq Hm. eapply lines_step_trans; [exact Hq|].
    destruct (perf_code_arena rt1) as [|h1 p1] eqn:Ea1; [discriminate|].
    unfold code_arena_new_code in Hm. inv Hm.
    apply (lines_step_quiet _ _ []); cbn; auto. rewrite app_nil_r. reflexivity. }
  destruct (is_NULL_arena (head :: prev) || _).
  - destruct (new_code_arena T os rt) as [[res rt1]|] eqn:En; [|discriminate].
    apply new_code_arena_lines in En.
    destruct (res <? 0); [inv H; exact En|].
    apply (Hfin rt1); assumption.
  - apply (Hfin rt); [apply lines_step_refl|exact H].
Qed.

Lemma evaluator_lines os ts frame throw rt v rt' :
  wr_malloc (d_write os) = true ->
  py_trampoline_evaluator T arch ev os ts frame throw rt = Done (v, rt') ->
  lines_step rt rt'.
Proof.
  intros Hm. unfold py_trampoline_evaluator, bind. intros H.
  destruct (perf_status rt); [inv H; apply lines_step_refl|inv H; apply lines_step_refl|].
  unfold _PyCode_GetExtra in H.
  assert (forall f rt1, lines_step rt rt1 ->
            lines_step rt (snd (run_stub f ts frame throw ev rt1))) as Hstub.
  { intros f rt1 Hq. eapply lines_step_trans; [exact Hq|].
    apply (lines_step_quiet _ _ [call_stub f (co_addr (f_code frame))]); cbn; auto. }
  destruct (negb (0 =? 0) || _).
  - destruct (compile_trampoline T (d_arena os) rt) as [[p rt1]|] eqn:Ec; [|discriminate].
    apply compile_trampoline_lines in Ec.
    destruct (p =? NULL); [inv H; exact Ec|].
    destruct (perf_code_arena rt1) as [|head prev] eqn:Ea; [discriminate|].
    destruct (call_write arch (d_write os) p (code_size head) (_PyFrame_GetCode frame) rt1)
      as [rt2|] eqn:Ew; [|discriminate].
    apply (call_write_lines _ _ _ _ _ _ Hm) in Ew.
    unfold _PyCode_SetExtra in H.
    destruct (d_set_extra os); inv H.
    + apply (Hstub p). eapply lines_step_trans; [exact Ec|].
      eapply lines_step_trans; [exact Ew|].
      apply (lines_step_quiet _ _ []); cbn; auto. rewrite app_nil_r. reflexivity.
    + apply (Hstub p). eapply lines_step_trans; eassumption.
  - inv H. apply (Hstub _ rt), lines_step_refl.
Qed.

Lemma run_dispatches_lines calls : forall rt vs rt',
  Forall (fun c => wr_malloc (d_write (dc_os c)) = true) calls ->
  run_dispatches T arch ev calls rt = Done (vs, rt') ->
  lines_step rt rt'.
Proof.
  induction calls as [|d calls IH]; intros rt vs rt' Hall H.
  - inv H. apply lines_step_refl.
  - cbn [run_dispatches] in H. unfold bind in H.
    destruct (py_trampoline_evaluator T arch ev (dc_os d) (dc_ts d) (dc_frame d)
                (dc_throw d) rt) as [[v rt1]|] eqn:E1; [|discriminate].
    destruct (run_dispatches T arch ev calls rt1) as [[vs1 rt2]|] eqn:E2;
      [|discriminate].
    inv H. apply Forall_cons_iff in Hall. destruct Hall as [Hd Hall].
    eapply lines_step_trans.
    + eapply evaluator_lines; eassumption.
    + eapply IH; eassumption.
Qed.

(** X21: [perf_map_write_entry] hands one entry to
    [PyUnstable_WritePerfMapEntry] each time it is called.  Over any
    sequence of dispatches that returns, with [PyMem_RawMalloc]
    succeeding, the addresses and sizes of the entries handed over stay
    the addresses and sizes of the writes to the perf-map sink, in
    order; entries are only added at the end, each named
    [py::<qualname>:<filename>] after a code object, and the jitdump
    sink adds none. *)
Theorem perf_map_has_a_line_per_write calls rt vs rt' :
  lines_written rt = perfmap_writes (history rt) ->
  Forall (fun c => wr_malloc (d_write (dc_os c)) = true) calls ->
  run_dispatches T arch ev calls rt = Done (vs, rt') ->
  lines_written rt' = perfmap_writes (history rt') /\
  exists new,
    perf_map_lines rt' = perf_map_lines rt ++ new /\
    Forall (fun l => exists co, snd l = perf_map_entry_of co) new.
Proof.
  intros Hinv Hall H.
  destruct (run_dispatches_lines calls rt vs rt' Hall H)
    as (es & new & Hh & Hl & Hm & Hf).
  split.
  - unfold lines_written. rewrite Hl, Hh, map_app, perfmap_writes_app, Hm.
    f_equal. exact Hinv.
  - exists new. split; assumption.
Qed.
End Lines.

Lemma three_calls_malloc :
  Forall (fun c => wr_malloc (d_write (dc_os c)) = true) three_calls.
Proof. repeat constructor. Qed.

Lemma perf_map_has_a_line_per_write_witness :
  let final :=
    result_of
      (run_dispatches (nop_template 96) X86_64 eval_stub three_calls
         started_perfmap) ([], default_runtime) in
  lines_written (snd final) = perfmap_writes (history (snd final)) /\
  exists new,
    perf_map_lines (snd final) = perf_map_lines started_perfmap ++ new /\
    Forall (fun l => exists co, snd l = perf_map_entry_of co) new.
Proof.
  exact (perf_map_has_a_line_per_write (nop_template 96) X86_64 eval_stub
           three_calls started_perfmap
           (fst (result_of
                   (run_dispatches (nop_template 96) X86_64 eval_stub three_calls
                      started_perfmap)
                   ([], default_runtime)))
           (snd (result_of
                   (run_dispatches (nop_template 96) X86_64 eval_stub three_calls
                      started_perfmap)
                   ([], default_runtime)))
           ltac:(vm_compute; reflexivity)
           three_calls_malloc
           (done_pair
              (run_dispatches (nop_template 96) X86_64 eval_stub three_calls
                 started_perfmap)
              ([], default_runtime) three_calls_done)).
Defined.

(** ** [round_up] gives the least multiple *)

(** X22: [round_up] gives the least multiple.
    For [0 <= x], [0 < m] and [x + m < 2^63], [round_up x m] is a
    multiple of [m] between [x] and [x + m - 1], no multiple of [m] from
    [x] on is smaller, rounding up twice is rounding up once, and a
    larger value rounds up to no smaller result. *)
Theorem round_up_is_the_least_multiple x m :
  0 <= x -> 0 < m -> x + m < 2 ^ 63 ->
  x <= round_up x m < x + m /\
  round_up x m mod m = 0 /\
  (forall y, x <= y -> y mod m = 0 -> round_up x m <= y) /\
  round_up (round_up x m) m = round_up x m /\
  (forall x', x <= x' -> x' + m < 2 ^ 63 -> round_up x m <= round_up x' m).
Proof.
  intros Hx Hm Hsum.
  assert (forall z, 0 <= z -> z + m < 2 ^ 63 ->
            round_up z m = m * ((z + m - 1) / m) /\
            z <= round_up z m < z + m /\ round_up z m mod m = 0) as Hr.
  { intros z Hz Hzm. rewrite round_up_nonneg by lia.
    pose proof (Z.div_mod (z + m - 1) m ltac:(lia)).
    pose proof (Z.mod_pos_bound (z + m - 1) m ltac:(lia)).
    split; [reflexivity|]. split; [lia|].
    rewrite Z.mul_comm. apply Z.mod_mul. lia. }
  destruct (Hr x Hx Hsum) as (Ex & Hbx & Hmx).
  split; [exact Hbx|]. split; [exact Hmx|].
  assert (forall y, x <= y -> y mod m = 0 -> round_up x m <= y) as Hleast.
  { intros y Hy Hym.
    apply Z.mod_divide in Hym; [|lia]. destruct Hym as [q ->].
    apply Z.mod_divide in Hmx; [|lia]. destruct Hmx as [k Hk].
    rewrite Hk in *.
    assert (k - 1 < q) by nia. nia. }
  split; [exact Hleast|]. split.
  - assert (round_up x m + m < 2 ^ 63 \/ 2 ^ 63 <= round_up x m + m) as [Hfit|Hbig]
      by lia.
    + destruct (Hr (round_up x m) ltac:(lia) Hfit) as (_ & Hb2 & Hm2).
      apply Z.le_antisymm; [|lia].
      apply Z.mod_divide in Hm2; [|lia]. destruct Hm2 as [q Hq].
      pose proof Hmx as Hmx'.
      apply Z.mod_divide in Hmx'; [|lia]. destruct Hmx' as [k Hk].
      rewrite Hq, Hk in *. assert (q < k + 1) by nia. nia.
    + unfold round_up at 1.
      destruct (Z.eqb_spec m 0); [lia|].
      assert (Z.rem (round_up x m) m = 0) as ->.
      { rewrite Z.rem_mod_nonneg by lia. exact Hmx. }
      cbn [Z.eqb]. apply to_size_t_small. lia.
  - intros x' Hxx' Hsum'.
    destruct (Hr x' ltac:(lia) Hsum') as (_ & Hb' & Hm').
    apply Hleast; [lia|exact Hm'].
Qed.

Lemma round_up_is_the_least_multiple_witness :
  267 <= round_up 267 16 < 267 + 16 /\
  round_up 267 16 mod 16 = 0 /\
  (forall y, 267 <= y -> y mod 16 = 0 -> round_up 267 16 <= y) /\
  round_up (round_up 267 16) 16 = round_up 267 16 /\
  (forall x', 267 <= x' -> x' + 16 < 2 ^ 63 -> round_up 267 16 <= round_up x' 16).
Proof.
  exact (round_up_is_the_least_multiple 267 16 ltac:(lia) ltac:(lia)
           ltac:(vm_compute; reflexivity)).
Defined.
